(** * Working time around: records persistence, latest-session derivation
      and month exporters

    A shallow embedding of the records persistence transform
    ([setTransform] in [src/state/store.ts]), of the
    record key and types ([src/state/ducks/records/types.ts]), of the CSV
    exporter ([src/implementations/formatter.ts]), of the mailto
    exporter ([createMailToUri], [getDaysInMonth] in the 'List' page), and
    of what the 'List' and 'CurrentState' pages compute of dates: the first
    day and the links of a month, the kind of a day, the paths of the days,
    the closing of the memo field.

    Conventions of the model.
    - A JavaScript string is a [string]: the sequence of its UTF-8 bytes.
      A string holding an unpaired surrogate has no such form and is
      outside the model.
    - A JavaScript [Date] is its time value: an integer number of
      milliseconds since the epoch, or the invalid date ([NaN]). Setting
      the date of the month, and taking the end of a month, do not clip
      the result: the months of the exporters are taken to lie well inside
      the range of time values. Setting the hour and the minute, to any
      number, does clip.
    - Numbers met by the exporters are integers ([Z]); a number met by
      the JSON reader is kept as its literal.
    - The host (clock, time zone, locale, and what the engine makes of a
      date text outside the ECMAScript format) is a record [Host]; the
      time zone is a fixed offset from UTC.
    - dayjs is the version 1.9 that [package.json] names, taken from its
      documented behaviour and the ECMAScript rules of [Date] it rests
      on.
    - A call that may throw returns a [result].

    The model comes first, each definition after the code it stands for;
    then the notions the statements are written in, the facts about the
    model, the claims of the specification, numbered as it numbers them
    (C1, ...), and further properties of the code (X1, ...). *)

From stdpp Require Import gmap strings list pretty.
From Stdlib Require Import ZArith Lia Ascii.

Set Warnings "-register-all".

Local Open Scope Z_scope.

(** * The model *)

(** ** Calls that may throw *)

Inductive exn : Set := SyntaxError | TypeError | RangeError.

Inductive result (A : Type) : Type :=
| Ok (a : A)
| Throw (e : exn).
Arguments Ok {A} a.
Arguments Throw {A} e.

Global Instance result_ret : MRet result := @Ok.
Global Instance result_bind : MBind result := fun A B k r =>
  match r with
  | Ok a => k a
  | Throw e => Throw e
  end.
Global Instance result_fmap : FMap result := fun A B f r =>
  match r with
  | Ok a => Ok (f a)
  | Throw e => Throw e
  end.

(** ** Text helpers *)

Module Text.

(** [Array.prototype.join]. *)
Fixpoint join (sep : string) (l : list string) : string :=
  match l with
  | [] => ""
  | [s] => s
  | s :: l' => s +:+ sep +:+ join sep l'
  end.

(** The decimal digit [d] (taken modulo 10) as a character. *)
Definition digit (d : Z) : ascii :=
  ascii_of_nat (48 + Z.to_nat (d mod 10)).

Global Arguments digit : simpl never.

(** The value of a decimal digit character. *)
Definition digit_value (c : ascii) : option Z :=
  let n := Z.of_nat (nat_of_ascii c) in
  if (48 <=? n) && (n <=? 57) then Some (n - 48) else None.

(** [pad w n]: the last [w] decimal digits of [n], zero padded. *)
Fixpoint pad (w : nat) (n : Z) : string :=
  match w with
  | O => ""
  | S w' => String (digit (n / 10 ^ Z.of_nat w')) (pad w' n)
  end.

Global Arguments pad : simpl never.

(** Reads exactly [w] decimal digits. *)
Fixpoint read_digits (w : nat) (acc : Z) (s : string) : option (Z * string) :=
  match w with
  | O => Some (acc, s)
  | S w' =>
      match s with
      | String c s' =>
          match digit_value c with
          | Some d => read_digits w' (acc * 10 + d) s'
          | None => None
          end
      | EmptyString => None
      end
  end.

End Text.

(** ** The ECMAScript calendar

    Day numbers and time values as ECMAScript defines them ("Time Values
    and Time Range", "Day Number and Time within Day", "Year Number",
    "Month Number", "Date Number"): the proleptic Gregorian calendar,
    days counted from 1 January 1970, months counted from 0. *)

Module Calendar.

Definition msPerDay : Z := 86400000.
Definition msPerHour : Z := 3600000.
Definition msPerMinute : Z := 60000.
Definition msPerSecond : Z := 1000.

(** The largest magnitude of a time value ([TimeClip]). *)
Definition maxTime : Z := 8640000000000000.

Definition Day (t : Z) : Z := t / msPerDay.
Definition TimeWithinDay (t : Z) : Z := t mod msPerDay.

Definition DayFromYear (y : Z) : Z :=
  365 * (y - 1970) + (y - 1969) / 4 - (y - 1901) / 100 + (y - 1601) / 400.

(** The year holding day [d]: the largest [y] with [DayFromYear y <= d].
    The estimate from the mean length of a year is off by one at most. *)
Definition YearFromDay (d : Z) : Z :=
  let y := 1970 + (d * 400) / 146097 in
  if d <? DayFromYear y then y - 1
  else if DayFromYear (y + 1) <=? d then y + 1
  else y.

Definition InLeapYear (y : Z) : bool :=
  (y mod 4 =? 0) && (negb (y mod 100 =? 0) || (y mod 400 =? 0)).

Definition DaysInYear (y : Z) : Z := if InLeapYear y then 366 else 365.

(** Days of the year before month [m] (0 = January). *)
Definition DaysBeforeMonth (leap : bool) (m : Z) : Z :=
  let l := if leap then 1 else 0 in
  match m with
  | 0 => 0 | 1 => 31 | 2 => 59 + l | 3 => 90 + l | 4 => 120 + l
  | 5 => 151 + l | 6 => 181 + l | 7 => 212 + l | 8 => 243 + l
  | 9 => 273 + l | 10 => 304 + l | _ => 334 + l
  end.

(** [MonthFromTime], from the day within the year. *)
Definition MonthFromDayInYear (leap : bool) (d : Z) : Z :=
  let l := if leap then 1 else 0 in
  if d <? 31 then 0
  else if d <? 59 + l then 1
  else if d <? 90 + l then 2
  else if d <? 120 + l then 3
  else if d <? 151 + l then 4
  else if d <? 181 + l then 5
  else if d <? 212 + l then 6
  else if d <? 243 + l then 7
  else if d <? 273 + l then 8
  else if d <? 304 + l then 9
  else if d <? 334 + l then 10
  else 11.

(** The number of days of month [m] (0 = January) of year [y]. *)
Definition DaysInMonth (y m : Z) : Z :=
  match m with
  | 1 => if InLeapYear y then 29 else 28
  | 3 | 5 | 8 | 10 => 30
  | _ => 31
  end.

Definition YearFromTime (t : Z) : Z := YearFromDay (Day t).
Definition DayWithinYear (t : Z) : Z := Day t - DayFromYear (YearFromTime t).
Definition MonthFromTime (t : Z) : Z :=
  MonthFromDayInYear (InLeapYear (YearFromTime t)) (DayWithinYear t).
Definition DateFromTime (t : Z) : Z :=
  DayWithinYear t
  - DaysBeforeMonth (InLeapYear (YearFromTime t)) (MonthFromTime t) + 1.

Definition HourFromTime (t : Z) : Z := (t / msPerHour) mod 24.
Definition MinFromTime (t : Z) : Z := (t / msPerMinute) mod 60.
Definition SecFromTime (t : Z) : Z := (t / msPerSecond) mod 60.
Definition msFromTime (t : Z) : Z := t mod msPerSecond.

Definition MakeTime (h m s ms : Z) : Z :=
  h * msPerHour + m * msPerMinute + s * msPerSecond + ms.

(** [MakeDay]: a month outside 0..11 carries into the year. *)
Definition MakeDay (year month date : Z) : Z :=
  let ym := year + month / 12 in
  let mn := month mod 12 in
  DayFromYear ym + DaysBeforeMonth (InLeapYear ym) mn + date - 1.

Definition MakeDate (day time : Z) : Z := day * msPerDay + time.

(** [MakeFullYear]: the year the [Date] constructor takes a year number
    for; a number from 0 to 99 stands for 1900 and that many. *)
Definition MakeFullYear (year : Z) : Z :=
  if decide (0 <= year <= 99) then 1900 + year else year.

(** [WeekDay]: 0 is Sunday; 1 January 1970 was a Thursday. *)
Definition WeekDay (t : Z) : Z := (Day t + 4) mod 7.

End Calendar.

(** ** Dates and their ISO text form *)

(** A JavaScript [Date]: a time value, or the invalid date. *)
Inductive Date : Set :=
| DateAt (t : Z)
| InvalidDate.

Global Instance Date_eq_dec : EqDecision Date.
Proof. solve_decision. Defined.

(** The time value of a [Date] object is within [TimeClip]'s range. *)
Definition Date_in_range (d : Date) : Prop :=
  match d with
  | DateAt t => - Calendar.maxTime <= t <= Calendar.maxTime
  | InvalidDate => True
  end.

(** [TimeClip]: a time value out of range makes the invalid date. *)
Definition TimeClip (t : Z) : Date :=
  if decide (- Calendar.maxTime <= t <= Calendar.maxTime) then DateAt t
  else InvalidDate.

Module ISO.
Import Calendar Text.

(** The year of [Date.prototype.toISOString]: four digits from 0 to
    9999, otherwise a sign and six digits. *)
Definition year_text (y : Z) : string :=
  if decide (0 <= y <= 9999) then pad 4 y
  else if decide (y < 0) then "-" +:+ pad 6 (- y)
  else "+" +:+ pad 6 y.

(** [Date.prototype.toISOString] of the time value [t]:
    [YYYY-MM-DDTHH:mm:ss.sssZ], in UTC. *)
Definition toISOString (t : Z) : string :=
  year_text (YearFromTime t) +:+ "-" +:+ pad 2 (MonthFromTime t + 1)
  +:+ "-" +:+ pad 2 (DateFromTime t)
  +:+ "T" +:+ pad 2 (HourFromTime t) +:+ ":" +:+ pad 2 (MinFromTime t)
  +:+ ":" +:+ pad 2 (SecFromTime t) +:+ "." +:+ pad 3 (msFromTime t)
  +:+ "Z".

(** [Date.prototype.toJSON]: [null] ([None]) for the invalid date. *)
Definition toJSON (d : Date) : option string :=
  match d with
  | DateAt t => Some (toISOString t)
  | InvalidDate => None
  end.

Definition expect (c : ascii) (s : string) : option string :=
  match s with
  | String c' s' => if decide (c' = c) then Some s' else None
  | EmptyString => None
  end.

(** A year of the date-time string format: [YYYY] or [+YYYYYY] or
    [-YYYYYY], the year [-000000] being no year. *)
Definition read_year (s : string) : option (Z * string) :=
  match s with
  | String c s' =>
      if decide (c = "+"%char) then read_digits 6 0 s'
      else if decide (c = "-"%char) then
        '(y, r) ← read_digits 6 0 s';
        if y =? 0 then None else Some (- y, r)
      else read_digits 4 0 s
  | EmptyString => None
  end.

(** The time value of a text in the full UTC form of the ECMAScript
    date-time string format, [YYYY-MM-DDTHH:mm:ss.sssZ] with every
    field in its range and the time value in range. Every engine reads
    such a text the same way; any other text gives [None] here, and is
    left to the host (see [Host]). *)
Definition parse_iso (s : string) : option Z :=
  '(y, s) ← read_year s;
  s ← expect "-" s;
  '(mo, s) ← read_digits 2 0 s;
  s ← expect "-" s;
  '(d, s) ← read_digits 2 0 s;
  s ← expect "T" s;
  '(h, s) ← read_digits 2 0 s;
  s ← expect ":" s;
  '(mi, s) ← read_digits 2 0 s;
  s ← expect ":" s;
  '(sec, s) ← read_digits 2 0 s;
  s ← expect "." s;
  '(ms, s) ← read_digits 3 0 s;
  s ← expect "Z" s;
  let t := MakeDate (MakeDay y (mo - 1) d) (MakeTime h mi sec ms) in
  if decide (s = "" /\ 1 <= mo <= 12 /\ 1 <= d <= DaysInMonth y (mo - 1)
             /\ h <= 23 /\ mi <= 59 /\ sec <= 59
             /\ - maxTime <= t <= maxTime)
  then Some t else None.

End ISO.

(** ** JavaScript values and JSON text *)

(** The values the persistence layer handles: what [JSON.parse] builds,
    and [Date] objects. An object is the list of its own properties, keys
    distinct, in the order they were defined in. (JavaScript enumerates
    the keys that are array indices, as record keys are, in ascending order
    before the others. Here the order of the list only sets the order of
    the text [JSON.stringify] writes, which is read back alike in any
    order.) A number is kept as its literal. *)
Local Unset Elimination Schemes.

Inductive value : Type :=
| VNull
| VBool (b : bool)
| VNum (literal : string)
| VStr (s : string)
| VDate (d : Date)
| VArr (elems : list value)
| VObj (props : list (string * value)).

Local Set Elimination Schemes.

(** Induction on values, through the elements of arrays and the
    properties of objects. *)
Section value_induction.
Variable P : value -> Prop.
Hypothesis Hnull : P VNull.
Hypothesis Hbool : forall b, P (VBool b).
Hypothesis Hnum : forall l, P (VNum l).
Hypothesis Hstr : forall s, P (VStr s).
Hypothesis Hdate : forall d, P (VDate d).
Hypothesis Harr : forall l, Forall P l -> P (VArr l).
Hypothesis Hobj : forall ps, Forall (fun kv => P (snd kv)) ps -> P (VObj ps).

Fixpoint value_ind (v : value) : P v :=
  match v with
  | VNull => Hnull
  | VBool b => Hbool b
  | VNum l => Hnum l
  | VStr s => Hstr s
  | VDate d => Hdate d
  | VArr l =>
      Harr l ((fix go (l : list value) : Forall P l :=
                 match l with
                 | [] => List.Forall_nil _
                 | x :: l' => List.Forall_cons _ _ _ (value_ind x) (go l')
                 end) l)
  | VObj ps =>
      Hobj ps ((fix go (ps : list (string * value))
                  : Forall (fun kv => P (snd kv)) ps :=
                  match ps with
                  | [] => List.Forall_nil _
                  | kv :: ps' =>
                      List.Forall_cons _ kv _ (value_ind (snd kv)) (go ps')
                  end) ps)
  end.
End value_induction.

Module JSON.
Import Text.

Definition dquote : ascii := "034"%char.
Definition backslash : ascii := "092"%char.

Definition code (c : ascii) : Z := Z.of_N (N_of_ascii c).
Definition char_of (n : Z) : ascii := ascii_of_N (Z.to_N n).

(** *** Writing: [JSON.stringify] *)

Definition hex_digit (d : Z) : ascii :=
  if d <? 10 then char_of (48 + d) else char_of (87 + d).

(** One code unit of [QuoteJSONString]. *)
Definition escape_char (c : ascii) : string :=
  let n := code c in
  if n =? 8 then String backslash "b"
  else if n =? 9 then String backslash "t"
  else if n =? 10 then String backslash "n"
  else if n =? 12 then String backslash "f"
  else if n =? 13 then String backslash "r"
  else if n =? 34 then String backslash (String dquote "")
  else if n =? 92 then String backslash (String backslash "")
  else if n <? 32 then
    String backslash
      (String "u" (String "0" (String "0"
        (String (hex_digit (n / 16)) (String (hex_digit (n mod 16)) "")))))
  else String c "".

Fixpoint escape (s : string) : string :=
  match s with
  | EmptyString => ""
  | String c s' => escape_char c +:+ escape s'
  end.

(** [QuoteJSONString]. *)
Definition quote (s : string) : string :=
  String dquote (escape s +:+ String dquote "").

(** [JSON.stringify] with no replacer and no indentation. A [Date] is
    written through its [toJSON]. *)
Fixpoint stringify (v : value) : string :=
  match v with
  | VNull => "null"
  | VBool b => if b then "true" else "false"
  | VNum l => l
  | VStr s => quote s
  | VDate d =>
      match ISO.toJSON d with
      | Some s => quote s
      | None => "null"
      end
  | VArr l => "[" +:+ join "," (map stringify l) +:+ "]"
  | VObj ps =>
      "{" +:+ join "," (map (fun kv => quote (fst kv) +:+ ":" +:+ stringify (snd kv)) ps)
      +:+ "}"
  end.

(** *** Reading: [JSON.parse] *)

Definition is_ws (c : ascii) : bool :=
  let n := code c in
  (n =? 32) || (n =? 9) || (n =? 10) || (n =? 13).

Fixpoint skip_ws (s : string) : string :=
  match s with
  | String c s' => if is_ws c then skip_ws s' else s
  | EmptyString => s
  end.

Definition hex_value (c : ascii) : option Z :=
  let n := code c in
  if (48 <=? n) && (n <=? 57) then Some (n - 48)
  else if (97 <=? n) && (n <=? 102) then Some (n - 87)
  else if (65 <=? n) && (n <=? 70) then Some (n - 55)
  else None.

Definition hex4 (a b c d : ascii) : option Z :=
  x ← hex_value a; y ← hex_value b; z ← hex_value c; w ← hex_value d;
  Some (((x * 16 + y) * 16 + z) * 16 + w).

(** The UTF-8 bytes of a code point. *)
Definition utf8 (n : Z) : string :=
  if n <? 128 then String (char_of n) ""
  else if n <? 2048 then
    String (char_of (192 + n / 64)) (String (char_of (128 + n mod 64)) "")
  else if n <? 65536 then
    String (char_of (224 + n / 4096))
      (String (char_of (128 + (n / 64) mod 64))
         (String (char_of (128 + n mod 64)) ""))
  else
    String (char_of (240 + n / 262144))
      (String (char_of (128 + (n / 4096) mod 64))
         (String (char_of (128 + (n / 64) mod 64))
            (String (char_of (128 + n mod 64)) ""))).

Definition is_high_surrogate (n : Z) : bool := (55296 <=? n) && (n <=? 56319).
Definition is_low_surrogate (n : Z) : bool := (56320 <=? n) && (n <=? 57343).

(** The character an escape letter stands for. *)
Definition simple_escape (e : ascii) : option ascii :=
  let n := code e in
  if n =? 34 then Some dquote
  else if n =? 92 then Some backslash
  else if n =? 47 then Some "/"%char
  else if n =? 98 then Some (char_of 8)
  else if n =? 102 then Some (char_of 12)
  else if n =? 110 then Some (char_of 10)
  else if n =? 114 then Some (char_of 13)
  else if n =? 116 then Some (char_of 9)
  else None.

(** The low surrogate escaped at the head of [s], and what follows. *)
Definition low_surrogate_escape (s : string) : option (Z * string) :=
  match s with
  | String b (String u (String h1 (String h2 (String h3 (String h4 r))))) =>
      if decide (b = backslash /\ u = "u"%char) then
        match hex4 h1 h2 h3 h4 with
        | Some n => if is_low_surrogate n then Some (n, r) else None
        | None => None
        end
      else None
  | _ => None
  end.

(** A string literal after its opening quote: the string, and the text
    after the closing quote. *)
Fixpoint parse_string_body (s : string) : option (string * string) :=
  match s with
  | EmptyString => None
  | String c r =>
      if decide (c = dquote) then Some ("", r)
      else if decide (c = backslash) then
        match r with
        | EmptyString => None
        | String e r1 =>
            match simple_escape e with
            | Some c' =>
                '(str, rest) ← parse_string_body r1; Some (String c' str, rest)
            | None =>
                if decide (e = "u"%char) then
                  match r1 with
                  | String h1 (String h2 (String h3 (String h4 r2))) =>
                      match hex4 h1 h2 h3 h4 with
                      | Some n =>
                          if is_high_surrogate n then
                            match r2 with
                            | String b (String u (String l1 (String l2
                                (String l3 (String l4 r3))))) =>
                                match low_surrogate_escape r2 with
                                | Some (lo, _) =>
                                    '(str, rest) ← parse_string_body r3;
                                    Some (utf8 (65536 + (n - 55296) * 1024
                                                + (lo - 56320)) +:+ str, rest)
                                | None =>
                                    '(str, rest) ← parse_string_body r2;
                                    Some (utf8 n +:+ str, rest)
                                end
                            | _ =>
                                '(str, rest) ← parse_string_body r2;
                                Some (utf8 n +:+ str, rest)
                            end
                          else
                            '(str, rest) ← parse_string_body r2;
                            Some (utf8 n +:+ str, rest)
                      | None => None
                      end
                  | _ => None
                  end
                else None
            end
        end
      else if code c <? 32 then None
      else '(str, rest) ← parse_string_body r; Some (String c str, rest)
  end.

Definition is_digit (c : ascii) : bool := (48 <=? code c) && (code c <=? 57).

(** The longest prefix of digits, and the rest. *)
Fixpoint span_digits (s : string) : string * string :=
  match s with
  | String c r =>
      if is_digit c then
        let '(ds, rest) := span_digits r in (String c ds, rest)
      else ("", s)
  | EmptyString => ("", "")
  end.

(** One or more digits. *)
Definition digits1 (s : string) : option (string * string) :=
  match span_digits s with
  | (EmptyString, _) => None
  | (ds, rest) => Some (ds, rest)
  end.

(** A number literal: an optional minus sign; a zero, or digits that
    do not start with a zero; an optional fraction (a dot and digits);
    an optional exponent (e or E, an optional sign, digits). *)
Definition parse_number (s : string) : option (string * string) :=
  let '(sign, s) :=
    match s with
    | String c r => if decide (c = "-"%char) then ("-", r) else ("", s)
    | EmptyString => ("", s)
    end in
  '(int, s) ←
    match s with
    | String c r =>
        if decide (c = "0"%char) then Some ("0", r)
        else if is_digit c then Some (span_digits s)
        else None
    | EmptyString => None
    end;
  '(frac, s) ←
    match s with
    | String c r =>
        if decide (c = "."%char) then
          '(ds, r') ← digits1 r; Some ("." +:+ ds, r')
        else Some ("", s)
    | EmptyString => Some ("", s)
    end;
  '(exp, s) ←
    match s with
    | String c r =>
        if decide (c = "e"%char \/ c = "E"%char) then
          let '(sg, r) :=
            match r with
            | String c' r' =>
                if decide (c' = "+"%char \/ c' = "-"%char)
                then (String c' "", r') else ("", r)
            | EmptyString => ("", r)
            end in
          '(ds, r') ← digits1 r; Some (String c sg +:+ ds, r')
        else Some ("", s)
    | EmptyString => Some ("", s)
    end;
  Some (sign +:+ int +:+ frac +:+ exp, s).

Fixpoint strip_prefix (p s : string) : option string :=
  match p with
  | EmptyString => Some s
  | String c p' =>
      match s with
      | String c' s' => if decide (c' = c) then strip_prefix p' s' else None
      | EmptyString => None
      end
  end.

(** Defining the property [k] of an object under construction: a key
    met again keeps its place and takes the new value. *)
Fixpoint obj_set (k : string) (v : value) (ps : list (string * value))
  : list (string * value) :=
  match ps with
  | [] => [(k, v)]
  | kv :: ps' =>
      if decide (fst kv = k) then (k, v) :: ps' else kv :: obj_set k v ps'
  end.

(** A JSON value at the head of the text (after white space), and the
    rest of the text. Every call spends one unit of [fuel]; a text of
    [n] characters needs less than [2 * n + 1] (see [JSON_parse]). *)
Fixpoint parse_value (fuel : nat) (s : string) : option (value * string) :=
  match fuel with
  | O => None
  | S fuel =>
      match skip_ws s with
      | EmptyString => None
      | String c r =>
          if decide (c = "{"%char) then
            match skip_ws r with
            | String c' r' =>
                if decide (c' = "}"%char) then Some (VObj [], r')
                else parse_members fuel [] r
            | EmptyString => None
            end
          else if decide (c = "["%char) then
            match skip_ws r with
            | String c' r' =>
                if decide (c' = "]"%char) then Some (VArr [], r')
                else parse_elements fuel [] r
            | EmptyString => None
            end
          else if decide (c = dquote) then
            '(str, rest) ← parse_string_body r; Some (VStr str, rest)
          else if decide (c = "t"%char) then
            rest ← strip_prefix "rue" r; Some (VBool true, rest)
          else if decide (c = "f"%char) then
            rest ← strip_prefix "alse" r; Some (VBool false, rest)
          else if decide (c = "n"%char) then
            rest ← strip_prefix "ull" r; Some (VNull, rest)
          else
            '(lit, rest) ← parse_number (String c r); Some (VNum lit, rest)
      end
  end

(** The elements of an array after [acc], up to the closing bracket. *)
with parse_elements (fuel : nat) (acc : list value) (s : string)
  : option (value * string) :=
  match fuel with
  | O => None
  | S fuel =>
      '(v, r) ← parse_value fuel s;
      match skip_ws r with
      | String c r' =>
          if decide (c = ","%char) then parse_elements fuel (acc ++ [v]) r'
          else if decide (c = "]"%char) then Some (VArr (acc ++ [v]), r')
          else None
      | EmptyString => None
      end
  end

(** The members of an object after [acc], up to the closing brace. *)
with parse_members (fuel : nat) (acc : list (string * value)) (s : string)
  : option (value * string) :=
  match fuel with
  | O => None
  | S fuel =>
      match skip_ws s with
      | String q r =>
          if decide (q = dquote) then
            '(k, r) ← parse_string_body r;
            match skip_ws r with
            | String c r =>
                if decide (c = ":"%char) then
                  '(v, r) ← parse_value fuel r;
                  match skip_ws r with
                  | String c r' =>
                      if decide (c = ","%char)
                      then parse_members fuel (obj_set k v acc) r'
                      else if decide (c = "}"%char)
                      then Some (VObj (obj_set k v acc), r')
                      else None
                  | EmptyString => None
                  end
                else None
            | EmptyString => None
            end
          else None
      | EmptyString => None
      end
  end.

(** The JSON text grammar: one value, white space around it. Reading
    spends fuel at each value, and a text has fewer values than twice its
    length: this fuel is enough for every text
    ([JSONFacts.parse_text_fuel]). *)
Definition parse_text (text : string) : option value :=
  '(v, rest) ← parse_value (S (2 * String.length text)) text;
  match skip_ws rest with
  | EmptyString => Some v
  | String _ _ => None
  end.

(** The elements of an array, each through [f] with its index, in
    order from index [i]; the first throw ends the walk. *)
Section walks.
Context {A B : Type}.

Fixpoint walk_elems (f : nat -> A -> result B) (i : nat) (l : list A)
  : result (list B) :=
  match l with
  | [] => Ok []
  | x :: l' =>
      x' ← f i x; xs ← walk_elems f (S i) l'; Ok (x' :: xs)
  end.

(** The properties of an object, each through [f] with its key. *)
Fixpoint walk_props (f : string -> A -> result B) (ps : list (string * A))
  : result (list (string * B)) :=
  match ps with
  | [] => Ok []
  | kv :: ps' =>
      x' ← f (fst kv) (snd kv); xs ← walk_props f ps';
      Ok ((fst kv, x') :: xs)
  end.
End walks.

(** [InternalizeJSONProperty]: the elements of an array (named by
    their indices) and the properties of an object are revived first,
    then the reviver is called on the holder's property [name]. *)
Fixpoint internalize (reviver : string -> value -> result value)
    (name : string) (v : value) : result value :=
  match v with
  | VArr l =>
      l' ← walk_elems (fun i x => internalize reviver (pretty i) x) O l;
      reviver name (VArr l')
  | VObj ps =>
      ps' ← walk_props (fun k x => internalize reviver k x) ps;
      reviver name (VObj ps')
  | _ => reviver name v
  end.

(** [JSON.parse (text, reviver)]: a [SyntaxError] for a text that is
    not JSON; otherwise the value read, revived from the root. *)
Definition parse (text : string) (reviver : string -> value -> result value)
  : result value :=
  match parse_text text with
  | Some v => internalize reviver "" v
  | None => Throw SyntaxError
  end.

End JSON.

(** ** The host *)

(** What the program takes from where it runs.
    - [utcOffset]: the local time zone, in minutes east of UTC.
    - [now]: the clock, [Date.now ()].
    - [ll]: the locale's short date, the [ll] of [dayjs ().format ('ll')],
      of a year, a month (from 0) and a day of the month.
    - [otherDate]: the date dayjs makes of a value that is not a text in
      the full UTC form of the ECMAScript format: a text in another
      form (read by dayjs in local time, or by the engine's own rules),
      a number, and an array or an object that has a primitive value (see
      [no_primitive] for those that have none).
    - [toString]: [ToString] of a value that is not a string. *)
Record Host : Type := {
  utcOffset : Z;
  now : Z;
  ll : Z -> Z -> Z -> string;
  otherDate : value -> Date;
  toString : value -> string;
}.

(** ** dayjs: from a stored value to a [Date] *)

(** A value with no primitive value: [new Date (v)], where dayjs hands
    an array or an object to, asks [ToPrimitive] for one and gets a
    [TypeError]. Of the values [JSON.parse] builds, such is an object with
    an own property [toString] (its value is no function, and
    [Object.prototype.valueOf] returns the object), and an array holding
    such a value at any depth of arrays (its [toString] joins the strings of
    its elements). Any other object is ["[object Object]"]. *)
Fixpoint no_primitive (v : value) : bool :=
  match v with
  | VObj ps => bool_decide ("toString" ∈ map fst ps)
  | VArr l => existsb no_primitive l
  | _ => false
  end.

(** The date [dayjs (v).toDate ()] returns, when it returns. dayjs holds
    [null] for invalid, copies a [Date], and hands a text that ends in [Z]
    to the [Date] constructor; a text in the full UTC form has one reading
    (see [ISO.parse_iso]). *)
Definition dayjs_toDate (h : Host) (v : value) : Date :=
  match v with
  | VNull => InvalidDate
  | VDate d => d
  | VStr s =>
      match ISO.parse_iso s with
      | Some t => DateAt t
      | None => otherDate h v
      end
  | _ => otherDate h v
  end.

(** The call [dayjs (v).toDate ()]: a [TypeError] for a value with no
    primitive value, the date above for any other. *)
Definition dayjs_toDate_call (h : Host) (v : value) : result Date :=
  if no_primitive v then Throw TypeError else Ok (dayjs_toDate h v).

(** ** Records: [src/state/ducks/records/types.ts] *)

(** [DailyRecord]. *)
Record DailyRecord : Type := {
  starts : list Date;
  stops : list Date;
  memos : list string;
}.

(** [Records]: the word [Records] below abbreviates the map from record
    key to [DailyRecord]. *)
Abbreviation Records := (gmap string DailyRecord).

(** [RecordsState]. *)
Record RecordsState : Type := { records : Records }.

(** The JavaScript value of a [DailyRecord]. *)
Definition DailyRecord_value (r : DailyRecord) : value :=
  VObj [("starts", VArr (map VDate (starts r)));
        ("stops", VArr (map VDate (stops r)));
        ("memos", VArr (map VStr (memos r)))].

(** The JavaScript value of a [Records] object. *)
Definition Records_value (R : Records) : value :=
  VObj (map (fun kr => (fst kr, DailyRecord_value (snd kr))) (map_to_list R)).

Definition RecordsState_value (st : RecordsState) : value :=
  VObj [("records", Records_value (records st))].

(** ** The persistence transform: [src/state/store.ts] *)

Module Store.

(** The reviver handed to [JSON.parse]:
    [key === 'starts' || key === 'stops'
       ? value.map (v => dayjs (v).toDate ()) : value].
    A value without a [map] method makes the call a [TypeError]; so
    does the first element dayjs cannot take. *)
Definition reviver (h : Host) (key : string) (v : value) : result value :=
  if decide (key = "starts" \/ key = "stops") then
    match v with
    | VArr l =>
        l' ← JSON.walk_elems (fun _ x => VDate <$> dayjs_toDate_call h x) O l;
        Ok (VArr l')
    | _ => Throw TypeError
    end
  else Ok v.

(** [outboundState as string]: a string as it is, anything else through
    [ToString]. *)
Definition as_string (h : Host) (v : value) : string :=
  match v with
  | VStr s => s
  | _ => toString h v
  end.

(** The inbound function of [setTransform]. *)
Definition inbound (inboundState : value) (key : string) : value :=
  if decide (key = "records") then VStr (JSON.stringify inboundState)
  else inboundState.

(** The outbound function of [setTransform]. *)
Definition outbound (h : Host) (outboundState : value) (key : string)
  : result value :=
  if decide (key <> "records") then Ok outboundState
  else JSON.parse (as_string h outboundState) (reviver h).

(** A redux-persist transform. *)
Record Transform : Type := {
  transform_in : value -> string -> value;
  transform_out : value -> string -> result value;
}.

(** redux-persist's [createTransform]: a key on the blacklist passes
    through both ways. *)
Definition createTransform (inb : value -> string -> value)
    (outb : value -> string -> result value) (blacklist : list string)
  : Transform :=
  {| transform_in := fun state key =>
       if decide (key ∈ blacklist) then state else inb state key;
     transform_out := fun state key =>
       if decide (key ∈ blacklist) then Ok state else outb state key |}.

Definition setTransform (h : Host) : Transform :=
  createTransform inbound (outbound h) ["recordsReducer"].

(** What is stored for the [records] slice, and what is loaded from it. *)
Definition serialize (h : Host) (state : value) : value :=
  transform_in (setTransform h) state "records".

Definition deserialize (h : Host) (stored : value) : result value :=
  transform_out (setTransform h) stored "records".

End Store.

(** ** dayjs: local time, formats and setters *)

Module Dayjs.
Import Calendar Text.

(** Local time is UTC moved by the zone's offset. *)
Definition LocalTime (h : Host) (t : Z) : Z := t + utcOffset h * msPerMinute.
Definition UTC (h : Host) (t : Z) : Z := t - utcOffset h * msPerMinute.

(** The fields a [Dayjs] keeps of a valid date: [$y], [$M] (from 0),
    [$D], [$H], [$m]. *)
Definition year (h : Host) (t : Z) : Z := YearFromTime (LocalTime h t).
Definition month (h : Host) (t : Z) : Z := MonthFromTime (LocalTime h t).
Definition date (h : Host) (t : Z) : Z := DateFromTime (LocalTime h t).
Definition hour (h : Host) (t : Z) : Z := HourFromTime (LocalTime h t).
Definition minute (h : Host) (t : Z) : Z := MinFromTime (LocalTime h t).

Definition INVALID_DATE_STRING : string := "Invalid Date".

(** [dayjs (d).format ('YYYYMMDD')]. The year is written as the number it
    is ([YYYY: this.$y], the dayjs 1.9 of [package.json]): its four digits
    for a year from 1000 to 9999, which every version of dayjs writes the
    same. The other fields are padded to two digits. *)
Definition format_YYYYMMDD (h : Host) (d : Date) : string :=
  match d with
  | DateAt t => pretty (year h t) +:+ pad 2 (month h t + 1) +:+ pad 2 (date h t)
  | InvalidDate => INVALID_DATE_STRING
  end.

(** [dayjs (d).format ('YYYY-MM-DD')]. *)
Definition format_YYYY_MM_DD (h : Host) (d : Date) : string :=
  match d with
  | DateAt t =>
      pretty (year h t) +:+ "-" +:+ pad 2 (month h t + 1) +:+ "-"
      +:+ pad 2 (date h t)
  | InvalidDate => INVALID_DATE_STRING
  end.

(** [dayjs (d).format ('HH:mm')]. *)
Definition format_HHmm (h : Host) (d : Date) : string :=
  match d with
  | DateAt t => pad 2 (hour h t) +:+ ":" +:+ pad 2 (minute h t)
  | InvalidDate => INVALID_DATE_STRING
  end.

(** [dayjs (d).format ('ll')]: the locale's short date. *)
Definition format_ll (h : Host) (d : Date) : string :=
  match d with
  | DateAt t => ll h (year h t) (month h t) (date h t)
  | InvalidDate => INVALID_DATE_STRING
  end.

(** [set ('date', n)], through [Date.prototype.setDate]. *)
Definition set_date (h : Host) (d : Date) (n : Z) : Date :=
  match d with
  | DateAt t =>
      let l := LocalTime h t in
      DateAt (UTC h (MakeDate (MakeDay (YearFromTime l) (MonthFromTime l) n)
                       (TimeWithinDay l)))
  | InvalidDate => InvalidDate
  end.

(** [hour (n)], through [Date.prototype.setHours]: [n] is any number,
    and a time value out of range makes the invalid date. *)
Definition set_hour (h : Host) (d : Date) (n : Z) : Date :=
  match d with
  | DateAt t =>
      let l := LocalTime h t in
      TimeClip (UTC h (MakeDate (Day l)
                         (MakeTime n (MinFromTime l) (SecFromTime l) (msFromTime l))))
  | InvalidDate => InvalidDate
  end.

(** [minute (n)], through [Date.prototype.setMinutes], likewise. *)
Definition set_minute (h : Host) (d : Date) (n : Z) : Date :=
  match d with
  | DateAt t =>
      let l := LocalTime h t in
      TimeClip (UTC h (MakeDate (Day l)
                         (MakeTime (HourFromTime l) n (SecFromTime l) (msFromTime l))))
  | InvalidDate => InvalidDate
  end.

(** [endOf ('date')]: [setHours (23, 59, 59, 999)]. *)
Definition endOf_date (h : Host) (d : Date) : Date :=
  match d with
  | DateAt t =>
      DateAt (UTC h (MakeDate (Day (LocalTime h t)) (MakeTime 23 59 59 999)))
  | InvalidDate => InvalidDate
  end.

(** [endOf ('month')]: [new Date ($y, $M + 1, 0)], the day before the
    first of the next month, then [endOf ('date')]. The year goes through
    the [Date] constructor: a year from 0 to 99 comes back as one of the
    1900s. *)
Definition endOf_month (h : Host) (d : Date) : Date :=
  match d with
  | DateAt t =>
      endOf_date h
        (DateAt (UTC h (MakeDate (MakeDay (MakeFullYear (year h t)) (month h t + 1) 0)
                          (MakeTime 0 0 0 0))))
  | InvalidDate => InvalidDate
  end.

(** [daysInMonth ()]: [endOf ('month').$D]; [NaN] ([None]) for the invalid
    date. *)
Definition daysInMonth (h : Host) (d : Date) : option Z :=
  match endOf_month h d with
  | DateAt t => Some (date h t)
  | InvalidDate => None
  end.

(** [new Date (year, month, date)]: local midnight of the day made of the
    three numbers, months and dates beyond their range carried on; a year
    from 0 to 99 stands for 1900 and that many. *)
Definition new_Date (h : Host) (year month date : Z) : Date :=
  let yr := if decide (0 <= year <= 99) then 1900 + year else year in
  TimeClip (UTC h (MakeDate (MakeDay yr month date) (MakeTime 0 0 0 0))).

(** [day ()]: the day of the week, [$W]. *)
Definition day (h : Host) (t : Z) : Z := WeekDay (LocalTime h t).

(** [set ('month', n)]: on a copy set to the first of the month,
    [Date.prototype.setMonth]; then the date of the original, or the last
    date of the new month if that comes first. *)
Definition set_month (h : Host) (d : Date) (n : Z) : Date :=
  match d, set_date h d 1 with
  | DateAt t, DateAt t1 =>
      let l := LocalTime h t1 in
      let moved :=
        DateAt (UTC h (MakeDate (MakeDay (YearFromTime l) n (DateFromTime l))
                         (TimeWithinDay l))) in
      match daysInMonth h moved with
      | Some k => set_date h moved (Z.min (date h t) k)
      | None => InvalidDate
      end
  | _, _ => InvalidDate
  end.

(** [add (n, 'month')]: [set ('month', $M + n)]. *)
Definition add_month (h : Host) (d : Date) (n : Z) : Date :=
  match d with
  | DateAt t => set_month h d (month h t + n)
  | InvalidDate => InvalidDate
  end.

(** [add (n, 'day')]: [date ($D + n)]. *)
Definition add_day (h : Host) (d : Date) (n : Z) : Date :=
  match d with
  | DateAt t => set_date h d (date h t + n)
  | InvalidDate => InvalidDate
  end.

(** [startOf ('date')]: [setHours (0, 0, 0, 0)]. *)
Definition startOf_date (h : Host) (d : Date) : Date :=
  match d with
  | DateAt t => DateAt (UTC h (MakeDate (Day (LocalTime h t)) (MakeTime 0 0 0 0)))
  | InvalidDate => InvalidDate
  end.

(** [a.diff (b, 'm')]: the minutes from [b] to [a], the fraction dropped
    (towards zero); [NaN] ([None]) when a date is invalid. *)
Definition diff_minutes (a b : Date) : option Z :=
  match a, b with
  | DateAt ta, DateAt tb => Some (Z.quot (ta - tb) msPerMinute)
  | _, _ => None
  end.

(** [format ('/YYYY/M')]: the year and the month number, as numbers. *)
Definition format_path_YYYY_M (h : Host) (d : Date) : string :=
  match d with
  | DateAt t => "/" +:+ pretty (year h t) +:+ "/" +:+ pretty (month h t + 1)
  | InvalidDate => INVALID_DATE_STRING
  end.

(** [format ('/YYYY/M/D')]: the year, the month number and the date, as
    numbers. *)
Definition format_path_YYYY_M_D (h : Host) (d : Date) : string :=
  match d with
  | DateAt t =>
      "/" +:+ pretty (year h t) +:+ "/" +:+ pretty (month h t + 1)
      +:+ "/" +:+ pretty (date h t)
  | InvalidDate => INVALID_DATE_STRING
  end.

End Dayjs.

(** [makeRecordKey]: [dayjs (date).format ('YYYYMMDD')]. *)
Definition makeRecordKey (h : Host) (date : Date) : string :=
  Dayjs.format_YYYYMMDD h date.

(** ** The latest session of a day *)

(** [LatestSession]; [None] stands for [null]. *)
Record LatestSession : Type := {
  start : option Date;
  stop : option Date;
  memo : string;
  breakTimeLengthMin : option Z;
}.

(** Modelled from the spec: [getLatestOf] of [src/state/ducks/records]
    (the spec's [deriveLatest], section 4.1), whose source is not among
    the files at hand; only its calls are.
    - No record: no start, no stop, an empty memo, the default break
      length.
    - Otherwise the start is the last of [starts]; the stop is the last of
      [stops], only when there are at least as many stops as starts, and
      never when [starts] is empty (the edge case of 4.1); the memo is the
      last of [memos], or empty.
    - A [DailyRecord] stores no break length of its own
      ([records/types.ts]), so the break length is the default. *)
Definition getLatestOf (record : option DailyRecord)
    (defaultBreakTimeLength : option Z) : LatestSession :=
  match record with
  | None =>
      {| start := None; stop := None; memo := "";
         breakTimeLengthMin := defaultBreakTimeLength |}
  | Some r =>
      {| start := last (starts r);
         stop :=
           match starts r with
           | [] => None
           | _ :: _ =>
               if (length (starts r) <=? length (stops r))%nat
               then last (stops r) else None
           end;
         memo := default "" (last (memos r));
         breakTimeLengthMin := defaultBreakTimeLength |}
  end.

(** ** The month exporters *)

Module Exporters.
Import Text.

(** [getDaysInMonth]: one [Dayjs] per day of the month of [month],
    [Array.from (Array (month.daysInMonth ()),
                 (_, i) => dayjs (month).set ('date', i + 1))].
    [Array (NaN)] is a [RangeError]. This is the function of the 'List'
    page; the CSV exporter takes the function of that name from
    [implementations/utilities], taken here to be the same: the days of
    the month in ascending order. *)
Definition getDaysInMonth (h : Host) (month : Date) : result (list Date) :=
  match Dayjs.daysInMonth h month with
  | Some n =>
      Ok (map (fun i => Dayjs.set_date h month (Z.of_nat i + 1))
            (seq 0 (Z.to_nat n)))
  | None => Throw RangeError
  end.

(** [`"${column}"`]: one pair of double quotes around the raw text. *)
Definition wrap (column : string) : string :=
  String JSON.dquote (column +:+ String JSON.dquote "").

(** [columns.map (column => `"${column}"`).join (',')]. *)
Definition row (columns : list string) : string :=
  join "," (map wrap columns).

(** [records[key]] when [records] has the own property [key]. *)
Definition record_of (h : Host) (records : Records) (date : Date)
  : option DailyRecord :=
  records !! makeRecordKey h date.

Definition time_column (h : Host) (d : option Date) : string :=
  match d with
  | Some d => Dayjs.format_HHmm h d
  | None => ""
  end.

(** [dayjs ().hour (Math.floor (b / 60)).minute (b % 60).format ('HH:mm')];
    [%] is the remainder of the truncated division. *)
Definition breakTimeLength_text (h : Host) (b : Z) : string :=
  Dayjs.format_HHmm h
    (Dayjs.set_minute h (Dayjs.set_hour h (DateAt (now h)) (b / 60)) (Z.rem b 60)).

(** The break length column of the CSV exporter. *)
Definition breakTimeLength_column (h : Host) (latest : LatestSession) : string :=
  match breakTimeLengthMin latest, start latest, stop latest with
  | Some b, Some _, Some _ => breakTimeLength_text h b
  | _, _, _ => ""
  end.

(** The five columns of a day, [src/implementations/formatter.ts]. *)
Definition csv_columns (h : Host) (records : Records)
    (defaultBreakTimeLength : option Z) (date : Date) : list string :=
  let latest := getLatestOf (record_of h records date) defaultBreakTimeLength in
  [Dayjs.format_YYYY_MM_DD h date;
   time_column h (start latest);
   time_column h (stop latest);
   memo latest;
   breakTimeLength_column h latest].

(** [formatSpecifiedMonthRecordsAsCsvForMail]. *)
Definition formatSpecifiedMonthRecordsAsCsvForMail (h : Host)
    (firstDayOfMonth : Date) (records : Records)
    (defaultBreakTimeLength : option Z) : result (list string) :=
  days ← getDaysInMonth h firstDayOfMonth;
  Ok (map (fun date => row (csv_columns h records defaultBreakTimeLength date)) days).

(** The four columns of a day in [createMailToUri]; [getLatestOf] is
    called with no default break length. *)
Definition mail_columns (h : Host) (records : Records) (date : Date)
  : list string :=
  let latest := getLatestOf (record_of h records date) None in
  [Dayjs.format_YYYY_MM_DD h date;
   time_column h (start latest);
   time_column h (stop latest);
   memo latest].

(** The body lines of [createMailToUri]. *)
Definition bodyLines (h : Host) (firstDayOfMonth : Date) (records : Records)
  : result (list string) :=
  days ← getDaysInMonth h firstDayOfMonth;
  Ok (map (fun date => row (mail_columns h records date)) days).

(** The characters [encodeURIComponent] leaves as they are: letters,
    digits and [- _ . ! ~ * ' ( )]. *)
Definition unreserved (c : ascii) : bool :=
  let n := JSON.code c in
  ((65 <=? n) && (n <=? 90)) || ((97 <=? n) && (n <=? 122))
  || ((48 <=? n) && (n <=? 57))
  || (n =? 45) || (n =? 95) || (n =? 46) || (n =? 33) || (n =? 126)
  || (n =? 42) || (n =? 39) || (n =? 40) || (n =? 41).

Definition HEX_digit (d : Z) : ascii :=
  if d <? 10 then JSON.char_of (48 + d) else JSON.char_of (55 + d).

Definition encode_byte (c : ascii) : string :=
  if unreserved c then String c ""
  else
    let n := JSON.code c in
    String "%" (String (HEX_digit (n / 16)) (String (HEX_digit (n mod 16)) "")).

(** [encodeURIComponent]: every byte of the UTF-8 form that is not
    unreserved becomes [%XX]. *)
Fixpoint encodeURIComponent (s : string) : string :=
  match s with
  | EmptyString => ""
  | String c s' => encode_byte c +:+ encodeURIComponent s'
  end.

(** The line break of the mail body, [\r\n]. *)
Definition CRLF : string := String (JSON.char_of 13) (String (JSON.char_of 10) "").

(** The subject of the mail: the first and the last day of the month in
    the locale's short date format. *)
Definition subject (h : Host) (firstDayOfMonth : Date) : string :=
  Dayjs.format_ll h firstDayOfMonth +:+ " - "
  +:+ Dayjs.format_ll h (Dayjs.endOf_month h firstDayOfMonth).

(** [createMailToUri]. *)
Definition createMailToUri (h : Host) (firstDayOfMonth : Date)
    (records : Records) (mailAddress : string) : result string :=
  lines ← bodyLines h firstDayOfMonth records;
  let hfieldsMap :=
    [("subject", subject h firstDayOfMonth);
     ("body", join CRLF lines)] in
  let hfields :=
    map (fun kv => fst kv +:+ "=" +:+ encodeURIComponent (snd kv)) hfieldsMap in
  Ok ("mailto:" +:+ encodeURIComponent mailAddress +:+ "?" +:+ join "&" hfields).

End Exporters.

(** ** The 'List' page *)

Module ListPage.

(** [new Date (+year, +month - 1, 1)] of the 'List' component. [year] and
    [month] are the numbers [+year] and [+month] of the route parameters,
    [None] for a parameter that is not a number ([NaN]). *)
Definition firstDayOfMonth (h : Host) (year month : option Z) : Date :=
  match year, month with
  | Some y, Some m => Dayjs.new_Date h y (m - 1) 1
  | _, _ => InvalidDate
  end.

(** The links of the 'MonthHeading' component:
    [target.add (-1, 'month').format ('/YYYY/M')], and the same with
    [add (1, 'month')]. *)
Definition MonthHeading_prev (h : Host) (target : Date) : string :=
  Dayjs.format_path_YYYY_M h (Dayjs.add_month h target (-1)).

Definition MonthHeading_next (h : Host) (target : Date) : string :=
  Dayjs.format_path_YYYY_M h (Dayjs.add_month h target 1).

(** [dayKind] of a row of the 'DateList' component: ['sunday'] when
    [date.day () === 0], ['saturday'] when it is 6, [''] otherwise. *)
Definition dayKind (h : Host) (date : Date) : string :=
  match date with
  | DateAt t =>
      if Dayjs.day h t =? 0 then "sunday"
      else if Dayjs.day h t =? 6 then "saturday"
      else ""
  | InvalidDate => ""
  end.

(** The path a row of the 'DateList' component leads to:
    [date.format ('/YYYY/M/D')]. *)
Definition DateList_path (h : Host) (date : Date) : string :=
  Dayjs.format_path_YYYY_M_D h date.

End ListPage.

(** ** The 'CurrentState' page *)

Module CurrentStatePage.

(** [disabled] of the text field of the 'MemoTextField' component:
    [tomorrow.diff (dj, 'm') < 5], with [dj = dayjs (props.time)] and
    [tomorrow = dj.startOf ('date').add (1, 'day')]. A comparison with
    [NaN] is false. *)
Definition MemoTextField_disabled (h : Host) (time : Date) : bool :=
  let dj := time in
  let tomorrow := Dayjs.add_day h (Dayjs.startOf_date h dj) 1 in
  match Dayjs.diff_minutes tomorrow dj with
  | Some n => n <? 5
  | None => false
  end.

(** The path the date of the 'CurrentState' component leads to:
    [dj.format ('/YYYY/M/D')], with [dj = dayjs (time)]. *)
Definition handleClick_path (h : Host) (time : Date) : string :=
  Dayjs.format_path_YYYY_M_D h time.

End CurrentStatePage.

(** * Notions of the statements *)

(** ** Percent-encoding, as ECMAScript states it *)

(** The character [c] is one of the text [s]. *)
Fixpoint occurs (c : ascii) (s : string) : bool :=
  match s with
  | EmptyString => false
  | String c' s' => bool_decide (c = c') || occurs c s'
  end.

(** The characters [encodeURIComponent] leaves as they are: the letters,
    the digits and the nine marks. *)
Definition uri_unescaped : string :=
  "ABCDEFGHIJKLMNOPQRSTUVWXYZabcdefghijklmnopqrstuvwxyz0123456789-_.!~*'()".

Definition HEX_digits : string := "0123456789ABCDEF".

Definition nth_char (s : string) (n : Z) : ascii :=
  default "0"%char (String.get (Z.to_nat n) s).

(** [%XX]: the value of the byte in two hexadecimal digits, upper case. *)
Definition percent_escape (c : ascii) : string :=
  let n := Z.of_N (N_of_ascii c) in
  String "%" (String (nth_char HEX_digits (n / 16))
                (String (nth_char HEX_digits (n mod 16)) "")).

(** A text percent-encoded: every byte that is not left as it is becomes
    its escape. *)
Fixpoint percent_encoded (s : string) : string :=
  match s with
  | EmptyString => ""
  | String c s' =>
      (if occurs c uri_unescaped then String c "" else percent_escape c)
      +:+ percent_encoded s'
  end.

(** ** Reading the exports back *)

Module Readers.
Import Text.

(** [decodeURIComponent], on bytes: [%XX] is the byte [XX]. *)
Fixpoint decodeURIComponent (s : string) : option string :=
  match s with
  | EmptyString => Some ""
  | String c r =>
      if decide (c = "%"%char) then
        match r with
        | String a (String b r') =>
            x ← JSON.hex_value a; y ← JSON.hex_value b;
            rest ← decodeURIComponent r';
            Some (String (JSON.char_of (x * 16 + y)) rest)
        | _ => None
        end
      else rest ← decodeURIComponent r; Some (String c rest)
  end.

(** A character that stands for itself in a URI component, or takes part
    in a [%XX] escape. *)
Definition uri_safe (c : ascii) : bool :=
  occurs c uri_unescaped || bool_decide (c = "%"%char).

(** The quoted field of RFC 4180: double quotes around the text, each
    double quote of the text doubled. *)
Fixpoint double_quotes (s : string) : string :=
  match s with
  | EmptyString => ""
  | String c s' =>
      if decide (c = JSON.dquote)
      then String JSON.dquote (String JSON.dquote (double_quotes s'))
      else String c (double_quotes s')
  end.

Definition quoted_field (s : string) : string :=
  String JSON.dquote (double_quotes s +:+ String JSON.dquote "").

(** A quoted field after its opening quote: the text, and what follows
    the closing quote. *)
Fixpoint field_body (s : string) : option (string * string) :=
  match s with
  | EmptyString => None
  | String c r =>
      if decide (c = JSON.dquote) then
        match r with
        | String c' r' =>
            if decide (c' = JSON.dquote) then
              '(f, rest) ← field_body r'; Some (String JSON.dquote f, rest)
            else Some ("", r)
        | EmptyString => Some ("", r)
        end
      else '(f, rest) ← field_body r; Some (String c f, rest)
  end.

(** The quoted fields of a record, separated by commas, to the end of the
    text. A field spends one unit of [fuel]. *)
Fixpoint read_fields (fuel : nat) (s : string) : option (list string) :=
  match fuel with
  | O => None
  | S fuel =>
      match s with
      | String c r =>
          if decide (c = JSON.dquote) then
            '(f, rest) ← field_body r;
            match rest with
            | EmptyString => Some [f]
            | String c' rest' =>
                if decide (c' = ","%char)
                then fs ← read_fields fuel rest'; Some (f :: fs)
                else None
            end
          else None
      | EmptyString => None
      end
  end.

(** A record of quoted fields; [None] for a text that is not one. *)
Definition read_record (s : string) : option (list string) :=
  read_fields (String.length s) s.

(** The number of double quotes in a text. *)
Fixpoint dquotes (s : string) : nat :=
  match s with
  | EmptyString => O
  | String c s' => ((if decide (c = JSON.dquote) then 1 else 0) + dquotes s')%nat
  end.

Definition has_dquote (s : string) : Prop := (0 < dquotes s)%nat.

End Readers.

(** ** Stored records, as text only *)

(** A day as the blob holds it: every timestamp is a string. *)
Record StoredDailyRecord : Type := {
  stored_starts : list string;
  stored_stops : list string;
  stored_memos : list string;
}.

Definition StoredDailyRecord_value (s : StoredDailyRecord) : value :=
  VObj [("starts", VArr (map VStr (stored_starts s)));
        ("stops", VArr (map VStr (stored_stops s)));
        ("memos", VArr (map VStr (stored_memos s)))].

(** The stored form of a [Records] object: days by key, in the order of
    the text. *)
Definition Stored_value (es : list (string * StoredDailyRecord)) : value :=
  VObj (map (fun e => (fst e, StoredDailyRecord_value (snd e))) es).

(** What loading makes of a stored day: the strings of [starts] and [stops]
    through dayjs, the memos as they are. *)
Definition rehydrate (h : Host) (s : StoredDailyRecord) : DailyRecord :=
  {| starts := map (fun x => dayjs_toDate h (VStr x)) (stored_starts s);
     stops := map (fun x => dayjs_toDate h (VStr x)) (stored_stops s);
     memos := stored_memos s |}.

Definition Loaded_value (h : Host) (es : list (string * StoredDailyRecord))
  : value :=
  VObj (map (fun e => (fst e, DailyRecord_value (rehydrate h (snd e)))) es).

(** What the transform is given: the [Records] object itself, or the
    slice [{ records: ... }] of the store that holds it. *)
Inductive shape : Set := Bare | Slice.

Definition shaped (sh : shape) (v : value) : value :=
  match sh with
  | Bare => v
  | Slice => VObj [("records", v)]
  end.

(** ** Shapes of values, of texts and of days *)

(** The value [JSON.parse] reads from what [JSON.stringify] wrote: a date
    has become its ISO text, or [null] when invalid. *)
Fixpoint json_of (v : value) : value :=
  match v with
  | VDate d =>
      match ISO.toJSON d with
      | Some s => VStr s
      | None => VNull
      end
  | VArr l => VArr (map json_of l)
  | VObj ps => VObj (map (fun kv => (fst kv, json_of (snd kv))) ps)
  | _ => v
  end.

(** Values whose text is read back exactly: no number literal (the model
    keeps a literal unread), and distinct keys in every object. *)
Inductive storable : value -> Prop :=
| storable_null : storable VNull
| storable_bool (b : bool) : storable (VBool b)
| storable_str (s : string) : storable (VStr s)
| storable_date (d : Date) : storable (VDate d)
| storable_arr (l : list value) :
    Forall storable l -> storable (VArr l)
| storable_obj (ps : list (string * value)) :
    NoDup (map fst ps) ->
    Forall (fun kv => storable (snd kv)) ps -> storable (VObj ps).

(** The fuel reading a value takes. *)
Fixpoint size (v : value) : nat :=
  match v with
  | VArr l => S (list_sum (map (fun x => S (size x)) l))
  | VObj ps => S (list_sum (map (fun kv => S (size (snd kv))) ps))
  | _ => 1
  end.

(** The first character of a written value tells which value follows. *)
Definition opens_value (c : ascii) : Prop :=
  c = "n"%char \/ c = "t"%char \/ c = "f"%char \/ c = JSON.dquote
  \/ c = "["%char \/ c = "{"%char.

(** The text of one property. *)
Definition member (kv : string * value) : string :=
  JSON.quote (fst kv) +:+ ":" +:+ JSON.stringify (snd kv).

(** The text starts with a decimal digit. *)
Definition head_digit (s : string) : Prop :=
  match s with
  | String c _ => is_Some (Text.digit_value c)
  | EmptyString => False
  end.

(** A property name that the reviver leaves alone. *)
Definition not_date_field (k : string) : Prop := k <> "starts" /\ k <> "stops".

(** Neither array nor object: revived with no inner step. *)
Definition scalar (v : value) : Prop :=
  match v with
  | VArr _ | VObj _ => False
  | _ => True
  end.

(** The stored shape of one day: three arrays of scalars. *)
Definition daily_tree (a b c : list value) : value :=
  VObj [("starts", VArr a); ("stops", VArr b); ("memos", VArr c)].

Definition to_dates (h : Host) (l : list value) : list value :=
  map (fun x => VDate (dayjs_toDate h x)) l.

(** The stored shape of a [Records] object. *)
Definition records_tree (es : list (string * (list value * list value * list value)))
  : value :=
  VObj (map (fun e => (fst e, daily_tree (snd e).1.1 (snd e).1.2 (snd e).2)) es).

Definition entry_ok (e : string * (list value * list value * list value)) : Prop :=
  not_date_field (fst e) /\ Forall scalar (snd e).1.1
  /\ Forall scalar (snd e).1.2 /\ Forall scalar (snd e).2.

Definition rehydrated (h : Host)
    (e : string * (list value * list value * list value))
  : string * (list value * list value * list value) :=
  (fst e, (to_dates h (snd e).1.1, to_dates h (snd e).1.2, (snd e).2)).

(** The written form of a day, as three arrays of scalars. *)
Definition entry_of (kr : string * DailyRecord)
  : string * (list value * list value * list value) :=
  (fst kr, (map json_of (map VDate (starts (snd kr))),
            map json_of (map VDate (stops (snd kr))),
            map VStr (memos (snd kr)))).

Definition Records_list_value (l : list (string * DailyRecord)) : value :=
  VObj (map (fun kr => (fst kr, DailyRecord_value (snd kr))) l).

(** The keys and the dates the round trip needs of one day. *)
Definition day_ok (kr : string * DailyRecord) : Prop :=
  not_date_field (fst kr) /\ Forall Date_in_range (starts (snd kr))
  /\ Forall Date_in_range (stops (snd kr)).

(** The stored form of a day, as three arrays of scalars. *)
Definition stored_entry (e : string * StoredDailyRecord)
  : string * (list value * list value * list value) :=
  (fst e, (map VStr (stored_starts (snd e)), map VStr (stored_stops (snd e)),
           map VStr (stored_memos (snd e)))).

(** The number of days dayjs counts in the month of a valid date: those
    of the month of the year the [Date] constructor makes of the year. *)
Definition month_length (h : Host) (t : Z) : Z :=
  Calendar.DaysInMonth (Calendar.MakeFullYear (Dayjs.year h t)) (Dayjs.month h t).

(** The days of the month of a valid date. *)
Definition days_of (h : Host) (t : Z) : list Date :=
  map (fun i => Dayjs.set_date h (DateAt t) (Z.of_nat i + 1))
    (seq 0 (Z.to_nat (month_length h t))).

(** The clock is [x] minutes and five days or more inside the range of
    dates: setting its hour and its minute to the hours and the minutes of
    [x] keeps it in the range. *)
Definition clock_room (h : Host) (x : Z) : Prop :=
  - Calendar.maxTime + (Z.abs x + 7200) * Calendar.msPerMinute <= now h
  <= Calendar.maxTime - (Z.abs x + 7200) * Calendar.msPerMinute.

(** A text between two double quotes. *)
Definition in_quotes (s : string) : string :=
  String "034"%char (s +:+ String "034"%char "").

(** A time of day as [HH:mm]. *)
Definition is_HHmm (s : string) : Prop :=
  exists hh mm, 0 <= hh < 24 /\ 0 <= mm < 60 /\ s = Text.pad 2 hh +:+ ":" +:+ Text.pad 2 mm.

(** A time column: empty, or [HH:mm]. *)
Definition HHmm_or_empty (s : string) : Prop := s = "" \/ is_HHmm s.

(** The text of a time column for a date or none: empty for none, the
    two digits of the local hour, a colon and the two digits of the minute
    for a valid date, and the words dayjs has for the invalid date. *)
Definition time_text (h : Host) (d : option Date) (s : string) : Prop :=
  match d with
  | None => s = ""
  | Some (DateAt t) =>
      s = Text.pad 2 (Dayjs.hour h t) +:+ ":" +:+ Text.pad 2 (Dayjs.minute h t)
      /\ is_HHmm s
  | Some InvalidDate => s = "Invalid Date"
  end.

(** Every character of a text passes [p]. *)
Fixpoint all_chars (p : ascii -> bool) (s : string) : bool :=
  match s with
  | EmptyString => true
  | String c s' => p c && all_chars p s'
  end.

(** What follows a field: nothing, or a character that is no quote. *)
Definition ends_field (rest : string) : Prop :=
  match rest with
  | EmptyString => True
  | String c _ => c <> JSON.dquote
  end.

(** The text of a record of properly quoted fields. *)
Definition quoted_record (cols : list string) : string :=
  Text.join "," (map Readers.quoted_field cols).

(** What the round trip needs of a [Records] object: no key is [starts] or
    [stops] (the keys [makeRecordKey] makes are not), and every time value
    is in the range of a [Date]. *)
Definition Records_wf (R : Records) : Prop :=
  map_Forall (fun k r => not_date_field k
                         /\ Forall Date_in_range (starts r)
                         /\ Forall Date_in_range (stops r)) R.

(** An array, the one kind of value with a [map] to call. *)
Definition is_array (v : value) : bool :=
  match v with
  | VArr _ => true
  | _ => false
  end.

(** A property name the reviver acts on. *)
Definition date_key (k : string) : bool :=
  bool_decide (k = "starts" \/ k = "stops").

(** Every property named [starts] or [stops], at any depth, holds an
    array. *)
Fixpoint date_fields_are_arrays (v : value) : bool :=
  match v with
  | VArr l => forallb date_fields_are_arrays l
  | VObj ps =>
      forallb (fun kv => (negb (date_key (fst kv)) || is_array (snd kv))
                         && date_fields_are_arrays (snd kv)) ps
  | _ => true
  end.

(** Every property named [starts] or [stops], at any depth, holds an
    array whose elements all have a primitive value. *)
Fixpoint date_fields_convert (v : value) : bool :=
  match v with
  | VArr l => forallb date_fields_convert l
  | VObj ps =>
      forallb (fun kv => (negb (date_key (fst kv))
                          || (is_array (snd kv) && negb (no_primitive (snd kv))))
                         && date_fields_convert (snd kv)) ps
  | _ => true
  end.

(** A string, a number, a boolean or [null]. *)
Definition is_primitive (v : value) : bool :=
  match v with
  | VNull | VBool _ | VNum _ | VStr _ => true
  | _ => false
  end.

(** An array of strings, numbers, booleans and [null]s. *)
Definition array_of_primitives (v : value) : bool :=
  match v with
  | VArr l => forallb is_primitive l
  | _ => false
  end.

(** Every property named [starts] or [stops], at any depth, holds an
    array of strings, numbers, booleans and [null]s. *)
Fixpoint date_fields_primitive (v : value) : bool :=
  match v with
  | VArr l => forallb date_fields_primitive l
  | VObj ps =>
      forallb (fun kv => (negb (date_key (fst kv)) || array_of_primitives (snd kv))
                         && date_fields_primitive (snd kv)) ps
  | _ => true
  end.

(** No property is named [starts] or [stops], at any depth. *)
Fixpoint no_date_key (v : value) : bool :=
  match v with
  | VArr l => forallb no_date_key l
  | VObj ps =>
      forallb (fun kv => negb (date_key (fst kv)) && no_date_key (snd kv)) ps
  | _ => true
  end.

(** A text in the form [Date.prototype.toISOString] writes. *)
Definition is_ISO (s : string) : Prop := is_Some (ISO.parse_iso s).

(** ** A host for the examples *)

Module Example.
Import Text.

Definition month_name (m : Z) : string :=
  match m with
  | 0 => "Jan" | 1 => "Feb" | 2 => "Mar" | 3 => "Apr" | 4 => "May"
  | 5 => "Jun" | 6 => "Jul" | 7 => "Aug" | 8 => "Sep" | 9 => "Oct"
  | 10 => "Nov" | _ => "Dec"
  end.

(** An English locale ([ll] is [MMM D, YYYY]) in the zone UTC+9, on a
    day of February 2024, with an engine that knows no other date text
    than the ECMAScript format. *)
Definition host : Host :=
  {| utcOffset := 540;
     now := 1707004800000;
     ll := fun y m d => month_name m +:+ " " +:+ pretty d +:+ ", " +:+ pretty y;
     otherDate := fun _ => InvalidDate;
     toString := fun _ => "[object Object]" |}.

(** A text with an apostrophe for each double quote. *)
Fixpoint dq (s : string) : string :=
  match s with
  | EmptyString => ""
  | String c s' =>
      String (if decide (c = "'"%char) then JSON.dquote else c) (dq s')
  end.

(** 1 February 2024, 00:00 in the zone of [host]. *)
Definition feb2024 : Date := DateAt 1706713200000.
(** 1 February 2023, 00:00 in the zone of [host]. *)
Definition feb2023 : Date := DateAt 1675177200000.

(** 2 February 2024 from 09:00 to 18:00 local time, with a memo. *)
Definition one_day (memo : string) : Records :=
  {[ "20240202" := {| starts := [DateAt 1706832000000];
                      stops := [DateAt 1706864400000];
                      memos := [memo] |} ]}.

End Example.

(** Another host: the zone UTC-5, a locale with no short date, and an
    engine that takes any other date text for the epoch. *)
Definition host_west : Host :=
  {| utcOffset := -300;
     now := 0;
     ll := fun _ _ _ => "";
     otherDate := fun _ => DateAt 0;
     toString := fun _ => "" |}.

(** * Facts *)

(** ** Calls that may throw *)

Lemma Ok_inj {A : Type} (a b : A) : Ok a = Ok b -> a = b.
Proof. by intros [= ->]. Qed.

(** ** Text *)

Module TextFacts.
Import Text.

Lemma app_cons (c : ascii) (s t : string) :
  String c s +:+ t = String c (s +:+ t).
Proof. reflexivity. Qed.

Lemma app_nil_l (t : string) : "" +:+ t = t.
Proof. reflexivity. Qed.

Lemma app_nil_r (s : string) : s +:+ "" = s.
Proof. induction s as [|c s IH]; [reflexivity|]. rewrite app_cons. by f_equal. Qed.

Lemma app_assoc (s t u : string) : (s +:+ t) +:+ u = s +:+ (t +:+ u).
Proof.
  induction s as [|c s IH]; [reflexivity|].
  rewrite !app_cons. by f_equal.
Qed.

Lemma length_app (s t : string) :
  String.length (s +:+ t) = (String.length s + String.length t)%nat.
Proof.
  induction s as [|c s IH]; [reflexivity|].
  rewrite app_cons. simpl. by rewrite IH.
Qed.

Lemma pad_S (w : nat) (n : Z) :
  pad (S w) n = String (digit (n / 10 ^ Z.of_nat w)) (pad w n).
Proof. reflexivity. Qed.

Lemma digit_value_digit (d : Z) : digit_value (digit d) = Some (d mod 10).
Proof.
  unfold digit, digit_value.
  assert (0 <= d mod 10 < 10) as Hd by (apply Z.mod_pos_bound; lia).
  rewrite nat_ascii_embedding by lia.
  replace (Z.of_nat (48 + Z.to_nat (d mod 10))) with (48 + d mod 10) by lia.
  destruct (Z.leb_spec 48 (48 + d mod 10)); [|lia].
  destruct (Z.leb_spec (48 + d mod 10) 57); [|lia].
  simpl. f_equal. lia.
Qed.

Lemma length_pad (w : nat) (n : Z) : String.length (pad w n) = w.
Proof.
  induction w as [|w IH]; [done|].
  rewrite pad_S. cbn [String.length]. by rewrite IH.
Qed.

Lemma read_digits_pad (w : nat) (acc n : Z) (rest : string) :
  read_digits w acc (pad w n +:+ rest)
  = Some (acc * 10 ^ Z.of_nat w + n mod 10 ^ Z.of_nat w, rest).
Proof.
  revert acc. induction w as [|w IH]; intros acc.
  - change (pad 0 n) with "". rewrite app_nil_l. cbn [read_digits].
    change (10 ^ Z.of_nat 0) with 1. rewrite Z.mod_1_r. do 2 f_equal. lia.
  - rewrite pad_S, app_cons. cbn [read_digits]. rewrite digit_value_digit, IH.
    do 2 f_equal.
    replace (Z.of_nat (S w)) with (Z.of_nat w + 1) by lia.
    rewrite Z.pow_add_r by lia. change (10 ^ 1) with 10.
    set (p := 10 ^ Z.of_nat w).
    assert (0 < p) as Hp by (apply Z.pow_pos_nonneg; lia).
    rewrite Z.rem_mul_r by lia. lia.
Qed.

Lemma read_digits_pad_small (w : nat) (n : Z) (rest : string) :
  0 <= n < 10 ^ Z.of_nat w ->
  read_digits w 0 (pad w n +:+ rest) = Some (n, rest).
Proof.
  intros Hn. rewrite read_digits_pad, Z.mod_small by done. by f_equal.
Qed.

End TextFacts.

(** ** The calendar *)

Module CalendarFacts.
Import Calendar.

Lemma YearFromDay_spec (d : Z) :
  DayFromYear (YearFromDay d) <= d < DayFromYear (YearFromDay d + 1).
Proof.
  unfold YearFromDay.
  set (y := 1970 + d * 400 / 146097).
  destruct (Z.ltb_spec d (DayFromYear y)) as [Hlt|Hge];
    [|destruct (Z.leb_spec (DayFromYear (y + 1)) d) as [Hle|Hgt]].
  - unfold DayFromYear in *. subst y. Z.div_mod_to_equations. lia.
  - unfold DayFromYear in *. subst y. Z.div_mod_to_equations. lia.
  - lia.
Qed.

Lemma DayFromYear_succ (y : Z) :
  DayFromYear (y + 1) = DayFromYear y + DaysInYear y.
Proof.
  unfold DayFromYear, DaysInYear, InLeapYear.
  destruct (Z.eqb_spec (y mod 4) 0), (Z.eqb_spec (y mod 100) 0),
    (Z.eqb_spec (y mod 400) 0); simpl; Z.div_mod_to_equations; lia.
Qed.

Lemma DayFromYear_mono (y y' : Z) : y <= y' -> DayFromYear y <= DayFromYear y'.
Proof. unfold DayFromYear. intros. Z.div_mod_to_equations. lia. Qed.

(** [YearFromDay] inverts [DayFromYear] on every day of the year. *)
Lemma YearFromDay_unique (y d : Z) :
  DayFromYear y <= d < DayFromYear (y + 1) -> YearFromDay d = y.
Proof.
  intros Hd. pose proof (YearFromDay_spec d) as Hs.
  destruct (Z.lt_trichotomy (YearFromDay d) y) as [Hlt|[Heq|Hgt]]; [|done|].
  - pose proof (DayFromYear_mono (YearFromDay d + 1) y). lia.
  - pose proof (DayFromYear_mono (y + 1) (YearFromDay d)). lia.
Qed.

Lemma DayWithinYear_bound (t : Z) :
  0 <= DayWithinYear t < DaysInYear (YearFromTime t).
Proof.
  unfold DayWithinYear, YearFromTime.
  pose proof (YearFromDay_spec (Day t)) as Hs.
  rewrite DayFromYear_succ in Hs. lia.
Qed.

Lemma MonthFromDayInYear_bound (leap : bool) (d : Z) :
  0 <= MonthFromDayInYear leap d <= 11.
Proof. unfold MonthFromDayInYear. repeat case_match; lia. Qed.

(** Within a year, the month and the date found for a day are a month
    and a date of that month. *)
Lemma date_in_month (y d : Z) :
  0 <= d < DaysInYear y ->
  let m := MonthFromDayInYear (InLeapYear y) d in
  1 <= d - DaysBeforeMonth (InLeapYear y) m + 1 <= DaysInMonth y m.
Proof.
  unfold DaysInYear, MonthFromDayInYear, DaysInMonth.
  destruct (InLeapYear y); intros Hd; cbv zeta;
    repeat (match goal with
            | |- context [?a <? ?b] => destruct (Z.ltb_spec a b)
            end; [simpl; lia|]); simpl; lia.
Qed.

Lemma MakeDay_in_range (y m date : Z) :
  0 <= m <= 11 ->
  MakeDay y m date = DayFromYear y + DaysBeforeMonth (InLeapYear y) m + date - 1.
Proof.
  intros Hm. unfold MakeDay.
  rewrite Z.div_small, Z.mod_small, Z.add_0_r by lia. done.
Qed.

(** Year, month and date of a time value give back its day number. *)
Lemma MakeDay_of_time (t : Z) :
  MakeDay (YearFromTime t) (MonthFromTime t) (DateFromTime t) = Day t.
Proof.
  rewrite MakeDay_in_range by apply MonthFromDayInYear_bound.
  unfold DateFromTime, DayWithinYear, MonthFromTime. lia.
Qed.

Lemma MakeTime_of_time (t : Z) :
  MakeTime (HourFromTime t) (MinFromTime t) (SecFromTime t) (msFromTime t)
  = TimeWithinDay t.
Proof.
  unfold MakeTime, HourFromTime, MinFromTime, SecFromTime, msFromTime,
    TimeWithinDay, msPerDay, msPerHour, msPerMinute, msPerSecond.
  Z.div_mod_to_equations. lia.
Qed.

Lemma MakeDate_of_time (t : Z) : MakeDate (Day t) (TimeWithinDay t) = t.
Proof.
  unfold MakeDate, Day, TimeWithinDay, msPerDay.
  Z.div_mod_to_equations. lia.
Qed.

(** Time values in range fall in years of at most six digits. *)
Lemma YearFromTime_range (t : Z) :
  - maxTime <= t <= maxTime -> -271821 <= YearFromTime t <= 275760.
Proof.
  intros Ht. unfold YearFromTime.
  pose proof (YearFromDay_spec (Day t)) as Hs.
  assert (-100000000 <= Day t <= 100000000) as Hd.
  { unfold Day, msPerDay, maxTime in *. Z.div_mod_to_equations. lia. }
  revert Hs. generalize (YearFromDay (Day t)). intros y Hs.
  unfold DayFromYear in Hs. Z.div_mod_to_equations. lia.
Qed.

End CalendarFacts.

(** ** The ISO text of a date is read back *)

Ltac norm_app :=
  repeat (rewrite TextFacts.app_assoc || rewrite TextFacts.app_cons
          || rewrite TextFacts.app_nil_l).

Module ISOFacts.
Import Calendar CalendarFacts Text TextFacts ISO.

Lemma digit_cases (d : Z) :
  digit d = "0"%char \/ digit d = "1"%char \/ digit d = "2"%char
  \/ digit d = "3"%char \/ digit d = "4"%char \/ digit d = "5"%char
  \/ digit d = "6"%char \/ digit d = "7"%char \/ digit d = "8"%char
  \/ digit d = "9"%char.
Proof.
  unfold digit.
  assert (0 <= d mod 10 < 10) as Hd by (apply Z.mod_pos_bound; lia).
  assert (d mod 10 = 0 \/ d mod 10 = 1 \/ d mod 10 = 2 \/ d mod 10 = 3
          \/ d mod 10 = 4 \/ d mod 10 = 5 \/ d mod 10 = 6 \/ d mod 10 = 7
          \/ d mod 10 = 8 \/ d mod 10 = 9) as Hc by lia.
  repeat destruct Hc as [Hc|Hc]; rewrite Hc; vm_compute; tauto.
Qed.

Lemma read_year_year_text (y : Z) (rest : string) :
  -999999 <= y <= 999999 ->
  read_year (year_text y +:+ rest) = Some (y, rest).
Proof.
  intros Hy. unfold year_text.
  destruct (decide (0 <= y <= 9999)) as [H0|H0];
    [|destruct (decide (y < 0)) as [H1|H1]].
  - rewrite (pad_S 3). change (Z.of_nat 3) with 3.
    rewrite app_cons. unfold read_year.
    assert (digit (y / 10 ^ 3) <> "+"%char /\ digit (y / 10 ^ 3) <> "-"%char)
      as [Hp Hm].
    { destruct (digit_cases (y / 10 ^ 3)) as [H|H];
        repeat (destruct H as [H|H]); rewrite H; split; discriminate. }
    rewrite !decide_False by done.
    rewrite <- app_cons. change 3 with (Z.of_nat 3) at 1. rewrite <- pad_S.
    apply read_digits_pad_small. change (10 ^ Z.of_nat 4) with 10000. lia.
  - norm_app. unfold read_year.
    rewrite decide_False, decide_True by done.
    rewrite read_digits_pad_small by (change (10 ^ Z.of_nat 6) with 1000000; lia).
    cbn [mbind option_bind].
    destruct (Z.eqb_spec (- y) 0); [lia|]. do 2 f_equal. lia.
  - norm_app. unfold read_year. rewrite decide_True by done.
    apply read_digits_pad_small. change (10 ^ Z.of_nat 6) with 1000000. lia.
Qed.

Local Ltac step :=
  cbn [mbind option_bind expect]; rewrite ?decide_True by done;
  cbn [mbind option_bind].

(** [Date.parse (d.toISOString ())] is [d.valueOf ()]. *)
Lemma parse_iso_toISOString (t : Z) :
  - maxTime <= t <= maxTime -> parse_iso (toISOString t) = Some t.
Proof.
  intros Ht. unfold parse_iso, toISOString.
  pose proof (YearFromTime_range t Ht) as Hy.
  pose proof (DayWithinYear_bound t) as Hdy.
  pose proof (date_in_month (YearFromTime t) (DayWithinYear t) Hdy) as Hdm.
  pose proof (MonthFromDayInYear_bound (InLeapYear (YearFromTime t))
                (DayWithinYear t)) as Hm.
  fold (MonthFromTime t) in Hm, Hdm. cbv zeta in Hdm. fold (DateFromTime t) in Hdm.
  assert (DaysInMonth (YearFromTime t) (MonthFromTime t) <= 31) as H31.
  { unfold DaysInMonth. repeat case_match; lia. }
  assert (0 <= HourFromTime t < 24) as Hh by (apply Z.mod_pos_bound; lia).
  assert (0 <= MinFromTime t < 60) as Hmi by (apply Z.mod_pos_bound; lia).
  assert (0 <= SecFromTime t < 60) as Hs by (apply Z.mod_pos_bound; lia).
  assert (0 <= msFromTime t < 1000) as Hms by (apply Z.mod_pos_bound; done).
  assert (10 ^ Z.of_nat 2 = 100) as E2 by done.
  assert (10 ^ Z.of_nat 3 = 1000) as E3 by done.
  norm_app.
  rewrite read_year_year_text by lia. step.
  rewrite read_digits_pad_small by lia. step.
  rewrite read_digits_pad_small by lia. step.
  rewrite read_digits_pad_small by lia. step.
  rewrite read_digits_pad_small by lia. step.
  rewrite read_digits_pad_small by lia. step.
  rewrite read_digits_pad_small by lia. step.
  replace (MonthFromTime t + 1 - 1) with (MonthFromTime t) by lia.
  rewrite MakeDay_of_time, MakeTime_of_time, MakeDate_of_time.
  rewrite decide_True; [done|]. repeat split; lia.
Qed.

End ISOFacts.

(** ** What [JSON.stringify] writes, [JSON.parse] reads back *)

Module JSONFacts.
Import Text TextFacts JSON.

Lemma parse_escape_char (c : ascii) (t : string) :
  parse_string_body (escape_char c +:+ t)
  = '(str, rest) ← parse_string_body t; Some (String c str, rest).
Proof. destruct c as [[] [] [] [] [] [] [] []]; reflexivity. Qed.

Lemma parse_string_body_escape (s rest : string) :
  parse_string_body (escape s +:+ String dquote rest) = Some (s, rest).
Proof.
  induction s as [|c s IH]; [reflexivity|].
  cbn [escape]. rewrite app_assoc, parse_escape_char, IH. reflexivity.
Qed.

Lemma parse_value_quote (fuel : nat) (s rest : string) :
  parse_value (S fuel) (quote s +:+ rest) = Some (VStr s, rest).
Proof.
  unfold quote. rewrite app_cons, app_assoc, app_cons, app_nil_l.
  change (parse_value (S fuel) (String dquote (escape s +:+ String dquote rest)))
    with ('(str, r) ← parse_string_body (escape s +:+ String dquote rest);
          Some (VStr str, r)).
  by rewrite parse_string_body_escape.
Qed.

Lemma stringify_head (v : value) :
  storable v -> exists c r, stringify v = String c r /\ opens_value c.
Proof.
  unfold opens_value.
  destruct 1 as [|[]|s|[t|]|l _|ps _ _]; cbn [stringify ISO.toJSON];
    unfold quote; norm_app; eauto 10.
Qed.

Lemma opens_value_not_ws (c : ascii) : opens_value c -> is_ws c = false.
Proof. intros H; repeat destruct H as [H|H]; by subst c. Qed.

Lemma parse_value_array_nonempty (fuel : nat) (c : ascii) (r : string) :
  opens_value c ->
  parse_value (S fuel) (String "[" (String c r))
  = parse_elements fuel [] (String c r).
Proof.
  intros H.
  change (parse_value (S fuel) (String "[" (String c r)))
    with (match skip_ws (String c r) with
          | String c' r' =>
              if decide (c' = "]"%char) then Some (VArr [], r')
              else parse_elements fuel [] (String c r)
          | EmptyString => None
          end).
  cbn [skip_ws]. rewrite (opens_value_not_ws c H).
  rewrite decide_False; [done|].
  intros ->. repeat destruct H as [H|H]; discriminate.
Qed.

Lemma parse_elements_step (fuel : nat) (acc : list value) (s : string) :
  parse_elements (S fuel) acc s
  = '(v, r) ← parse_value fuel s;
    match skip_ws r with
    | String c r' =>
        if decide (c = ","%char) then parse_elements fuel (acc ++ [v]) r'
        else if decide (c = "]"%char) then Some (VArr (acc ++ [v]), r')
        else None
    | EmptyString => None
    end.
Proof. reflexivity. Qed.

(** Reading the elements written for [l], given that each is read back. *)
Lemma parse_elements_join (l : list value) :
  l <> [] ->
  Forall (fun v => forall fuel rest, (size v <= fuel)%nat ->
            parse_value fuel (stringify v +:+ rest) = Some (json_of v, rest)) l ->
  forall fuel acc rest,
    (list_sum (map (fun x => S (size x)) l) <= fuel)%nat ->
    parse_elements fuel acc (join "," (map stringify l) +:+ String "]" rest)
    = Some (VArr (acc ++ map json_of l), rest).
Proof.
  intros Hne IH. induction IH as [|v l Hv _ IHl]; [done|]. clear Hne.
  intros fuel acc rest Hfuel.
  change (S (size v) + list_sum (map (fun x => S (size x)) l) <= fuel)%nat
    in Hfuel.
  destruct fuel as [|fuel]; [lia|]. rewrite parse_elements_step.
  destruct l as [|v' l'].
  - cbn [map join]. rewrite Hv by lia. reflexivity.
  - change (join "," (map stringify (v :: v' :: l')))
      with (stringify v +:+ "," +:+ join "," (map stringify (v' :: l'))).
    rewrite app_assoc, Hv by lia. norm_app.
    cbn [mbind option_bind skip_ws].
    change (is_ws ",") with false. cbv iota.
    rewrite decide_True by done.
    rewrite IHl by (done || lia).
    by rewrite <- List.app_assoc.
Qed.

Lemma obj_set_fresh (k : string) (v : value) (acc : list (string * value)) :
  k ∉ map fst acc -> obj_set k v acc = acc ++ [(k, v)].
Proof.
  induction acc as [|kv acc IH]; intros Hk; [done|].
  cbn [obj_set]. cbn [map] in Hk. apply not_elem_of_cons in Hk as [Hne Hk].
  rewrite decide_False by done. by rewrite IH.
Qed.

Lemma parse_value_object_nonempty (fuel : nat) (r : string) :
  parse_value (S fuel) (String "{" (String dquote r))
  = parse_members fuel [] (String dquote r).
Proof. reflexivity. Qed.

Lemma parse_members_step (fuel : nat) (acc : list (string * value))
    (k s : string) :
  parse_members (S fuel) acc (quote k +:+ String ":" s)
  = '(v, r) ← parse_value fuel s;
    match skip_ws r with
    | String c r' =>
        if decide (c = ","%char) then parse_members fuel (obj_set k v acc) r'
        else if decide (c = "}"%char) then Some (VObj (obj_set k v acc), r')
        else None
    | EmptyString => None
    end.
Proof.
  unfold quote. norm_app.
  change (parse_members (S fuel) acc
            (String dquote (escape k +:+ String dquote (String ":" s))))
    with ('(k', r) ← parse_string_body (escape k +:+ String dquote (String ":" s));
          match skip_ws r with
          | String c r =>
              if decide (c = ":"%char) then
                '(v, r) ← parse_value fuel r;
                match skip_ws r with
                | String c r' =>
                    if decide (c = ","%char)
                    then parse_members fuel (obj_set k' v acc) r'
                    else if decide (c = "}"%char)
                    then Some (VObj (obj_set k' v acc), r')
                    else None
                | EmptyString => None
                end
              else None
          | EmptyString => None
          end).
  rewrite parse_string_body_escape. reflexivity.
Qed.

Lemma parse_members_join (ps : list (string * value)) :
  ps <> [] ->
  Forall (fun kv => forall fuel rest, (size (snd kv) <= fuel)%nat ->
            parse_value fuel (stringify (snd kv) +:+ rest)
            = Some (json_of (snd kv), rest)) ps ->
  forall fuel acc rest,
    (list_sum (map (fun kv => S (size (snd kv))) ps) <= fuel)%nat ->
    NoDup (map fst acc ++ map fst ps) ->
    parse_members fuel acc (join "," (map member ps) +:+ String "}" rest)
    = Some (VObj (acc ++ map (fun kv => (fst kv, json_of (snd kv))) ps), rest).
Proof.
  intros Hne IH. induction IH as [|[k v] ps Hv _ IHps]; [done|]. clear Hne.
  intros fuel acc rest Hfuel Hnd. cbn [fst snd] in *.
  change (S (size v) + list_sum (map (fun kv => S (size (snd kv))) ps) <= fuel)%nat
    in Hfuel.
  assert (k ∉ map fst acc) as Hk.
  { apply NoDup_app in Hnd as (_ & Hd & _). intros Hin.
    apply (Hd k Hin). cbn [map fst]. apply elem_of_cons. by left. }
  assert (NoDup (map fst (acc ++ [(k, json_of v)]) ++ map fst ps)) as Hnd'.
  { rewrite map_app. cbn [map fst]. by rewrite <- List.app_assoc. }
  destruct fuel as [|fuel]; [lia|].
  destruct ps as [|kv' ps'].
  - cbn [map join]. unfold member at 1. cbn [fst snd]. norm_app.
    rewrite parse_members_step, Hv by lia.
    cbn [mbind option_bind skip_ws]. change (is_ws "}") with false. cbv iota.
    rewrite decide_False, decide_True by done.
    by rewrite obj_set_fresh.
  - change (join "," (map member ((k, v) :: kv' :: ps')))
      with (member (k, v) +:+ "," +:+ join "," (map member (kv' :: ps'))).
    unfold member at 1. cbn [fst snd]. norm_app.
    rewrite parse_members_step, Hv by lia.
    cbn [mbind option_bind skip_ws]. change (is_ws ",") with false. cbv iota.
    rewrite decide_True by done.
    rewrite obj_set_fresh by done.
    rewrite IHps by (done || lia).
    by rewrite <- List.app_assoc.
Qed.

(** Reading back a written value. *)
Lemma parse_value_stringify (v : value) :
  storable v ->
  forall fuel rest, (size v <= fuel)%nat ->
    parse_value fuel (stringify v +:+ rest) = Some (json_of v, rest).
Proof.
  induction v as [|b|l|s|d|l IH|ps IH] using value_ind;
    intros Hst fuel rest Hfuel;
    (destruct fuel as [|fuel]; [cbn [size] in Hfuel; lia|]).
  - reflexivity.
  - destruct b; reflexivity.
  - inversion Hst.
  - apply parse_value_quote.
  - destruct d as [t|]; [apply parse_value_quote|reflexivity].
  - inversion Hst as [| | | |l' Hl|]; subst l'.
    cbn [stringify json_of size] in *. norm_app.
    destruct l as [|v l]; [reflexivity|].
    destruct (stringify_head v) as (c & r & Hc & Hopen);
      [by inversion Hl|].
    assert (join "," (map stringify (v :: l)) +:+ String "]" rest
            = String c (r +:+ match l with
                              | [] => ""
                              | _ => "," +:+ join "," (map stringify l)
                              end +:+ String "]" rest)) as Hhead.
    { destruct l; cbn [map join]; rewrite Hc; by norm_app. }
    rewrite Hhead, parse_value_array_nonempty, <- Hhead by done.
    rewrite parse_elements_join; [done|done| |lia].
    apply Forall_forall. intros x Hx.
    rewrite Forall_forall in IH, Hl. intros fuel' rest'. by apply IH, Hl.
  - inversion Hst as [| | | | |ps' Hnd Hps]; subst ps'.
    cbn [stringify json_of size] in *. norm_app.
    destruct ps as [|[k v] ps]; [reflexivity|].
    fold (member) in *.
    change (join "," (map (fun kv => quote (fst kv) +:+ ":" +:+ stringify (snd kv))
                        ((k, v) :: ps)))
      with (join "," (map member ((k, v) :: ps))).
    assert (exists r, join "," (map member ((k, v) :: ps)) +:+ String "}" rest
                      = String dquote r) as [r Hhead].
    { destruct ps; cbn [map join]; unfold member at 1, quote;
        norm_app; eauto. }
    rewrite Hhead, parse_value_object_nonempty, <- Hhead.
    rewrite parse_members_join; [done|done| |lia|done].
    apply Forall_forall. intros x Hx.
    rewrite Forall_forall in IH, Hps. intros fuel' rest'. by apply IH, Hps.
Qed.

Lemma length_join_ge (sep : string) (l : list string) :
  (list_sum (map String.length l) <= String.length (join sep l))%nat.
Proof.
  induction l as [|s l IH]; [done|].
  destruct l as [|s' l'].
  - cbn. lia.
  - change (join sep (s :: s' :: l')) with (s +:+ sep +:+ join sep (s' :: l')).
    rewrite !length_app.
    change (list_sum (map String.length (s :: s' :: l')))
      with (String.length s + list_sum (map String.length (s' :: l')))%nat.
    lia.
Qed.

Lemma length_quote (s : string) : (2 <= String.length (quote s))%nat.
Proof. unfold quote. cbn [String.length]. rewrite length_app. cbn. lia. Qed.

(** The fuel [parse_text] gives covers the text of any written value. *)
Lemma size_le_length (v : value) :
  storable v -> (size v + 1 <= 2 * String.length (stringify v))%nat.
Proof.
  induction v as [|b|l|s|d|l IH|ps IH] using value_ind; intros Hst.
  - cbn. lia.
  - destruct b; cbn; lia.
  - inversion Hst.
  - cbn [size stringify]. pose proof (length_quote s). lia.
  - destruct d as [t|]; cbn [size stringify ISO.toJSON];
      [pose proof (length_quote (ISO.toISOString t)); lia|cbn; lia].
  - inversion Hst as [| | | |l' Hl|]; subst l'.
    cbn [size stringify]. norm_app. cbn [String.length].
    rewrite length_app. cbn [String.length].
    pose proof (length_join_ge "," (map stringify l)) as Hj.
    assert (list_sum (map (fun x => S (size x)) l)
            <= 2 * list_sum (map String.length (map stringify l)))%nat; [|lia].
    clear Hj Hst. induction l as [|x l IHl]; [done|].
    apply Forall_cons in IH as [Hx IH]. apply Forall_cons in Hl as [Hsx Hl].
    specialize (IHl IH Hl). specialize (Hx Hsx).
    unfold list_sum in *. cbn [map fold_right] in *. lia.
  - inversion Hst as [| | | | |ps' Hnd Hps]; subst ps'.
    cbn [size stringify]. norm_app. cbn [String.length].
    rewrite length_app. cbn [String.length].
    pose proof (length_join_ge ","
                  (map (fun kv => quote (fst kv) +:+ ":" +:+ stringify (snd kv)) ps))
      as Hj.
    assert (list_sum (map (fun kv => S (size (snd kv))) ps)
            <= 2 * list_sum (map String.length
                 (map (fun kv => quote (fst kv) +:+ ":" +:+ stringify (snd kv)) ps)))%nat;
      [|lia].
    clear Hj Hst Hnd. induction ps as [|x ps IHps]; [done|].
    apply Forall_cons in IH as [Hx IH]. apply Forall_cons in Hps as [Hsx Hps].
    specialize (IHps IH Hps). specialize (Hx Hsx).
    unfold list_sum in *. cbn [map fold_right] in *. rewrite !length_app. lia.
Qed.

(** [JSON.parse (JSON.stringify v)], before any reviver. *)
Lemma parse_text_stringify (v : value) :
  storable v -> parse_text (stringify v) = Some (json_of v).
Proof.
  intros Hst. unfold parse_text.
  rewrite <- (app_nil_r (stringify v)) at 2.
  rewrite parse_value_stringify; [done|done|].
  pose proof (size_le_length v Hst). lia.
Qed.

(** *** The fuel of the reader is enough *)

(** Every reader consumes: what is left is shorter than what was given. *)
Lemma length_skip_ws (s : string) :
  (String.length (skip_ws s) <= String.length s)%nat.
Proof.
  induction s as [|c s IH]; [done|].
  cbn [skip_ws]. destruct (is_ws c); cbn [String.length]; lia.
Qed.

Lemma skip_ws_cons (s : string) (c : ascii) (r : string) :
  skip_ws s = String c r -> (S (String.length r) <= String.length s)%nat.
Proof.
  intros H. pose proof (length_skip_ws s) as Hl. rewrite H in Hl. done.
Qed.

Lemma parse_string_body_shorter_le (n : nat) (s x r : string) :
  (String.length s <= n)%nat ->
  parse_string_body s = Some (x, r) -> (String.length r < String.length s)%nat.
Proof.
  revert s x r. induction n as [|n IH]; intros s x r Hn;
    (destruct s as [|c s]; [done|]); cbn [String.length] in *; [lia|].
  cbn [parse_string_body]. intros H.
  repeat (case_decide || case_match); subst; try done;
    try (simplify_eq; cbn [String.length]; lia);
    match type of H with
    | context [parse_string_body ?t] =>
        destruct (parse_string_body t) as [[str rest]|] eqn:Hb; [|done];
        cbn in H; simplify_eq; apply IH in Hb; cbn [String.length] in *; lia
    end.
Qed.

Lemma parse_string_body_shorter (s x r : string) :
  parse_string_body s = Some (x, r) -> (String.length r < String.length s)%nat.
Proof. by apply (parse_string_body_shorter_le (String.length s)). Qed.

Lemma length_span_digits (s : string) :
  (String.length (span_digits s).2 <= String.length s)%nat.
Proof.
  induction s as [|c s IH]; [done|].
  cbn [span_digits]. destruct (is_digit c); [|done].
  destruct (span_digits s) as [ds r]. cbn [snd String.length] in *. lia.
Qed.

Lemma digits1_shorter (s ds r : string) :
  digits1 s = Some (ds, r) -> (String.length r <= String.length s)%nat.
Proof.
  unfold digits1. pose proof (length_span_digits s) as Hl.
  destruct (span_digits s) as [[|d ds'] r']; [done|].
  intros [= <- <-]. done.
Qed.

Lemma length_span_digits_cons (c : ascii) (s : string) :
  is_digit c = true ->
  (String.length (span_digits (String c s)).2 <= String.length s)%nat.
Proof.
  intros Hc. cbn [span_digits]. rewrite Hc.
  pose proof (length_span_digits s) as Hl.
  by destruct (span_digits s).
Qed.

Local Ltac lengths :=
  repeat match goal with
  | H : digits1 _ = Some _ |- _ => apply digits1_shorter in H
  | H : span_digits (String ?c ?a) = _, Hc : is_digit ?c = true |- _ =>
      let Hl := fresh in
      pose proof (length_span_digits_cons c a Hc) as Hl; rewrite H in Hl; clear H
  | H : span_digits ?a = _ |- _ =>
      let Hl := fresh in
      pose proof (length_span_digits a) as Hl; rewrite H in Hl; clear H
  end.

Lemma parse_number_shorter (s l r : string) :
  parse_number s = Some (l, r) -> (String.length r < String.length s)%nat.
Proof.
  unfold parse_number, mbind, option_bind. intros H.
  repeat (case_match; simplify_eq; try done);
    lengths; cbn [snd String.length] in *; lia.
Qed.

Lemma strip_prefix_shorter (p s r : string) :
  strip_prefix p s = Some r ->
  (String.length r + String.length p = String.length s)%nat.
Proof.
  revert s. induction p as [|c p IH]; intros s; cbn [strip_prefix].
  - intros [= <-]. cbn. lia.
  - destruct s as [|c' s]; [done|]. case_decide; [|done].
    intros Hp%IH. cbn [String.length]. lia.
Qed.

(** Fuel: a reading that succeeds with some fuel consumes at least one
    character and succeeds, with the same result, with any fuel above
    twice the number of characters consumed. *)
Lemma parse_fuel (f : nat) :
  (forall s v r, parse_value f s = Some (v, r) ->
     (String.length r < String.length s)%nat /\
     forall k, (2 * String.length s <= k + 2 * String.length r + 1)%nat ->
       parse_value k s = Some (v, r)) /\
  (forall acc s v r, parse_elements f acc s = Some (v, r) ->
     (String.length r < String.length s)%nat /\
     forall k, (2 * String.length s <= k + 2 * String.length r)%nat ->
       parse_elements k acc s = Some (v, r)) /\
  (forall acc s v r, parse_members f acc s = Some (v, r) ->
     (String.length r < String.length s)%nat /\
     forall k, (2 * String.length s <= k + 2 * String.length r)%nat ->
       parse_members k acc s = Some (v, r)).
Proof.
  induction f as [|f (IHv & IHe & IHm)]; [done|].
  split; [|split].
  - intros s v r H.
    cut ((String.length r < String.length s)%nat /\
         forall k, (2 * String.length s <= S k + 2 * String.length r + 1)%nat ->
           parse_value (S k) s = Some (v, r)).
    { intros [Hl Hk]. split; [done|]. intros [|k] Hb; [lia|by apply Hk]. }
    cbn [parse_value] in *.
    pose proof (skip_ws_cons s) as Hs.
    destruct (skip_ws s) as [|c r0]; [done|]. specialize (Hs _ _ eq_refl).
    repeat case_decide.
    + pose proof (skip_ws_cons r0) as Hr.
      destruct (skip_ws r0) as [|c' r']; [done|]. specialize (Hr _ _ eq_refl).
      case_decide.
      * simplify_eq. split; [lia|done].
      * apply IHm in H as [Hl Hk]. split; [lia|]. intros k Hb. apply Hk. lia.
    + pose proof (skip_ws_cons r0) as Hr.
      destruct (skip_ws r0) as [|c' r']; [done|]. specialize (Hr _ _ eq_refl).
      case_decide.
      * simplify_eq. split; [lia|done].
      * apply IHe in H as [Hl Hk]. split; [lia|]. intros k Hb. apply Hk. lia.
    + destruct (parse_string_body r0) as [[str rest]|] eqn:Hb; [|done].
      cbn in H |- *. simplify_eq. apply parse_string_body_shorter in Hb.
      split; [lia|done].
    + destruct (strip_prefix "rue" r0) as [rest|] eqn:Hb; [|done].
      cbn in H |- *. simplify_eq. apply strip_prefix_shorter in Hb.
      split; [lia|done].
    + destruct (strip_prefix "alse" r0) as [rest|] eqn:Hb; [|done].
      cbn in H |- *. simplify_eq. apply strip_prefix_shorter in Hb.
      split; [lia|done].
    + destruct (strip_prefix "ull" r0) as [rest|] eqn:Hb; [|done].
      cbn in H |- *. simplify_eq. apply strip_prefix_shorter in Hb.
      split; [lia|done].
    + destruct (parse_number (String c r0)) as [[lit rest]|] eqn:Hb; [|done].
      cbn in H |- *. simplify_eq. apply parse_number_shorter in Hb.
      cbn [String.length] in Hb. split; [lia|done].
  - intros acc s v r H.
    cut ((String.length r < String.length s)%nat /\
         forall k, (2 * String.length s <= S k + 2 * String.length r)%nat ->
           parse_elements (S k) acc s = Some (v, r)).
    { intros [Hl Hk]. split; [done|]. intros [|k] Hb; [lia|by apply Hk]. }
    cbn [parse_elements] in *.
    destruct (parse_value f s) as [[v1 r1]|] eqn:Hv; [|done].
    apply IHv in Hv as [Hl1 Hk1]. cbn [mbind option_bind] in H.
    pose proof (skip_ws_cons r1) as Hr.
    destruct (skip_ws r1) as [|c r2] eqn:Hws; [done|]. specialize (Hr _ _ eq_refl).
    repeat case_decide; try done.
    + apply IHe in H as [Hl Hk]. split; [lia|]. intros k Hb.
      rewrite Hk1 by lia. cbn [mbind option_bind]. rewrite Hws.
      rewrite decide_True by done. apply Hk. lia.
    + simplify_eq. split; [lia|]. intros k Hb.
      rewrite Hk1 by lia. cbn [mbind option_bind]. rewrite Hws.
      rewrite decide_False by done. rewrite decide_True by done. done.
  - intros acc s v r H.
    cut ((String.length r < String.length s)%nat /\
         forall k, (2 * String.length s <= S k + 2 * String.length r)%nat ->
           parse_members (S k) acc s = Some (v, r)).
    { intros [Hl Hk]. split; [done|]. intros [|k] Hb; [lia|by apply Hk]. }
    cbn [parse_members] in *.
    pose proof (skip_ws_cons s) as Hs.
    destruct (skip_ws s) as [|q r0]; [done|]. specialize (Hs _ _ eq_refl).
    case_decide; [|done].
    destruct (parse_string_body r0) as [[key r1]|] eqn:Hb; [|done].
    apply parse_string_body_shorter in Hb. cbn [mbind option_bind] in *.
    pose proof (skip_ws_cons r1) as Hr1.
    destruct (skip_ws r1) as [|c r2]; [done|]. specialize (Hr1 _ _ eq_refl).
    case_decide; [|done].
    destruct (parse_value f r2) as [[v1 r3]|] eqn:Hv; [|done].
    apply IHv in Hv as [Hl1 Hk1]. cbn [mbind option_bind] in H.
    pose proof (skip_ws_cons r3) as Hr3.
    destruct (skip_ws r3) as [|c' r4] eqn:Hws; [done|]. specialize (Hr3 _ _ eq_refl).
    repeat case_decide; try done.
    + apply IHm in H as [Hl Hk]. split; [lia|]. intros k Hbd.
      rewrite Hk1 by lia. cbn [mbind option_bind]. rewrite Hws.
      rewrite decide_True by done. apply Hk. lia.
    + simplify_eq. split; [lia|]. intros k Hbd.
      rewrite Hk1 by lia. cbn [mbind option_bind]. rewrite Hws.
      rewrite decide_False by done. rewrite decide_True by done. done.
Qed.

(** The fuel [parse_text] gives is enough: a text that reads with some
    fuel reads so in [parse_text]. *)
Lemma parse_text_fuel (f : nat) (text : string) (v : value) (rest : string) :
  parse_value f text = Some (v, rest) ->
  skip_ws rest = "" ->
  parse_text text = Some v.
Proof.
  intros H Hws. destruct (parse_fuel f) as (Hv & _ & _).
  apply Hv in H as [_ Hk]. unfold parse_text.
  rewrite Hk by lia. cbn [mbind option_bind]. by rewrite Hws.
Qed.

(** A text that [parse_text] refuses is no JSON text: with no fuel at all
    does it read as one value with white space around it. *)
Lemma parse_text_None (text : string) :
  parse_text text = None ->
  forall (f : nat) (v : value) (rest : string),
    parse_value f text = Some (v, rest) -> skip_ws rest <> "".
Proof.
  intros Hn f v rest H Hws. by rewrite (parse_text_fuel f text v rest) in Hn.
Qed.

End JSONFacts.

(** ** Decimal numerals *)

Module Numeral.
Import Text TextFacts.

Lemma pretty_N_char_digit (x : N) : is_Some (digit_value (pretty_N_char x)).
Proof. unfold pretty_N_char. repeat case_match; by eexists. Qed.

Lemma pretty_N_go_head (x : N) (s : string) :
  head_digit s \/ (0 < x)%N -> head_digit (pretty_N_go x s).
Proof.
  revert s. induction (N.lt_wf_0 x) as [x _ IH]. intros s Hs.
  destruct (decide (x = 0%N)) as [->|Hx].
  - rewrite pretty_N_go_0. destruct Hs as [Hs|Hs]; [done|lia].
  - rewrite pretty_N_go_step by lia. apply IH.
    + apply N.div_lt; lia.
    + left. apply pretty_N_char_digit.
Qed.

Lemma pretty_N_head (x : N) : head_digit (pretty x).
Proof.
  unfold pretty, pretty_N. case_decide as Hx.
  - by eexists.
  - apply pretty_N_go_head. right. lia.
Qed.

(** An array index, as a property name, starts with a digit. *)
Lemma pretty_nat_head (i : nat) : head_digit (pretty i).
Proof. apply pretty_N_head. Qed.

(** A decimal integer starts with a digit or with the minus sign. *)
Lemma pretty_Z_head (z : Z) :
  head_digit (pretty z) \/ exists r, pretty z = String "-" r.
Proof.
  destruct z as [|p|p]; cbn [pretty pretty_Z].
  - left. by eexists.
  - left. apply pretty_N_head.
  - right. by eexists.
Qed.

End Numeral.

(** ** Facts on the transform *)

Module StoreFacts.
Import JSON Store.

Lemma internalize_arr r (name : string) (l : list value) :
  internalize r name (VArr l)
  = l' ← walk_elems (fun i x => internalize r (pretty i) x) 0 l;
    r name (VArr l').
Proof. reflexivity. Qed.

Lemma internalize_obj r (name : string) (ps : list (string * value)) :
  internalize r name (VObj ps)
  = ps' ← walk_props (fun k x => internalize r k x) ps; r name (VObj ps').
Proof. reflexivity. Qed.

Lemma internalize_scalar r (name : string) (v : value) :
  scalar v -> internalize r name v = r name v.
Proof. by destruct v. Qed.

Lemma head_digit_not_date_field (k : string) :
  head_digit k -> not_date_field k.
Proof.
  intros Hk. split; intros ->; destruct Hk as [d Hd]; discriminate.
Qed.

Lemma index_not_date_field (i : nat) : not_date_field (pretty i).
Proof. apply head_digit_not_date_field, Numeral.pretty_nat_head. Qed.

Lemma reviver_other h (k : string) (v : value) :
  not_date_field k -> reviver h k v = Ok v.
Proof.
  intros [H1 H2]. unfold reviver. rewrite decide_False; [done|]. tauto.
Qed.

Lemma scalar_primitive (v : value) : scalar v -> no_primitive v = false.
Proof. by destruct v. Qed.

Lemma dayjs_toDate_call_ok h (v : value) :
  no_primitive v = false -> dayjs_toDate_call h v = Ok (dayjs_toDate h v).
Proof. intros Hv. unfold dayjs_toDate_call. by rewrite Hv. Qed.

Lemma dayjs_toDate_call_fails h (v : value) :
  no_primitive v = true -> dayjs_toDate_call h v = Throw TypeError.
Proof. intros Hv. unfold dayjs_toDate_call. by rewrite Hv. Qed.

(** The elements of an array through dayjs: dates, when each has a
    primitive value. *)
Lemma walk_dates_ok h (i : nat) (l : list value) :
  existsb no_primitive l = false ->
  walk_elems (fun _ x => VDate <$> dayjs_toDate_call h x) i l
  = Ok (map (fun x => VDate (dayjs_toDate h x)) l).
Proof.
  revert i. induction l as [|x l IH]; intros i Hl; [done|].
  cbn [existsb] in Hl. apply orb_false_elim in Hl as [Hx Hl].
  cbn [walk_elems map]. rewrite dayjs_toDate_call_ok, IH by done. reflexivity.
Qed.

Lemma walk_dates_fails h (i : nat) (l : list value) :
  existsb no_primitive l = true ->
  walk_elems (fun _ x => VDate <$> dayjs_toDate_call h x) i l = Throw TypeError.
Proof.
  revert i. induction l as [|x l IH]; intros i Hl; [done|].
  cbn [existsb] in Hl. cbn [walk_elems].
  destruct (no_primitive x) eqn:Hx.
  - by rewrite dayjs_toDate_call_fails.
  - rewrite dayjs_toDate_call_ok, IH by done. reflexivity.
Qed.

Lemma existsb_scalars (l : list value) :
  Forall scalar l -> existsb no_primitive l = false.
Proof.
  induction 1 as [|x l Hx _ IH]; [done|].
  cbn [existsb]. by rewrite scalar_primitive, IH.
Qed.

Lemma reviver_date_field h (k : string) (l : list value) :
  k = "starts" \/ k = "stops" -> existsb no_primitive l = false ->
  reviver h k (VArr l) = Ok (VArr (map (fun x => VDate (dayjs_toDate h x)) l)).
Proof.
  intros Hk Hl. unfold reviver. rewrite decide_True by done.
  by rewrite walk_dates_ok.
Qed.

Lemma reviver_date_field_fails h (k : string) (l : list value) :
  k = "starts" \/ k = "stops" -> existsb no_primitive l = true ->
  reviver h k (VArr l) = Throw TypeError.
Proof.
  intros Hk Hl. unfold reviver. rewrite decide_True by done.
  by rewrite walk_dates_fails.
Qed.

Lemma internalize_elems_scalars h (i : nat) (l : list value) :
  Forall scalar l ->
  walk_elems (fun i x => internalize (reviver h) (pretty i) x) i l = Ok l.
Proof.
  intros Hl. revert i. induction Hl as [|x l Hx _ IH]; intros i; [done|].
  cbn [walk_elems].
  rewrite internalize_scalar, reviver_other, IH
    by (done || apply index_not_date_field).
  reflexivity.
Qed.

(** An array of scalars under [starts] or [stops]: every element
    becomes a date. *)
Lemma internalize_dates h (k : string) (l : list value) :
  k = "starts" \/ k = "stops" -> Forall scalar l ->
  internalize (reviver h) k (VArr l)
  = Ok (VArr (map (fun x => VDate (dayjs_toDate h x)) l)).
Proof.
  intros Hk Hl.
  rewrite internalize_arr, internalize_elems_scalars by done.
  apply reviver_date_field; [done|]. by apply existsb_scalars.
Qed.

(** An array of scalars under any other name: unchanged. *)
Lemma internalize_plain h (k : string) (l : list value) :
  not_date_field k -> Forall scalar l ->
  internalize (reviver h) k (VArr l) = Ok (VArr l).
Proof.
  intros Hk Hl.
  rewrite internalize_arr, internalize_elems_scalars by done.
  by apply reviver_other.
Qed.

Lemma internalize_daily h (k : string) (a b c : list value) :
  not_date_field k -> Forall scalar a -> Forall scalar b -> Forall scalar c ->
  internalize (reviver h) k (daily_tree a b c)
  = Ok (daily_tree (to_dates h a) (to_dates h b) c).
Proof.
  intros Hk Ha Hb Hc. unfold daily_tree.
  rewrite internalize_obj. cbn [walk_props fst snd].
  rewrite (internalize_dates h "starts"), (internalize_dates h "stops") by auto.
  rewrite internalize_plain by (done || by split).
  cbn [mbind result_bind]. by apply reviver_other.
Qed.

Lemma internalize_records h (k : string)
    (es : list (string * (list value * list value * list value))) :
  not_date_field k -> Forall entry_ok es ->
  internalize (reviver h) k (records_tree es)
  = Ok (records_tree (map (rehydrated h) es)).
Proof.
  intros Hk Hes. unfold records_tree. rewrite internalize_obj.
  assert (walk_props (fun k x => internalize (reviver h) k x)
            (map (fun e => (fst e, daily_tree (snd e).1.1 (snd e).1.2 (snd e).2)) es)
          = Ok (map (fun e => (fst e, daily_tree (snd e).1.1 (snd e).1.2 (snd e).2))
                  (map (rehydrated h) es))) as ->.
  { induction Hes as [|e es (Hf & Ha & Hb & Hc) _ IH]; [done|].
    cbn [map walk_props fst snd].
    rewrite internalize_daily, IH by done. reflexivity. }
  cbn [mbind result_bind]. by apply reviver_other.
Qed.

(** The same, inside the slice [{ records: ... }]. *)
Lemma internalize_slice h
    (es : list (string * (list value * list value * list value))) :
  Forall entry_ok es ->
  internalize (reviver h) "" (VObj [("records", records_tree es)])
  = Ok (VObj [("records", records_tree (map (rehydrated h) es))]).
Proof.
  intros Hes. rewrite internalize_obj. cbn [walk_props fst snd].
  rewrite internalize_records by (done || by split).
  cbn [mbind result_bind]. by apply reviver_other.
Qed.

Lemma deserialize_text h (text : string) :
  deserialize h (VStr text) = JSON.parse text (reviver h).
Proof. reflexivity. Qed.

Lemma serialize_stringify h (v : value) :
  serialize h v = VStr (JSON.stringify v).
Proof. reflexivity. Qed.

End StoreFacts.

(** ** Facts on storing and loading records *)

Module PersistenceFacts.
Import JSON Store StoreFacts.

Lemma not_date_field_root : not_date_field "".
Proof. by split. Qed.

Lemma scalar_strs (l : list string) : Forall scalar (map VStr l).
Proof. induction l; constructor; done. Qed.

Lemma scalar_json_of_dates (l : list Date) :
  Forall scalar (map json_of (map VDate l)).
Proof. induction l as [|[t|] l IH]; constructor; done. Qed.

Lemma json_of_strs (l : list string) : map json_of (map VStr l) = map VStr l.
Proof. induction l as [|s l IH]; [done|]. cbn [map json_of]. by rewrite IH. Qed.

(** A date written by [toJSON] and read by dayjs is the date. *)
Lemma dayjs_toDate_json_of h (d : Date) :
  Date_in_range d -> dayjs_toDate h (json_of (VDate d)) = d.
Proof.
  destruct d as [t|]; intros Hd; [|done].
  cbn [json_of ISO.toJSON dayjs_toDate].
  by rewrite ISOFacts.parse_iso_toISOString.
Qed.

Lemma to_dates_json_of h (l : list Date) :
  Forall Date_in_range l ->
  to_dates h (map json_of (map VDate l)) = map VDate l.
Proof.
  unfold to_dates. induction 1 as [|d l Hd _ IH]; [done|].
  cbn [map]. rewrite dayjs_toDate_json_of by done. by f_equal.
Qed.

Lemma json_of_Records_list (l : list (string * DailyRecord)) :
  json_of (Records_list_value l) = records_tree (map entry_of l).
Proof.
  unfold Records_list_value, records_tree. cbn [json_of]. f_equal.
  rewrite !map_map. apply map_ext. intros [k r].
  cbn [fst snd entry_of DailyRecord_value json_of map daily_tree].
  by rewrite json_of_strs.
Qed.

Lemma entry_ok_entry_of (kr : string * DailyRecord) :
  not_date_field (fst kr) -> entry_ok (entry_of kr).
Proof.
  intros Hk. unfold entry_ok, entry_of. cbn [fst snd].
  auto using scalar_json_of_dates, scalar_strs.
Qed.

Lemma rehydrated_entries h (l : list (string * DailyRecord)) :
  Forall day_ok l ->
  records_tree (map (rehydrated h) (map entry_of l)) = Records_list_value l.
Proof.
  intros Hl. unfold records_tree, Records_list_value. f_equal.
  induction Hl as [|[k r] l (Hk & Hs & He) _ IH]; [done|].
  cbn [map]. f_equal; [|done].
  unfold rehydrated, entry_of, DailyRecord_value, daily_tree. cbn [fst snd].
  by rewrite !to_dates_json_of.
Qed.

Lemma storable_dates (l : list Date) : Forall storable (map VDate l).
Proof. induction l; constructor; (done || constructor). Qed.

Lemma storable_strs (l : list string) : Forall storable (map VStr l).
Proof. induction l; constructor; (done || constructor). Qed.

Lemma storable_DailyRecord (r : DailyRecord) : storable (DailyRecord_value r).
Proof.
  constructor.
  - apply (bool_decide_unpack _). by vm_compute.
  - repeat apply List.Forall_cons; [..|apply List.Forall_nil]; cbn [snd];
      constructor; auto using storable_dates, storable_strs.
Qed.

Lemma storable_Records_list (l : list (string * DailyRecord)) :
  NoDup (map fst l) -> storable (Records_list_value l).
Proof.
  intros Hnd. constructor.
  - by rewrite map_map.
  - apply Forall_map, Forall_forall. intros kr _. apply storable_DailyRecord.
Qed.

Lemma storable_shaped (sh : shape) (v : value) :
  storable v -> storable (shaped sh v).
Proof.
  intros Hv. destruct sh; [done|]. constructor.
  - apply (bool_decide_unpack _). by vm_compute.
  - by apply List.Forall_cons; [|apply List.Forall_nil].
Qed.

Lemma json_of_shaped (sh : shape) (v : value) :
  json_of (shaped sh v) = shaped sh (json_of v).
Proof. by destruct sh. Qed.

Lemma internalize_shaped h (sh : shape)
    (es : list (string * (list value * list value * list value))) :
  Forall entry_ok es ->
  internalize (reviver h) "" (shaped sh (records_tree es))
  = Ok (shaped sh (records_tree (map (rehydrated h) es))).
Proof.
  intros Hes. destruct sh.
  - by apply internalize_records; [apply not_date_field_root|].
  - by apply internalize_slice.
Qed.

(** Storing then loading a list of days. *)
Lemma round_trip_list h (sh : shape) (l : list (string * DailyRecord)) :
  NoDup (map fst l) -> Forall day_ok l ->
  deserialize h (serialize h (shaped sh (Records_list_value l)))
  = Ok (shaped sh (Records_list_value l)).
Proof.
  intros Hnd Hl. rewrite serialize_stringify, deserialize_text.
  unfold JSON.parse.
  rewrite JSONFacts.parse_text_stringify
    by apply storable_shaped, storable_Records_list, Hnd.
  rewrite json_of_shaped, json_of_Records_list, internalize_shaped.
  - by rewrite rehydrated_entries.
  - apply Forall_map. eapply Forall_impl; [exact Hl|].
    intros kr (Hk & _). by apply entry_ok_entry_of.
Qed.

Lemma Stored_value_tree (es : list (string * StoredDailyRecord)) :
  Stored_value es = records_tree (map stored_entry es).
Proof.
  unfold Stored_value, records_tree. f_equal. rewrite map_map.
  apply map_ext. by intros [k s].
Qed.

Lemma Loaded_value_tree h (es : list (string * StoredDailyRecord)) :
  Loaded_value h es = records_tree (map (rehydrated h) (map stored_entry es)).
Proof.
  unfold Loaded_value, records_tree. f_equal. rewrite !map_map.
  apply map_ext. intros [k s].
  unfold rehydrated, stored_entry, DailyRecord_value, rehydrate, daily_tree,
    to_dates.
  cbn [fst snd starts stops memos]. by rewrite !map_map.
Qed.

(** Loading a text that holds stored days. *)
Lemma deserialize_stored h (sh : shape) (text : string)
    (es : list (string * StoredDailyRecord)) :
  parse_text text = Some (shaped sh (Stored_value es)) ->
  Forall (fun e => not_date_field (fst e)) es ->
  deserialize h (VStr text) = Ok (shaped sh (Loaded_value h es)).
Proof.
  intros Htext Hes. rewrite deserialize_text. unfold JSON.parse.
  rewrite Htext, Stored_value_tree, Loaded_value_tree.
  apply internalize_shaped, Forall_map.
  eapply Forall_impl; [exact Hes|]. intros [k s] Hk.
  unfold entry_ok, stored_entry. cbn [fst snd] in *.
  auto using scalar_strs.
Qed.

(** The reviver throws nothing but [TypeError]. *)
Lemma reviver_throws h (k : string) (v : value) (e : exn) :
  reviver h k v = Throw e -> e = TypeError.
Proof.
  unfold reviver. case_decide; [|done]. destruct v as [| | | | |l|]; try congruence.
  destruct (existsb no_primitive l) eqn:Hl.
  - rewrite walk_dates_fails by done. cbn [mbind result_bind]. congruence.
  - by rewrite walk_dates_ok.
Qed.

Lemma walk_elems_throws (f : nat -> value -> result value) (l : list value)
    (i : nat) (e : exn) :
  Forall (fun x => forall j e, f j x = Throw e -> e = TypeError) l ->
  walk_elems f i l = Throw e -> e = TypeError.
Proof.
  intros Hl. revert i. induction Hl as [|x l Hx _ IH]; intros i; [done|].
  cbn [walk_elems]. destruct (f i x) as [x'|e'] eqn:Hf.
  - cbn [mbind result_bind]. destruct (walk_elems f (S i) l) eqn:Hw; [done|].
    cbn [mbind result_bind]. intros [= <-]. by eapply IH.
  - cbn [mbind result_bind]. intros [= <-]. by eapply Hx.
Qed.

Lemma walk_props_throws (f : string -> value -> result value)
    (ps : list (string * value)) (e : exn) :
  Forall (fun kv => forall k e, f k (snd kv) = Throw e -> e = TypeError) ps ->
  walk_props f ps = Throw e -> e = TypeError.
Proof.
  induction 1 as [|kv ps Hx _ IH]; [done|].
  cbn [walk_props]. destruct (f (fst kv) (snd kv)) as [x'|e'] eqn:Hf.
  - cbn [mbind result_bind]. destruct (walk_props f ps) eqn:Hw; [done|].
    cbn [mbind result_bind]. intros [= <-]. by apply IH.
  - cbn [mbind result_bind]. intros [= <-]. by eapply Hx.
Qed.

Lemma internalize_throws h (v : value) :
  forall (name : string) (e : exn),
    internalize (reviver h) name v = Throw e -> e = TypeError.
Proof.
  induction v as [|b|l|s|d|l IH|ps IH] using value_ind; intros name e;
    try apply reviver_throws.
  - rewrite internalize_arr.
    destruct (walk_elems _ 0 l) as [l'|e'] eqn:Hw; cbn [mbind result_bind].
    + apply reviver_throws.
    + intros [= <-]. eapply walk_elems_throws; [|exact Hw].
      eapply Forall_impl; [exact IH|]. intros x Hx j e1. apply Hx.
  - rewrite internalize_obj.
    destruct (walk_props _ ps) as [ps'|e'] eqn:Hw; cbn [mbind result_bind].
    + apply reviver_throws.
    + intros [= <-]. eapply walk_props_throws; [|exact Hw].
      eapply Forall_impl; [exact IH|]. intros x Hx k e1. apply Hx.
Qed.

(** Loading fails only on a text that is not JSON ([SyntaxError]: the
    text does not read as one value, whatever the fuel) or on a [starts] or
    [stops] that is no array ([TypeError]). *)
Lemma deserialize_throws h (text : string) (e : exn) :
  deserialize h (VStr text) = Throw e ->
  (e = SyntaxError
   /\ forall (f : nat) (v : value) (rest : string),
        parse_value f text = Some (v, rest) -> skip_ws rest <> "")
  \/ e = TypeError.
Proof.
  rewrite deserialize_text. unfold JSON.parse.
  destruct (parse_text text) as [v|] eqn:Ht.
  - intros He. right. by eapply internalize_throws.
  - intros [= <-]. left. split; [done|]. by apply JSONFacts.parse_text_None.
Qed.

End PersistenceFacts.

(** ** Facts on dayjs dates *)

Module DayjsFacts.
Import Calendar CalendarFacts Dayjs.

Lemma LocalTime_UTC h (x : Z) : LocalTime h (UTC h x) = x.
Proof. unfold LocalTime, UTC. lia. Qed.

Lemma month_bound h (t : Z) : 0 <= month h t <= 11.
Proof. apply MonthFromDayInYear_bound. Qed.

Lemma TimeWithinDay_bound (t : Z) : 0 <= TimeWithinDay t < msPerDay.
Proof. apply Z.mod_pos_bound. done. Qed.

Lemma Day_MakeDate (D tw : Z) :
  0 <= tw < msPerDay -> Day (MakeDate D tw) = D.
Proof.
  unfold Day, MakeDate, msPerDay. intros. Z.div_mod_to_equations. lia.
Qed.

Lemma TimeWithinDay_MakeDate (D tw : Z) :
  0 <= tw < msPerDay -> TimeWithinDay (MakeDate D tw) = tw.
Proof.
  unfold TimeWithinDay, MakeDate, msPerDay. intros. Z.div_mod_to_equations. lia.
Qed.

Lemma HourFromTime_within (t : Z) :
  HourFromTime t = HourFromTime (TimeWithinDay t).
Proof.
  unfold HourFromTime, TimeWithinDay, msPerDay, msPerHour.
  Z.div_mod_to_equations. lia.
Qed.

Lemma MinFromTime_within (t : Z) :
  MinFromTime t = MinFromTime (TimeWithinDay t).
Proof.
  unfold MinFromTime, TimeWithinDay, msPerDay, msPerMinute.
  Z.div_mod_to_equations. lia.
Qed.

Lemma DaysInMonth_bound (y m : Z) : 28 <= DaysInMonth y m <= 31.
Proof. unfold DaysInMonth. repeat case_match; lia. Qed.

Lemma DaysBeforeMonth_next (y m : Z) :
  0 <= m <= 11 ->
  DaysBeforeMonth (InLeapYear y) m + DaysInMonth y m
  = if decide (m = 11) then DaysInYear y
    else DaysBeforeMonth (InLeapYear y) (m + 1).
Proof.
  intros Hm. unfold DaysInYear, DaysInMonth.
  assert (m = 0 \/ m = 1 \/ m = 2 \/ m = 3 \/ m = 4 \/ m = 5 \/ m = 6
          \/ m = 7 \/ m = 8 \/ m = 9 \/ m = 10 \/ m = 11) as Hc by lia.
  destruct (InLeapYear y);
    repeat destruct Hc as [Hc|Hc]; subst m; reflexivity.
Qed.

(** The day made of a year, a month and a date of that month is a day of
    that year, that month and that date. *)
Lemma MakeDay_civil (y m n : Z) :
  0 <= m <= 11 -> 1 <= n <= DaysInMonth y m ->
  let D := MakeDay y m n in
  YearFromDay D = y
  /\ MonthFromDayInYear (InLeapYear y) (D - DayFromYear y) = m
  /\ D - DayFromYear y - DaysBeforeMonth (InLeapYear y) m + 1 = n.
Proof.
  intros Hm Hn D. subst D. rewrite MakeDay_in_range by done.
  assert (m = 0 \/ m = 1 \/ m = 2 \/ m = 3 \/ m = 4 \/ m = 5 \/ m = 6
          \/ m = 7 \/ m = 8 \/ m = 9 \/ m = 10 \/ m = 11) as Hc by lia.
  split; [|split; [|lia]].
  - apply YearFromDay_unique. rewrite DayFromYear_succ.
    revert Hn. unfold DaysInYear, DaysInMonth.
    destruct (InLeapYear y);
      repeat destruct Hc as [Hc|Hc]; subst m; cbn; lia.
  - replace (DayFromYear y + DaysBeforeMonth (InLeapYear y) m + n - 1
             - DayFromYear y)
      with (DaysBeforeMonth (InLeapYear y) m + n - 1) by lia.
    revert Hn. unfold DaysInMonth, MonthFromDayInYear.
    destruct (InLeapYear y);
      repeat destruct Hc as [Hc|Hc]; subst m; cbn; intros Hn;
      repeat (match goal with
              | |- context [?a <? ?b] => destruct (Z.ltb_spec a b)
              end; try lia).
Qed.

(** The fields of a time made of a day and a time within the day. *)
Lemma fields_MakeDate (y m n tw : Z) :
  0 <= m <= 11 -> 1 <= n <= DaysInMonth y m -> 0 <= tw < msPerDay ->
  let t := MakeDate (MakeDay y m n) tw in
  YearFromTime t = y /\ MonthFromTime t = m /\ DateFromTime t = n
  /\ TimeWithinDay t = tw.
Proof.
  intros Hm Hn Htw t. subst t.
  destruct (MakeDay_civil y m n Hm Hn) as (Hy & Hmo & Hd).
  unfold DateFromTime, MonthFromTime, DayWithinYear, YearFromTime.
  rewrite Day_MakeDate, TimeWithinDay_MakeDate, Hy, Hmo by done.
  repeat split; done.
Qed.

(** [set ('date', n)] to a day of the month: the same year, month and
    time of day, and the date [n]. *)
Lemma set_date_fields h (t n : Z) :
  1 <= n <= DaysInMonth (year h t) (month h t) ->
  exists t', set_date h (DateAt t) n = DateAt t'
    /\ year h t' = year h t /\ month h t' = month h t /\ date h t' = n
    /\ hour h t' = hour h t /\ minute h t' = minute h t.
Proof.
  intros Hn. eexists. split; [reflexivity|].
  unfold year, month, date, hour, minute. rewrite !LocalTime_UTC.
  destruct (fields_MakeDate (YearFromTime (LocalTime h t))
              (MonthFromTime (LocalTime h t)) n
              (TimeWithinDay (LocalTime h t)))
    as (Hy & Hm & Hd & Htw);
    [apply MonthFromDayInYear_bound|done|apply TimeWithinDay_bound|].
  rewrite Hy, Hm, Hd.
  rewrite (HourFromTime_within (MakeDate _ _)), (MinFromTime_within (MakeDate _ _)).
  rewrite Htw, <- HourFromTime_within, <- MinFromTime_within. done.
Qed.

(** The day before the first of the next month is the last of the
    month. *)
Lemma MakeDay_last (y m : Z) :
  0 <= m <= 11 -> MakeDay y (m + 1) 0 = MakeDay y m (DaysInMonth y m).
Proof.
  intros Hm. pose proof (DaysBeforeMonth_next y m Hm) as Hnext.
  unfold MakeDay. cbv zeta.
  rewrite (Z.div_small m), (Z.mod_small m) by lia.
  destruct (decide (m = 11)) as [->|Hne].
  - change ((11 + 1) / 12) with 1. change ((11 + 1) mod 12) with 0.
    rewrite DayFromYear_succ. change (DaysBeforeMonth _ 0) with 0.
    rewrite !Z.add_0_r. lia.
  - rewrite (Z.div_small (m + 1)), (Z.mod_small (m + 1)) by lia.
    rewrite !Z.add_0_r. lia.
Qed.

(** A year from 0 to 99 and the year of the 1900s it stands for: the
    months of the second are no longer than those of the first. *)
Lemma DaysInMonth_MakeFullYear (y m : Z) :
  DaysInMonth (MakeFullYear y) m <= DaysInMonth y m.
Proof.
  unfold MakeFullYear. case_decide as Hy; [|lia].
  unfold DaysInMonth. destruct m as [|[| |]|]; try lia.
  unfold InLeapYear.
  destruct (Z.eqb_spec ((1900 + y) mod 4) 0) as [H4|H4]; cbn [andb]; [|case_match; lia].
  destruct (Z.eqb_spec ((1900 + y) mod 100) 0) as [H100|H100]; cbn [negb orb].
  - destruct (Z.eqb_spec ((1900 + y) mod 400) 0) as [H400|H400];
      [exfalso; Z.div_mod_to_equations; lia|case_match; lia].
  - destruct (Z.eqb_spec (y mod 4) 0) as [H4'|H4'];
      [|exfalso; Z.div_mod_to_equations; lia].
    destruct (Z.eqb_spec (y mod 100) 0) as [H100'|H100']; cbn [andb negb orb];
      [exfalso; Z.div_mod_to_equations; lia|lia].
Qed.

(** Only in the year 0 do they differ: it is a leap year, 1900 is not. *)
Lemma DaysInMonth_MakeFullYear_eq (y m : Z) :
  y <> 0 -> DaysInMonth (MakeFullYear y) m = DaysInMonth y m.
Proof.
  intros H0. unfold MakeFullYear. case_decide as Hy; [|done].
  unfold DaysInMonth. destruct m as [|[| |]|]; try done.
  assert (InLeapYear (1900 + y) = InLeapYear y) as ->; [|done].
  unfold InLeapYear.
  replace ((1900 + y) mod 4) with (y mod 4) by (Z.div_mod_to_equations; lia).
  destruct (Z.eqb_spec (y mod 4) 0) as [H4|H4]; [|done]. cbn [andb].
  destruct (Z.eqb_spec ((1900 + y) mod 100) 0);
    [exfalso; Z.div_mod_to_equations; lia|].
  destruct (Z.eqb_spec (y mod 100) 0); [exfalso; Z.div_mod_to_equations; lia|].
  done.
Qed.

Lemma MakeFullYear_plain (y : Z) : ~ 0 <= y <= 99 -> MakeFullYear y = y.
Proof. intros Hy. unfold MakeFullYear. by rewrite decide_False. Qed.

(** [endOf ('month')]: the last date of the month, in the year the [Date]
    constructor makes of the year. *)
Lemma endOf_month_fields h (t : Z) :
  exists t', endOf_month h (DateAt t) = DateAt t'
    /\ year h t' = MakeFullYear (year h t) /\ month h t' = month h t
    /\ date h t' = DaysInMonth (MakeFullYear (year h t)) (month h t).
Proof.
  pose proof (month_bound h t) as Hm.
  pose proof (DaysInMonth_bound (MakeFullYear (year h t)) (month h t)) as Hn.
  destruct (fields_MakeDate (MakeFullYear (year h t)) (month h t)
              (DaysInMonth (MakeFullYear (year h t)) (month h t))
              (MakeTime 23 59 59 999))
    as (Hy & Hmo & Hd & _); [done|lia|by vm_compute|].
  eexists. split; [reflexivity|].
  set (Y := MakeFullYear (year h t)) in *. set (m := month h t) in *.
  unfold year, month, date. rewrite !LocalTime_UTC.
  rewrite Day_MakeDate by (by vm_compute).
  rewrite MakeDay_last by done. done.
Qed.

(** [daysInMonth ()] of a valid date. *)
Lemma daysInMonth_valid h (t : Z) :
  daysInMonth h (DateAt t)
  = Some (DaysInMonth (MakeFullYear (year h t)) (month h t)).
Proof.
  unfold daysInMonth.
  destruct (endOf_month_fields h t) as (t' & -> & _ & _ & ->). reflexivity.
Qed.

(** The clock of a time made of hours, minutes, seconds and
    milliseconds: the minutes carry into the hours, the hours wrap. *)
Lemma clock_MakeTime (D hh mm ss u : Z) :
  0 <= ss < 60 -> 0 <= u < 1000 ->
  let T := MakeDate D (MakeTime hh mm ss u) in
  HourFromTime T = (hh + mm / 60) mod 24 /\ MinFromTime T = mm mod 60
  /\ SecFromTime T = ss /\ msFromTime T = u.
Proof.
  intros Hs Hu T. subst T.
  unfold HourFromTime, MinFromTime, SecFromTime, msFromTime, MakeDate,
    MakeTime, msPerDay, msPerHour, msPerMinute, msPerSecond.
  repeat split; Z.div_mod_to_equations; lia.
Qed.

(** A time moved within its day, or by some hours, stays in the range of
    dates when it was that far inside. *)
Lemma in_range_moved h (t X room : Z) :
  - maxTime + room + msPerDay <= t <= maxTime - room - msPerDay ->
  - room <= X <= room ->
  - maxTime <= UTC h (MakeDate (Day (LocalTime h t)) X) <= maxTime
  /\ t - msPerDay - room <= UTC h (MakeDate (Day (LocalTime h t)) X)
     <= t + room.
Proof.
  intros Ht HX.
  pose proof (TimeWithinDay_bound (LocalTime h t)) as Htw.
  pose proof (Z.div_mod (LocalTime h t) msPerDay ltac:(done)) as Hl.
  fold (Day (LocalTime h t)) (TimeWithinDay (LocalTime h t)) in Hl.
  unfold UTC, MakeDate. unfold LocalTime in Hl at 1. lia.
Qed.

(** The clock after [hour (n)] then [minute (k)], for a time that stays in
    the range of dates: the minutes carry into the hours, the hours wrap at
    24, whatever the time was before. *)
Lemma set_hour_minute h (t n k : Z) :
  -60 < k < 60 ->
  - maxTime + (Z.abs n + 100) * msPerHour <= t
  <= maxTime - (Z.abs n + 100) * msPerHour ->
  exists t', set_minute h (set_hour h (DateAt t) n) k = DateAt t'
    /\ hour h t' = (n + k / 60) mod 24 /\ minute h t' = k mod 60.
Proof.
  intros Hk Ht.
  set (l := LocalTime h t).
  assert (0 <= SecFromTime l < 60) as Hs by (apply Z.mod_pos_bound; lia).
  assert (0 <= msFromTime l < 1000) as Hu by (apply Z.mod_pos_bound; done).
  assert (0 <= MinFromTime l < 60) as Hm by (apply Z.mod_pos_bound; lia).
  set (X := MakeTime n (MinFromTime l) (SecFromTime l) (msFromTime l)).
  destruct (in_range_moved h t X ((Z.abs n + 1) * msPerHour)) as [Hr1 Hd1];
    [unfold msPerDay, msPerHour in *; lia
    |subst X; unfold MakeTime, msPerHour, msPerMinute, msPerSecond; lia|].
  fold l in Hr1, Hd1.
  destruct (clock_MakeTime (Day l) n (MinFromTime l) (SecFromTime l)
              (msFromTime l) Hs Hu) as (H1 & H2 & H3 & H4).
  cbv zeta in H1, H2, H3, H4. fold X in H1, H2, H3, H4.
  unfold set_hour. fold l. fold X. unfold TimeClip. rewrite decide_True by done.
  unfold set_minute. rewrite LocalTime_UTC, H1, H3, H4.
  set (r1 := UTC h (MakeDate (Day l) X)) in *.
  set (X' := MakeTime ((n + MinFromTime l / 60) mod 24) k (SecFromTime l)
               (msFromTime l)).
  assert (0 <= (n + MinFromTime l / 60) mod 24 < 24) as Hh
    by (apply Z.mod_pos_bound; lia).
  destruct (in_range_moved h r1 X' (25 * msPerHour)) as [Hr2 _];
    [unfold msPerDay, msPerHour in *; lia
    |subst X'; unfold MakeTime, msPerHour, msPerMinute, msPerSecond; lia|].
  subst r1. rewrite LocalTime_UTC in Hr2.
  unfold TimeClip. rewrite decide_True by done.
  eexists. split; [reflexivity|].
  unfold hour, minute. rewrite !LocalTime_UTC.
  destruct (clock_MakeTime (Day (MakeDate (Day l) X))
              ((n + MinFromTime l / 60) mod 24) k (SecFromTime l)
              (msFromTime l) Hs Hu) as (H5 & H6 & _).
  cbv zeta in H5, H6. fold X' in H5, H6. rewrite H5, H6.
  split; [|done]. rewrite (Z.div_small (MinFromTime l)) by lia.
  Z.div_mod_to_equations. lia.
Qed.

End DayjsFacts.

(** ** Facts on the exporters *)

Module ExportFacts.
Import Text TextFacts Calendar CalendarFacts Dayjs DayjsFacts Exporters.

Lemma map_fmap {A B : Type} (f : A -> B) (l : list A) : map f l = f <$> l.
Proof. induction l as [|x l IH]; [done|]. cbn. by rewrite IH. Qed.

Lemma month_length_bound h (t : Z) : 28 <= month_length h t <= 31.
Proof. apply DaysInMonth_bound. Qed.

Lemma month_length_le h (t : Z) :
  month_length h t <= DaysInMonth (year h t) (month h t).
Proof. apply DaysInMonth_MakeFullYear. Qed.

Lemma month_length_year h (t : Z) :
  year h t <> 0 -> month_length h t = DaysInMonth (year h t) (month h t).
Proof. apply DaysInMonth_MakeFullYear_eq. Qed.

Lemma month_length_plain h (t : Z) :
  ~ 0 <= year h t <= 99 ->
  month_length h t = DaysInMonth (year h t) (month h t).
Proof. intros Hy. unfold month_length. by rewrite MakeFullYear_plain. Qed.

Lemma getDaysInMonth_valid h (t : Z) :
  getDaysInMonth h (DateAt t) = Ok (days_of h t).
Proof. unfold getDaysInMonth. by rewrite daysInMonth_valid. Qed.

Lemma length_days_of h (t : Z) :
  length (days_of h t) = Z.to_nat (month_length h t).
Proof. unfold days_of. by rewrite length_map, length_seq. Qed.

Lemma lookup_days_of h (t : Z) (i : nat) :
  (i < Z.to_nat (month_length h t))%nat ->
  days_of h t !! i = Some (set_date h (DateAt t) (Z.of_nat i + 1)).
Proof.
  intros Hi. unfold days_of.
  by rewrite map_fmap, list_lookup_fmap, lookup_seq_lt.
Qed.

Lemma lookup_days_of_inv h (t : Z) (i : nat) (d : Date) :
  days_of h t !! i = Some d ->
  (i < Z.to_nat (month_length h t))%nat
  /\ d = set_date h (DateAt t) (Z.of_nat i + 1).
Proof.
  intros Hd. assert (i < length (days_of h t))%nat as Hi
    by (eapply lookup_lt_Some; exact Hd).
  rewrite length_days_of in Hi. split; [done|].
  rewrite lookup_days_of in Hd by done. congruence.
Qed.

(** The texts of the [i]-th day of the month. *)
Lemma day_texts h (t : Z) (i : nat) :
  (i < Z.to_nat (month_length h t))%nat ->
  let d := set_date h (DateAt t) (Z.of_nat i + 1) in
  format_YYYY_MM_DD h d
  = pretty (year h t) +:+ "-" +:+ pad 2 (month h t + 1) +:+ "-"
    +:+ pad 2 (Z.of_nat i + 1)
  /\ makeRecordKey h d
     = pretty (year h t) +:+ pad 2 (month h t + 1) +:+ pad 2 (Z.of_nat i + 1).
Proof.
  intros Hi d. subst d.
  pose proof (month_length_le h t) as Hle.
  destruct (set_date_fields h t (Z.of_nat i + 1)) as (t' & -> & Hy & Hm & Hd & _);
    [lia|].
  unfold makeRecordKey, format_YYYY_MM_DD, format_YYYYMMDD.
  by rewrite Hy, Hm, Hd.
Qed.

(** The default break length has no part in the start, the stop and the
    memo of the latest session. *)
Lemma getLatestOf_default (record : option DailyRecord) (b b' : option Z) :
  start (getLatestOf record b) = start (getLatestOf record b')
  /\ stop (getLatestOf record b) = stop (getLatestOf record b')
  /\ memo (getLatestOf record b) = memo (getLatestOf record b').
Proof. by destruct record. Qed.

Lemma mail_columns_csv h (R : Records) (b : option Z) (d : Date) :
  mail_columns h R d = take 4 (csv_columns h R b d).
Proof.
  unfold mail_columns, csv_columns. cbn [take].
  destruct (getLatestOf_default (record_of h R d) None b) as (-> & -> & ->).
  reflexivity.
Qed.

Lemma length_csv_columns h (R : Records) (b : option Z) (d : Date) :
  length (csv_columns h R b d) = 5%nat.
Proof. reflexivity. Qed.

Lemma length_mail_columns h (R : Records) (d : Date) :
  length (mail_columns h R d) = 4%nat.
Proof. reflexivity. Qed.

(** A row of five columns is the row of the first four, a comma and the
    fifth column in its quotes. *)
Lemma row_five (a b c d e : string) :
  row [a; b; c; d; e] = row [a; b; c; d] +:+ "," +:+ wrap e.
Proof. unfold row. cbn [map join]. by rewrite !app_assoc. Qed.

Lemma row_five_text (a b c d e : string) :
  row [a; b; c; d; e]
  = wrap a +:+ "," +:+ wrap b +:+ "," +:+ wrap c +:+ "," +:+ wrap d
    +:+ "," +:+ wrap e.
Proof. reflexivity. Qed.

Lemma row_four_text (a b c d : string) :
  row [a; b; c; d] = wrap a +:+ "," +:+ wrap b +:+ "," +:+ wrap c +:+ "," +:+ wrap d.
Proof. reflexivity. Qed.

Lemma format_HHmm_valid h (t : Z) : is_HHmm (format_HHmm h (DateAt t)).
Proof.
  exists (hour h t), (minute h t). repeat split; try done;
    apply Z.mod_pos_bound; lia.
Qed.

Lemma format_HHmm_cases h (d : Date) :
  is_HHmm (format_HHmm h d) \/ format_HHmm h d = INVALID_DATE_STRING.
Proof. destruct d as [t|]; [left; apply format_HHmm_valid|by right]. Qed.

Lemma clock_room_hours h (b : Z) :
  clock_room h b ->
  - maxTime + (Z.abs (b / 60) + 100) * msPerHour <= now h
  <= maxTime - (Z.abs (b / 60) + 100) * msPerHour.
Proof.
  unfold clock_room, msPerHour, msPerMinute. intros Hb.
  assert (Z.abs (b / 60) * 60 <= Z.abs b + 60) by (Z.div_mod_to_equations; lia).
  lia.
Qed.

Lemma rem_60_bound (b : Z) : -60 < Z.rem b 60 < 60.
Proof. pose proof (Z.rem_bound_abs b 60 ltac:(lia)). lia. Qed.

(** The break length text, when the clock has room: the clock set to the
    hours and the minutes. *)
Lemma breakTimeLength_text_clock h (b : Z) :
  clock_room h b ->
  breakTimeLength_text h b
  = pad 2 ((b / 60 + Z.rem b 60 / 60) mod 24) +:+ ":" +:+ pad 2 (Z.rem b 60 mod 60).
Proof.
  intros Hb. unfold breakTimeLength_text.
  destruct (set_hour_minute h (now h) (b / 60) (Z.rem b 60))
    as (t' & -> & Hh & Hm); [apply rem_60_bound|by apply clock_room_hours|].
  unfold format_HHmm. by rewrite Hh, Hm.
Qed.

(** A break of no minute or more: the hours wrap at 24. *)
Lemma breakTimeLength_text_wrap h (b : Z) :
  0 <= b -> clock_room h b ->
  breakTimeLength_text h b
  = pad 2 ((b / 60) mod 24) +:+ ":" +:+ pad 2 (b mod 60).
Proof.
  intros Hb Hroom. rewrite breakTimeLength_text_clock by done.
  rewrite Z.rem_mod_nonneg by lia.
  rewrite (Z.div_small (b mod 60)) by (apply Z.mod_pos_bound; lia).
  by rewrite Z.add_0_r, Z.mod_mod.
Qed.

Lemma breakTimeLength_text_day h (b : Z) :
  0 <= b < 1440 -> clock_room h b ->
  breakTimeLength_text h b = pad 2 (b / 60) +:+ ":" +:+ pad 2 (b mod 60).
Proof.
  intros Hb Hroom. rewrite breakTimeLength_text_wrap by (lia || done).
  rewrite (Z.mod_small (b / 60)); [done|].
  split; [apply Z.div_pos; lia|apply Z.div_lt_upper_bound; lia].
Qed.

Lemma breakTimeLength_text_cases h (b : Z) :
  is_HHmm (breakTimeLength_text h b)
  \/ breakTimeLength_text h b = INVALID_DATE_STRING.
Proof. apply format_HHmm_cases. Qed.

Lemma time_column_text h (d : option Date) :
  time_text h d (time_column h d).
Proof.
  destruct d as [[t|]|]; [|done..]. split; [done|apply format_HHmm_valid].
Qed.

Lemma Invalid_Date_no_time : ~ HHmm_or_empty INVALID_DATE_STRING.
Proof.
  intros [H|(hh & mm & _ & _ & H)]; [done|].
  apply (f_equal String.length) in H.
  rewrite !length_app, !length_pad in H. done.
Qed.

Lemma breakTimeLength_column_cases h (latest : LatestSession) :
  HHmm_or_empty (breakTimeLength_column h latest)
  \/ breakTimeLength_column h latest = INVALID_DATE_STRING.
Proof.
  unfold breakTimeLength_column.
  repeat case_match; try (by left; left).
  destruct (breakTimeLength_text_cases h z); [left; by right|by right].
Qed.

(** The rows of both exporters, day by day. *)
Lemma csv_rows_valid h (t : Z) (R : Records) (b : option Z) :
  formatSpecifiedMonthRecordsAsCsvForMail h (DateAt t) R b
  = Ok (map (fun d => row (csv_columns h R b d)) (days_of h t)).
Proof.
  unfold formatSpecifiedMonthRecordsAsCsvForMail.
  by rewrite getDaysInMonth_valid.
Qed.

Lemma bodyLines_valid h (t : Z) (R : Records) :
  bodyLines h (DateAt t) R
  = Ok (map (fun d => row (mail_columns h R d)) (days_of h t)).
Proof. unfold bodyLines. by rewrite getDaysInMonth_valid. Qed.

Lemma csv_rows_inv h (first : Date) (R : Records) (b : option Z)
    (rows : list string) :
  formatSpecifiedMonthRecordsAsCsvForMail h first R b = Ok rows ->
  exists t, first = DateAt t
    /\ rows = map (fun d => row (csv_columns h R b d)) (days_of h t).
Proof.
  destruct first as [t|]; [|done].
  rewrite csv_rows_valid. intros [= <-]. eauto.
Qed.

Lemma bodyLines_inv h (first : Date) (R : Records) (lines : list string) :
  bodyLines h first R = Ok lines ->
  exists t, first = DateAt t
    /\ lines = map (fun d => row (mail_columns h R d)) (days_of h t).
Proof.
  destruct first as [t|]; [|done].
  rewrite bodyLines_valid. intros [= <-]. eauto.
Qed.

Lemma lookup_map_days {A : Type} (f : Date -> A) h (t : Z) (i : nat) (x : A) :
  map f (days_of h t) !! i = Some x ->
  exists d, days_of h t !! i = Some d /\ x = f d.
Proof.
  rewrite map_fmap, list_lookup_fmap.
  destruct (days_of h t !! i) as [d|]; [|done].
  intros [= <-]. eauto.
Qed.

End ExportFacts.

(** ** Facts on reading the exports back *)

Module ReaderFacts.
Import Text TextFacts Exporters Readers.

Lemma all_chars_app (p : ascii -> bool) (s t : string) :
  all_chars p (s +:+ t) = all_chars p s && all_chars p t.
Proof.
  induction s as [|c s IH]; [done|].
  rewrite app_cons. cbn [all_chars]. by rewrite IH, andb_assoc.
Qed.

Lemma decode_encode_byte (c : ascii) (t : string) :
  decodeURIComponent (encode_byte c +:+ t)
  = rest ← decodeURIComponent t; Some (String c rest).
Proof. destruct c as [[] [] [] [] [] [] [] []]; reflexivity. Qed.

(** Decoding an encoded text gives the text. *)
Lemma decode_encode (s : string) :
  decodeURIComponent (encodeURIComponent s) = Some s.
Proof.
  induction s as [|c s IH]; [done|].
  cbn [encodeURIComponent]. by rewrite decode_encode_byte, IH.
Qed.

Lemma encode_byte_safe (c : ascii) : all_chars uri_safe (encode_byte c) = true.
Proof. destruct c as [[] [] [] [] [] [] [] []]; reflexivity. Qed.

(** An encoded text holds unreserved characters and [%XX] escapes only:
    no [?], [&], [=], space or line break. *)
Lemma encode_safe (s : string) :
  all_chars uri_safe (encodeURIComponent s) = true.
Proof.
  induction s as [|c s IH]; [done|].
  cbn [encodeURIComponent]. by rewrite all_chars_app, encode_byte_safe, IH.
Qed.

(** [encodeURIComponent] percent-encodes. *)
Lemma encode_byte_percent (c : ascii) :
  encode_byte c = if occurs c uri_unescaped then String c "" else percent_escape c.
Proof. destruct c as [[] [] [] [] [] [] [] []]; reflexivity. Qed.

Lemma encode_percent (s : string) : encodeURIComponent s = percent_encoded s.
Proof.
  induction s as [|c s IH]; [done|].
  cbn [encodeURIComponent percent_encoded]. by rewrite encode_byte_percent, IH.
Qed.

(** *** Quoted records *)

Lemma length_double_quotes (s : string) :
  String.length (double_quotes s) = (String.length s + dquotes s)%nat.
Proof.
  induction s as [|c s IH]; [done|].
  cbn [double_quotes dquotes String.length].
  case_decide; cbn [String.length]; lia.
Qed.

Lemma double_quotes_plain (s : string) : dquotes s = O -> double_quotes s = s.
Proof.
  induction s as [|c s IH]; [done|].
  cbn [double_quotes dquotes]. case_decide as Hc; [done|].
  intros Hd. by rewrite IH.
Qed.

Lemma length_wrap (s : string) : String.length (wrap s) = (String.length s + 2)%nat.
Proof. unfold wrap. cbn [String.length]. rewrite length_app. cbn. lia. Qed.

Lemma length_quoted_field (s : string) :
  String.length (quoted_field s) = (String.length s + dquotes s + 2)%nat.
Proof.
  unfold quoted_field. cbn [String.length].
  rewrite length_app, length_double_quotes. cbn. lia.
Qed.

Lemma wrap_plain (s : string) : dquotes s = O -> wrap s = quoted_field s.
Proof. intros H. unfold wrap, quoted_field. by rewrite double_quotes_plain. Qed.

Lemma field_body_double (s rest : string) :
  ends_field rest ->
  field_body (double_quotes s +:+ String JSON.dquote rest) = Some (s, rest).
Proof.
  intros Hr. induction s as [|c s IH].
  - cbn [double_quotes]. rewrite app_nil_l. cbn [field_body].
    rewrite decide_True by done.
    destruct rest as [|c' r']; [done|]. by rewrite decide_False.
  - cbn [double_quotes]. case_decide as Hc.
    + rewrite !app_cons. cbn [field_body]. rewrite !decide_True by done.
      rewrite IH. subst c. reflexivity.
    + rewrite app_cons. cbn [field_body]. rewrite decide_False by done.
      by rewrite IH.
Qed.

Lemma field_body_sound_le (n : nat) (s f rest : string) :
  (String.length s <= n)%nat ->
  field_body s = Some (f, rest) ->
  s = double_quotes f +:+ String JSON.dquote rest.
Proof.
  revert s f rest. induction n as [|n IH]; intros s f rest Hn;
    (destruct s as [|c r]; [done|]); cbn [String.length] in Hn; [lia|].
  cbn [field_body]. case_decide as Hc.
  - subst c. destruct r as [|c' r'].
    + intros [= <- <-]. reflexivity.
    + case_decide as Hc'.
      * subst c'. destruct (field_body r') as [[f' rest']|] eqn:Hf; [|done].
        cbn [mbind option_bind]. intros [= <- <-].
        apply IH in Hf; [|cbn [String.length] in Hn; lia]. subst r'.
        cbn [double_quotes]. rewrite decide_True by done. by rewrite !app_cons.
      * intros [= <- <-]. reflexivity.
  - destruct (field_body r) as [[f' rest']|] eqn:Hf; [|done].
    cbn [mbind option_bind]. intros [= <- <-].
    apply IH in Hf; [|lia]. subst r.
    cbn [double_quotes]. rewrite decide_False by done. by rewrite app_cons.
Qed.

Lemma field_body_sound (s f rest : string) :
  field_body s = Some (f, rest) ->
  s = double_quotes f +:+ String JSON.dquote rest.
Proof. by apply (field_body_sound_le (String.length s)). Qed.

Lemma read_fields_sound (fuel : nat) (s : string) (cols : list string) :
  read_fields fuel s = Some cols -> s = quoted_record cols.
Proof.
  revert s cols. induction fuel as [|fuel IH]; intros s cols; [done|].
  cbn [read_fields]. destruct s as [|c r]; [done|].
  case_decide as Hc; [|done]. subst c.
  destruct (field_body r) as [[f rest]|] eqn:Hf; [|done].
  cbn [mbind option_bind]. apply field_body_sound in Hf. subst r.
  destruct rest as [|c' rest'].
  - intros [= <-]. reflexivity.
  - case_decide as Hc'; [|done]. subst c'.
    destruct (read_fields fuel rest') as [fs|] eqn:Hfs; [|done].
    cbn [mbind option_bind]. intros [= <-].
    pose proof Hfs as Hread. apply IH in Hfs. subst rest'.
    unfold quoted_record. destruct fs as [|f' fs'].
    + (* no text reads as an empty list of fields *)
      exfalso. clear -Hread. revert Hread. unfold quoted_record. cbn [map join].
      destruct fuel; done.
    + change (join "," (map quoted_field (f :: f' :: fs')))
        with (quoted_field f +:+ "," +:+ join "," (map quoted_field (f' :: fs'))).
      unfold quoted_field. by norm_app.
Qed.

Lemma read_fields_complete (cols : list string) :
  cols <> [] -> forall fuel, (length cols <= fuel)%nat ->
  read_fields fuel (quoted_record cols) = Some cols.
Proof.
  induction cols as [|f cols IH]; [done|]. intros _ fuel Hfuel.
  destruct fuel as [|fuel]; [cbn in Hfuel; lia|].
  unfold quoted_record. destruct cols as [|f' cols'].
  - cbn [map join]. unfold quoted_field. cbn [read_fields].
    rewrite decide_True by done. by rewrite field_body_double.
  - change (join "," (map quoted_field (f :: f' :: cols')))
      with (quoted_field f +:+ "," +:+ quoted_record (f' :: cols')).
    unfold quoted_field at 1. norm_app. cbn [read_fields].
    rewrite decide_True by done.
    rewrite field_body_double by done. cbn [mbind option_bind].
    rewrite decide_True by done.
    rewrite IH by (done || cbn in *; lia). reflexivity.
Qed.

Lemma length_join (sep : string) (l : list string) :
  (String.length (join sep l) + String.length sep
   = list_sum (map (fun s => String.length s + String.length sep) l))%nat
  \/ l = [].
Proof.
  induction l as [|s l IH]; [by right|]. left.
  destruct l as [|s' l'].
  - cbn. lia.
  - destruct IH as [IH|IH]; [|done].
    change (join sep (s :: s' :: l')) with (s +:+ sep +:+ join sep (s' :: l')).
    rewrite !length_app. unfold list_sum in *. cbn [map fold_right] in *. lia.
Qed.

Lemma quoted_lengths (k : nat) (l : list string) :
  (list_sum (map (fun x => String.length (quoted_field x) + k) l)
   = list_sum (map (fun x => String.length (wrap x) + k) l)
     + list_sum (map dquotes l))%nat.
Proof.
  induction l as [|x l IH]; [done|].
  unfold list_sum in *. cbn [map fold_right].
  rewrite length_wrap, length_quoted_field. lia.
Qed.

Lemma no_dquotes (l : list string) :
  list_sum (map dquotes l) = O -> Forall (fun c => dquotes c = O) l.
Proof.
  induction l as [|x l IH]; [constructor|].
  unfold list_sum in *. cbn [map fold_right]. intros H.
  constructor; [lia|]. apply IH. lia.
Qed.

(** A row that is also the properly quoted record of its columns has no
    double quote in any column. *)
Lemma row_length_gap (cols : list string) :
  row cols = quoted_record cols -> Forall (fun c => dquotes c = O) cols.
Proof.
  intros Heq. apply (f_equal String.length) in Heq.
  unfold row, quoted_record in Heq.
  destruct cols as [|c cols]; [constructor|].
  destruct (length_join "," (map wrap (c :: cols))) as [H1|H1]; [|done].
  destruct (length_join "," (map quoted_field (c :: cols))) as [H2|H2]; [|done].
  rewrite Heq in H1. rewrite H1 in H2. clear Heq H1.
  rewrite !map_map in H2. rewrite quoted_lengths in H2.
  apply no_dquotes. lia.
Qed.

(** A row whose columns hold no double quote reads back as its columns,
    commas and line breaks included. *)
Lemma read_record_plain (cols : list string) :
  cols <> [] -> Forall (fun c => dquotes c = O) cols ->
  read_record (row cols) = Some cols.
Proof.
  intros Hne Hplain. unfold read_record.
  assert (row cols = quoted_record cols) as Heq.
  { unfold row, quoted_record. f_equal.
    induction Hplain as [|c l Hc _ IH]; [done|].
    cbn [map]. rewrite wrap_plain by done. f_equal.
    destruct l; [done|]. by apply IH. }
  rewrite Heq. apply read_fields_complete; [done|].
  rewrite <- Heq. clear Heq Hplain Hne. unfold row.
  induction cols as [|c l IH]; [cbn; lia|].
  destruct l as [|c' l'].
  - cbn [map join length]. rewrite length_wrap. lia.
  - change (join "," (map wrap (c :: c' :: l')))
      with (wrap c +:+ "," +:+ join "," (map wrap (c' :: l'))).
    rewrite !length_app, length_wrap. cbn [length] in *. lia.
Qed.

(** A row with a double quote in some column does not read back as its
    columns: the reader rejects it or returns other fields. *)
Lemma read_record_dquote (cols : list string) :
  Exists has_dquote cols -> read_record (row cols) <> Some cols.
Proof.
  intros Hex Hread. apply read_fields_sound, row_length_gap in Hread.
  apply Exists_exists in Hex as (c & Hin & Hc).
  rewrite Forall_forall in Hread. specialize (Hread c Hin).
  unfold has_dquote in Hc. lia.
Qed.

(** *** No double quote in a date, a time or a break length *)

Lemma dquotes_app (s t : string) : dquotes (s +:+ t) = (dquotes s + dquotes t)%nat.
Proof.
  induction s as [|c s IH]; [done|].
  rewrite app_cons. cbn [dquotes]. rewrite IH. lia.
Qed.

Lemma dquotes_pad (w : nat) (n : Z) : dquotes (pad w n) = O.
Proof.
  induction w as [|w IH]; [done|].
  rewrite pad_S. cbn [dquotes]. rewrite IH, decide_False; [done|].
  destruct (ISOFacts.digit_cases (n / 10 ^ Z.of_nat w)) as [H|H];
    repeat (destruct H as [H|H]); rewrite H; discriminate.
Qed.

Lemma dquotes_pretty_N_go (x : N) (s : string) :
  dquotes (pretty_N_go x s) = dquotes s.
Proof.
  revert s. induction (N.lt_wf_0 x) as [x _ IH]. intros s.
  destruct (decide (x = 0%N)) as [->|Hx]; [by rewrite pretty_N_go_0|].
  rewrite pretty_N_go_step by lia. rewrite IH by (apply N.div_lt; lia).
  cbn [dquotes]. rewrite decide_False; [done|].
  unfold pretty_N_char. repeat case_match; discriminate.
Qed.

Lemma dquotes_pretty_Z (z : Z) : dquotes (pretty z) = O.
Proof.
  destruct z as [|p|p]; cbn [pretty pretty_Z]; [done| |].
  - unfold pretty, pretty_positive, pretty, pretty_N.
    case_decide; [done|]. apply dquotes_pretty_N_go.
  - rewrite app_cons, app_nil_l. cbn [dquotes]. rewrite decide_False by done.
    unfold pretty, pretty_positive, pretty, pretty_N.
    case_decide; [done|]. apply dquotes_pretty_N_go.
Qed.

Lemma dquotes_format_YYYY_MM_DD h (d : Date) :
  dquotes (Dayjs.format_YYYY_MM_DD h d) = O.
Proof.
  destruct d as [t|]; [|done]. unfold Dayjs.format_YYYY_MM_DD.
  rewrite !dquotes_app, dquotes_pretty_Z, !dquotes_pad. reflexivity.
Qed.

Lemma dquotes_format_HHmm h (d : Date) : dquotes (Dayjs.format_HHmm h d) = O.
Proof.
  destruct d as [t|]; [|done]. unfold Dayjs.format_HHmm.
  rewrite !dquotes_app, !dquotes_pad. reflexivity.
Qed.

Lemma dquotes_time_column h (d : option Date) : dquotes (time_column h d) = O.
Proof. destruct d; [apply dquotes_format_HHmm|done]. Qed.

Lemma dquotes_breakTimeLength_column h (latest : LatestSession) :
  dquotes (breakTimeLength_column h latest) = O.
Proof.
  unfold breakTimeLength_column, breakTimeLength_text.
  repeat case_match; try done; apply dquotes_format_HHmm.
Qed.

(** A row of the CSV exporter reads back as its columns exactly when the
    memo holds no double quote. *)
Lemma csv_row_reads_back h (R : Records) (b : option Z) (d : Date) :
  let cols := csv_columns h R b d in
  let m := memo (getLatestOf (record_of h R d) b) in
  (dquotes m = O -> read_record (row cols) = Some cols)
  /\ (has_dquote m -> read_record (row cols) <> Some cols).
Proof.
  intros cols m. split.
  - intros Hm. apply read_record_plain; [done|].
    repeat apply List.Forall_cons; [..|apply List.Forall_nil];
      auto using dquotes_format_YYYY_MM_DD, dquotes_time_column,
        dquotes_breakTimeLength_column.
  - intros Hm. apply read_record_dquote.
    do 3 apply Exists_cons_tl. by apply Exists_cons_hd.
Qed.

(** The same for a row of the mail body. *)
Lemma mail_row_reads_back h (R : Records) (d : Date) :
  let cols := mail_columns h R d in
  let m := memo (getLatestOf (record_of h R d) None) in
  (dquotes m = O -> read_record (row cols) = Some cols)
  /\ (has_dquote m -> read_record (row cols) <> Some cols).
Proof.
  intros cols m. split.
  - intros Hm. apply read_record_plain; [done|].
    repeat apply List.Forall_cons; [..|apply List.Forall_nil];
      auto using dquotes_format_YYYY_MM_DD, dquotes_time_column.
  - intros Hm. apply read_record_dquote.
    do 3 apply Exists_cons_tl. by apply Exists_cons_hd.
Qed.

End ReaderFacts.

(** ** Record keys *)

(** A record key is no field of a day: it starts with a digit of the year,
    or with the sign of a year before 1 BC (or is the text of the invalid
    date). *)
Lemma makeRecordKey_not_date_field h (d : Date) :
  not_date_field (makeRecordKey h d).
Proof.
  destruct d as [t|]; [|by split].
  unfold makeRecordKey, Dayjs.format_YYYYMMDD.
  destruct (Numeral.pretty_Z_head (Dayjs.year h t)) as [Hd|[r Hr]].
  - apply StoreFacts.head_digit_not_date_field.
    destruct (pretty (Dayjs.year h t)); [done|]. by rewrite TextFacts.app_cons.
  - rewrite Hr, TextFacts.app_cons. by split.
Qed.

(** ** Which values the reviver takes *)

Module RevivalFacts.
Import JSON Store StoreFacts.

Lemma date_key_false (k : string) : date_key k = false <-> not_date_field k.
Proof.
  unfold date_key, not_date_field. rewrite bool_decide_eq_false. tauto.
Qed.

Lemma walk_elems_ok {A B : Type} (f : nat -> A -> result B) (l : list A) :
  Forall (fun x => forall i, exists x', f i x = Ok x') l ->
  forall i, exists l', walk_elems f i l = Ok l'.
Proof.
  induction 1 as [|x l Hx _ IH]; intros i; cbn [walk_elems]; [eauto|].
  destruct (Hx i) as [x' ->]. destruct (IH (S i)) as [l' ->]. cbn. eauto.
Qed.

Lemma walk_elems_fails {A B : Type} (f : nat -> A -> result B) (l : list A) :
  Exists (fun x => forall i, exists e, f i x = Throw e) l ->
  forall i, exists e, walk_elems f i l = Throw e.
Proof.
  induction 1 as [x l Hx|x l _ IH]; intros i; cbn [walk_elems].
  - destruct (Hx i) as [e ->]. cbn. eauto.
  - destruct (f i x) as [x'|e]; cbn; [|eauto].
    destruct (IH (S i)) as [e ->]. cbn. eauto.
Qed.

Lemma walk_props_ok {A B : Type} (f : string -> A -> result B)
    (ps : list (string * A)) :
  Forall (fun kv => exists x', f (fst kv) (snd kv) = Ok x') ps ->
  exists ps', walk_props f ps = Ok ps'.
Proof.
  induction 1 as [|kv ps [x' Hx] _ [ps' IH]]; cbn [walk_props]; [eauto|].
  rewrite Hx, IH. cbn. eauto.
Qed.

Lemma walk_props_fails {A B : Type} (f : string -> A -> result B)
    (ps : list (string * A)) :
  Exists (fun kv => exists e, f (fst kv) (snd kv) = Throw e) ps ->
  exists e, walk_props f ps = Throw e.
Proof.
  induction 1 as [kv ps [e Hx]|kv ps _ [e IH]]; cbn [walk_props].
  - rewrite Hx. cbn. eauto.
  - destruct (f (fst kv) (snd kv)) as [x'|e']; cbn; [|eauto].
    rewrite IH. cbn. eauto.
Qed.

(** What a walk that succeeds returns: element by element, property by
    property, under the same keys. *)
Lemma walk_elems_inv {A B : Type} (f : nat -> A -> result B) (l : list A)
    (i : nat) (l' : list B) :
  walk_elems f i l = Ok l' ->
  Forall2 (fun x x' => exists j, f j x = Ok x') l l'.
Proof.
  revert i l'. induction l as [|x l IH]; intros i l'; cbn [walk_elems].
  - intros [= <-]. constructor.
  - destruct (f i x) as [x'|e] eqn:Hx; cbn [mbind result_bind]; [|done].
    destruct (walk_elems f (S i) l) as [xs|e] eqn:Hl; cbn [mbind result_bind];
      [|done].
    intros [= <-]. constructor; [eauto|]. by eapply IH.
Qed.

Lemma walk_props_inv {A B : Type} (f : string -> A -> result B)
    (ps : list (string * A)) (ps' : list (string * B)) :
  walk_props f ps = Ok ps' ->
  Forall2 (fun kv kv' => fst kv' = fst kv /\ f (fst kv) (snd kv) = Ok (snd kv'))
    ps ps'.
Proof.
  revert ps'. induction ps as [|kv ps IH]; intros ps'; cbn [walk_props].
  - intros [= <-]. constructor.
  - destruct (f (fst kv) (snd kv)) as [x'|e] eqn:Hx; cbn [mbind result_bind];
      [|done].
    destruct (walk_props f ps) as [xs|e] eqn:Hl; cbn [mbind result_bind]; [|done].
    intros [= <-]. constructor; [done|]. by apply IH.
Qed.

Lemma existsb_Forall2 {A : Type} (p : A -> bool) (l l' : list A) :
  Forall2 (fun x x' => p x' = p x) l l' -> existsb p l' = existsb p l.
Proof. induction 1 as [|x x' l l' Hx _ IH]; [done|]. cbn. by rewrite Hx, IH. Qed.

Lemma existsb_dates {A : Type} (f : A -> Date) (l : list A) :
  existsb no_primitive (map (fun x => VDate (f x)) l) = false.
Proof. by induction l. Qed.

(** What the reviver returns holds an array where it was given one, and
    has a primitive value where what it was given had. *)
Lemma reviver_inv h (k : string) (v v' : value) :
  reviver h k v = Ok v' ->
  is_array v' = is_array v /\ no_primitive v' = no_primitive v
  /\ (date_key k = true -> is_array v = true /\ no_primitive v = false).
Proof.
  unfold reviver, date_key. case_decide as Hk.
  - destruct v as [| | | | |l|]; try done.
    destruct (existsb no_primitive l) eqn:Hl.
    + by rewrite walk_dates_fails.
    + rewrite walk_dates_ok by done. cbn [mbind result_bind]. intros [= <-].
      cbn [is_array no_primitive]. by rewrite existsb_dates, Hl.
  - intros [= <-]. rewrite bool_decide_eq_false_2 by done. done.
Qed.

(** Reviving keeps arrays arrays, and keeps what has a primitive
    value. *)
Lemma internalize_inv h (v : value) :
  forall (name : string) (v' : value),
    internalize (reviver h) name v = Ok v' ->
    is_array v' = is_array v /\ no_primitive v' = no_primitive v.
Proof.
  induction v as [|b|l|s|d|l IH|ps IH] using value_ind; intros name v';
    try (rewrite internalize_scalar by done;
         intros (Ha & Hp & _)%reviver_inv; done).
  - rewrite internalize_arr.
    destruct (walk_elems _ 0 l) as [l'|e] eqn:Hw; cbn [mbind result_bind]; [|done].
    intros (Ha & Hp & _)%reviver_inv. split; [done|]. rewrite Hp.
    cbn [no_primitive]. apply existsb_Forall2.
    apply walk_elems_inv in Hw. clear Ha Hp.
    induction Hw as [|x x' l l' [j Hx] _ IHw]; [constructor|].
    apply Forall_cons in IH as [IHx IH].
    constructor; [by apply (IHx _ _ Hx)|by apply IHw].
  - rewrite internalize_obj.
    destruct (walk_props _ ps) as [ps'|e] eqn:Hw; cbn [mbind result_bind]; [|done].
    intros (Ha & Hp & _)%reviver_inv. split; [done|]. rewrite Hp.
    cbn [no_primitive]. apply walk_props_inv in Hw.
    assert (map fst ps' = map fst ps) as ->; [|done].
    clear -Hw. induction Hw as [|kv kv' ps ps' [Hk _] _ IHw]; [done|].
    cbn [map]. by rewrite Hk, IHw.
Qed.

(** Reviving a value under a name succeeds when every date field inside
    holds an array of values with a primitive value, and the value is such
    an array if the name is a date field. *)
Lemma internalize_ok h (v : value) :
  date_fields_convert v = true ->
  forall name,
    date_key name = false \/ (is_array v = true /\ no_primitive v = false) ->
    exists v', internalize (reviver h) name v = Ok v'.
Proof.
  induction v as [|b|l|s|d|l IH|ps IH] using value_ind; intros Hv name Hn;
    try (destruct Hn as [Hn|[Hn _]]; [|done];
         rewrite internalize_scalar by done;
         rewrite reviver_other by (by apply date_key_false); eauto).
  - rewrite internalize_arr.
    destruct (walk_elems_ok (fun i x => internalize (reviver h) (pretty i) x) l)
      with (i := O) as [l' Hw].
    { cbn [date_fields_convert] in Hv. rewrite forallb_forall in Hv.
      rewrite Forall_forall in IH. apply Forall_forall. intros x Hx i.
      apply (IH x Hx (Hv x (proj1 (list_elem_of_In _ _) Hx)) (pretty i)).
      left. apply date_key_false, index_not_date_field. }
    rewrite Hw. cbn [mbind result_bind].
    destruct (date_key name) eqn:Hk.
    + destruct Hn as [Hn|[_ Hn]]; [done|].
      rewrite reviver_date_field; [eauto|by apply bool_decide_eq_true in Hk|].
      cbn [no_primitive] in Hn. rewrite <- Hn. apply existsb_Forall2.
      apply walk_elems_inv in Hw. eapply Forall2_impl; [exact Hw|].
      intros x x' [j Hx]. by apply internalize_inv in Hx as [_ Hx].
    + rewrite reviver_other by (by apply date_key_false). eauto.
  - destruct Hn as [Hn|[Hn _]]; [|done].
    rewrite internalize_obj.
    destruct (walk_props_ok (fun k x => internalize (reviver h) k x) ps)
      as [ps' ->].
    { cbn [date_fields_convert] in Hv. rewrite forallb_forall in Hv.
      rewrite Forall_forall in IH. apply Forall_forall. intros kv Hkv.
      specialize (Hv kv (proj1 (list_elem_of_In _ _) Hkv)).
      apply andb_true_iff in Hv as [Hk Hx].
      apply (IH kv Hkv Hx (fst kv)).
      apply orb_true_iff in Hk as [Hk|Hk]; [left; by apply negb_true_iff|].
      right. apply andb_true_iff in Hk as [Ha Hp].
      split; [done|by apply negb_true_iff]. }
    cbn [mbind result_bind]. rewrite reviver_other by (by apply date_key_false).
    eauto.
Qed.

Lemma forallb_false {A : Type} (f : A -> bool) (l : list A) :
  forallb f l = false -> exists x, x ∈ l /\ f x = false.
Proof.
  induction l as [|x l IH]; [done|]. cbn [forallb].
  intros [Hx|Hl]%andb_false_iff.
  - exists x. split; [apply list_elem_of_here|done].
  - destruct (IH Hl) as (y & Hy & Hf). exists y.
    split; [by apply list_elem_of_further|done].
Qed.

(** Reviving fails when a date field inside holds no array, or an array
    with an element that has no primitive value, or when the value itself
    stands under a date field and is no such array. *)
Lemma internalize_fails h (v : value) :
  forall name,
    date_fields_convert v = false
    \/ (date_key name = true /\ (is_array v = false \/ no_primitive v = true)) ->
    exists e, internalize (reviver h) name v = Throw e.
Proof.
  induction v as [|b|l|s|d|l IH|ps IH] using value_ind; intros name Hn;
    try (destruct Hn as [Hn|[Hn _]]; [done|];
         rewrite internalize_scalar by done; unfold reviver;
         rewrite decide_True by (by apply bool_decide_eq_true in Hn); eauto).
  - rewrite internalize_arr.
    destruct Hn as [Hn|[Hk [Hn|Hn]]]; [|done|].
    + destruct (walk_elems_fails (fun i x => internalize (reviver h) (pretty i) x) l)
        with (i := O) as [e ->]; [|cbn; eauto].
      cbn [date_fields_convert] in Hn.
      apply forallb_false in Hn as (x & Hx & Hbad).
      apply Exists_exists. exists x. split; [done|].
      intros i. rewrite Forall_forall in IH. apply (IH x Hx). by left.
    + destruct (walk_elems _ 0 l) as [l'|e] eqn:Hw; cbn [mbind result_bind];
        [|eauto].
      rewrite reviver_date_field_fails; [eauto|by apply bool_decide_eq_true in Hk|].
      cbn [no_primitive] in Hn. rewrite <- Hn. apply existsb_Forall2.
      apply walk_elems_inv in Hw. eapply Forall2_impl; [exact Hw|].
      intros x x' [j Hx]. by apply internalize_inv in Hx as [_ Hx].
  - rewrite internalize_obj.
    destruct Hn as [Hn|[Hn _]].
    + destruct (walk_props_fails (fun k x => internalize (reviver h) k x) ps)
        as [e ->]; [|cbn; eauto].
      cbn [date_fields_convert] in Hn.
      apply forallb_false in Hn as (kv & Hkv & Hbad).
      apply Exists_exists. exists kv. split; [done|].
      rewrite Forall_forall in IH. apply (IH kv Hkv).
      apply andb_false_iff in Hbad as [Hbad|Hbad]; [right|by left].
      apply orb_false_iff in Hbad as [Hk Ha].
      split; [by apply negb_false_iff in Hk|].
      apply andb_false_iff in Ha as [Ha|Ha]; [by left|right].
      by apply negb_false_iff.
    + destruct (walk_props (fun k x => internalize (reviver h) k x) ps)
        as [ps'|e]; cbn; [|eauto].
      unfold reviver. rewrite decide_True by (by apply bool_decide_eq_true in Hn).
      eauto.
Qed.

(** Arrays of strings, numbers, booleans and [null]s hold only values
    with a primitive value. *)
Lemma array_of_primitives_convert (v : value) :
  array_of_primitives v = true -> is_array v = true /\ no_primitive v = false.
Proof.
  destruct v as [| | | | |l|]; try done. cbn. intros Hl. split; [done|].
  induction l as [|x l IH]; [done|].
  cbn in Hl. apply andb_true_iff in Hl as [Hx Hl].
  cbn [existsb]. rewrite IH by done. by destruct x.
Qed.

Lemma date_fields_primitive_convert (v : value) :
  date_fields_primitive v = true -> date_fields_convert v = true.
Proof.
  induction v as [|b|l|s|d|l IH|ps IH] using value_ind; try done.
  - cbn [date_fields_primitive date_fields_convert].
    rewrite !forallb_forall. intros Hl x Hx. rewrite Forall_forall in IH.
    apply IH; [by apply list_elem_of_In|by apply Hl].
  - cbn [date_fields_primitive date_fields_convert].
    rewrite !forallb_forall. intros Hl kv Hkv. rewrite Forall_forall in IH.
    specialize (Hl kv Hkv). apply andb_true_iff in Hl as [Hk Hx].
    apply andb_true_iff. split; [|apply IH; [by apply list_elem_of_In|done]].
    apply orb_true_iff in Hk as [Hk|Hk]; apply orb_true_iff; [by left|right].
    apply array_of_primitives_convert in Hk as [-> ->]. done.
Qed.

Lemma date_fields_convert_arrays (v : value) :
  date_fields_convert v = true -> date_fields_are_arrays v = true.
Proof.
  induction v as [|b|l|s|d|l IH|ps IH] using value_ind; try done.
  - cbn [date_fields_are_arrays date_fields_convert].
    rewrite !forallb_forall. intros Hl x Hx. rewrite Forall_forall in IH.
    apply IH; [by apply list_elem_of_In|by apply Hl].
  - cbn [date_fields_are_arrays date_fields_convert].
    rewrite !forallb_forall. intros Hl kv Hkv. rewrite Forall_forall in IH.
    specialize (Hl kv Hkv). apply andb_true_iff in Hl as [Hk Hx].
    apply andb_true_iff. split; [|apply IH; [by apply list_elem_of_In|done]].
    apply orb_true_iff in Hk as [Hk|Hk]; apply orb_true_iff; [by left|right].
    by apply andb_true_iff in Hk as [Hk _].
Qed.

(** Loading a text that reads as [v]. *)
Lemma deserialize_ok h (text : string) (v : value) :
  parse_text text = Some v -> date_fields_convert v = true ->
  exists v', deserialize h (VStr text) = Ok v'.
Proof.
  intros Ht Hv. rewrite deserialize_text. unfold JSON.parse. rewrite Ht.
  apply internalize_ok; [done|by left].
Qed.

Lemma deserialize_fails h (text : string) (v : value) :
  parse_text text = Some v -> date_fields_convert v = false ->
  deserialize h (VStr text) = Throw TypeError.
Proof.
  intros Ht Hv. rewrite deserialize_text. unfold JSON.parse. rewrite Ht.
  destruct (internalize_fails h v "") as [e He]; [by left|].
  rewrite He. f_equal. by eapply PersistenceFacts.internalize_throws.
Qed.

(** Loading fails on a text that is not JSON ([SyntaxError]: the text does
    not read as one value, whatever the fuel), or on a text with a [starts]
    or a [stops] that is no array of strings, numbers, booleans and [null]s
    ([TypeError]). *)
Lemma deserialize_throws_cause h (text : string) (e : exn) :
  deserialize h (VStr text) = Throw e ->
  (e = SyntaxError
   /\ forall (f : nat) (v : value) (rest : string),
        parse_value f text = Some (v, rest) -> skip_ws rest <> "")
  \/ (e = TypeError
      /\ exists v, parse_text text = Some v /\ date_fields_primitive v = false).
Proof.
  intros He.
  destruct (PersistenceFacts.deserialize_throws h text e He) as [Hs| ->];
    [by left|].
  right. split; [done|].
  destruct (parse_text text) as [v|] eqn:Ht.
  - exists v. split; [done|].
    destruct (date_fields_primitive v) eqn:Hv; [|done].
    destruct (deserialize_ok h text v Ht (date_fields_primitive_convert v Hv))
      as [v' Hok].
    congruence.
  - rewrite deserialize_text in He. unfold JSON.parse in He.
    rewrite Ht in He. done.
Qed.

Lemma walk_elems_id (f : nat -> value -> result value) (l : list value) :
  Forall (fun x => forall i, f i x = Ok x) l ->
  forall i, walk_elems f i l = Ok l.
Proof.
  induction 1 as [|x l Hx _ IH]; intros i; cbn [walk_elems]; [done|].
  by rewrite Hx, IH.
Qed.

Lemma walk_props_id (f : string -> value -> result value)
    (ps : list (string * value)) :
  Forall (fun kv => f (fst kv) (snd kv) = Ok (snd kv)) ps ->
  walk_props f ps = Ok ps.
Proof.
  induction 1 as [|[k x] ps Hx _ IH]; cbn [walk_props]; [done|].
  cbn [fst snd] in *. by rewrite Hx, IH.
Qed.

(** A value with no date field inside, under a name that is none, is
    revived as itself. *)
Lemma internalize_no_date_key h (v : value) :
  no_date_key v = true ->
  forall name, date_key name = false ->
  internalize (reviver h) name v = Ok v.
Proof.
  induction v as [|b|l|s|d|l IH|ps IH] using value_ind; intros Hv name Hn;
    try (rewrite internalize_scalar by done;
         by rewrite reviver_other by (by apply date_key_false)).
  - rewrite internalize_arr, walk_elems_id.
    + cbn [mbind result_bind]. by rewrite reviver_other by (by apply date_key_false).
    + cbn [no_date_key] in Hv. rewrite forallb_forall in Hv.
      rewrite Forall_forall in IH. apply Forall_forall. intros x Hx i.
      apply (IH x Hx); [by apply Hv, list_elem_of_In|].
      apply date_key_false, index_not_date_field.
  - rewrite internalize_obj, walk_props_id.
    + cbn [mbind result_bind]. by rewrite reviver_other by (by apply date_key_false).
    + cbn [no_date_key] in Hv. rewrite forallb_forall in Hv.
      rewrite Forall_forall in IH. apply Forall_forall. intros kv Hkv.
      specialize (Hv kv (proj1 (list_elem_of_In _ _) Hkv)).
      apply andb_true_iff in Hv as [Hk Hx].
      apply (IH kv Hkv Hx). by apply negb_true_iff.
Qed.

(** A text in the ISO form is the same date to dayjs on every host. *)
Lemma dayjs_toDate_ISO h h' (x : string) :
  is_ISO x ->
  dayjs_toDate h (VStr x) = dayjs_toDate h' (VStr x)
  /\ dayjs_toDate h (VStr x) <> InvalidDate.
Proof. intros [t Ht]. unfold dayjs_toDate. by rewrite Ht. Qed.

Lemma rehydrate_ISO h h' (s : StoredDailyRecord) :
  Forall is_ISO (stored_starts s) -> Forall is_ISO (stored_stops s) ->
  rehydrate h s = rehydrate h' s.
Proof.
  intros Hs He. unfold rehydrate. f_equal; apply map_ext_in; intros x Hx.
  - rewrite Forall_forall in Hs.
    apply (dayjs_toDate_ISO h h' x), Hs. by apply list_elem_of_In.
  - rewrite Forall_forall in He.
    apply (dayjs_toDate_ISO h h' x), He. by apply list_elem_of_In.
Qed.

End RevivalFacts.

(** ** Months and days beyond their range *)

Module MonthFacts.
Import Calendar CalendarFacts Dayjs DayjsFacts.

Lemma MakeDay_carry (y m d : Z) :
  MakeDay y m d = MakeDay (y + m / 12) (m mod 12) d.
Proof.
  unfold MakeDay. cbv zeta.
  rewrite Z.mod_mod by lia.
  rewrite (Z.div_small (m mod 12)) by (apply Z.mod_pos_bound; lia).
  by rewrite Z.add_0_r.
Qed.

Lemma MakeDay_date (y m d k : Z) : MakeDay y m (d + k) = MakeDay y m d + k.
Proof. unfold MakeDay. lia. Qed.

Lemma date_bound (t : Z) :
  1 <= DateFromTime t <= DaysInMonth (YearFromTime t) (MonthFromTime t).
Proof.
  pose proof (DayWithinYear_bound t) as Hd.
  apply (date_in_month (YearFromTime t) (DayWithinYear t) Hd).
Qed.

(** The fields of a time are those of its day. *)
Lemma fields_of_Day (t t' : Z) :
  Day t = Day t' ->
  YearFromTime t = YearFromTime t' /\ MonthFromTime t = MonthFromTime t'
  /\ DateFromTime t = DateFromTime t'.
Proof.
  intros H. unfold DateFromTime, MonthFromTime, DayWithinYear, YearFromTime.
  by rewrite H.
Qed.

Lemma Day_of_fields (t t' : Z) :
  YearFromTime t = YearFromTime t' -> MonthFromTime t = MonthFromTime t' ->
  DateFromTime t = DateFromTime t' -> Day t = Day t'.
Proof.
  intros Hy Hm Hd. rewrite <- (MakeDay_of_time t), <- (MakeDay_of_time t').
  by rewrite Hy, Hm, Hd.
Qed.

(** The fields of a day made of a year, any month and the first date. *)
Lemma fields_MakeDate_carry (y m tw : Z) :
  0 <= tw < msPerDay ->
  let t := MakeDate (MakeDay y m 1) tw in
  YearFromTime t = y + m / 12 /\ MonthFromTime t = m mod 12
  /\ DateFromTime t = 1 /\ TimeWithinDay t = tw.
Proof.
  intros Htw t. subst t. rewrite MakeDay_carry.
  pose proof (Z.mod_pos_bound m 12).
  pose proof (DaysInMonth_bound (y + m / 12) (m mod 12)).
  apply fields_MakeDate; [lia|lia|done].
Qed.

Lemma date_field_bound h (t : Z) :
  1 <= date h t <= DaysInMonth (year h t) (month h t).
Proof. apply date_bound. Qed.

(** A day less than 99 million days from the epoch is a date in range,
    in any zone. *)
Lemma day_in_range h (D tw : Z) :
  -1440 <= utcOffset h <= 1440 -> 0 <= tw < msPerDay ->
  -99000000 <= D <= 99000000 ->
  - maxTime <= UTC h (MakeDate D tw) <= maxTime.
Proof.
  unfold UTC, MakeDate, maxTime, msPerDay, msPerMinute. lia.
Qed.

Lemma DayFromYear_bounds (y : Z) :
  -250000 <= y <= 250000 -> -98000000 <= DayFromYear y <= 98000000.
Proof. unfold DayFromYear. intros. Z.div_mod_to_equations. lia. Qed.

Lemma DaysBeforeMonth_bound (leap : bool) (m : Z) :
  0 <= DaysBeforeMonth leap m <= 335.
Proof. unfold DaysBeforeMonth. destruct leap; repeat case_match; lia. Qed.

(** [new Date (year, month, 1)]: local midnight of the first day of the
    month, months beyond the year carried into the years. *)
Lemma new_Date_first h (year mon : Z) :
  -1440 <= utcOffset h <= 1440 ->
  -200000 <= year <= 200000 -> -1200 <= mon <= 1200 ->
  let yr := if decide (0 <= year <= 99) then 1900 + year else year in
  exists t, new_Date h year mon 1 = DateAt t
    /\ Dayjs.year h t = yr + mon / 12 /\ month h t = mon mod 12
    /\ date h t = 1 /\ TimeWithinDay (LocalTime h t) = 0.
Proof.
  intros Hoff Hy Hm yr. unfold new_Date. fold yr.
  change (MakeTime 0 0 0 0) with 0.
  assert (-200000 <= yr <= 200000) as Hyr by (subst yr; case_decide; lia).
  unfold TimeClip. rewrite decide_True.
  - eexists. split; [reflexivity|].
    unfold Dayjs.year, month, date. rewrite LocalTime_UTC.
    apply fields_MakeDate_carry. unfold msPerDay. lia.
  - apply day_in_range; [done|unfold msPerDay; lia|].
    rewrite MakeDay_carry. unfold MakeDay. cbv zeta.
    assert (-101 <= mon / 12 <= 100) by (Z.div_mod_to_equations; lia).
    rewrite Z.mod_mod by lia.
    rewrite (Z.div_small (mon mod 12)) by (apply Z.mod_pos_bound; lia).
    rewrite Z.add_0_r.
    pose proof (DayFromYear_bounds (yr + mon / 12)).
    pose proof (DaysBeforeMonth_bound (InLeapYear (yr + mon / 12)) (mon mod 12)).
    lia.
Qed.

(** A year beyond the range of time values gives no date. *)
Lemma new_Date_out_of_range h (year mon : Z) :
  -1440 <= utcOffset h <= 1440 -> 276000 <= year -> -1200 <= mon <= 1200 ->
  new_Date h year mon 1 = InvalidDate.
Proof.
  intros Hoff Hy Hm. unfold new_Date. rewrite decide_False by lia.
  change (MakeTime 0 0 0 0) with 0.
  unfold TimeClip. rewrite decide_False; [done|].
  rewrite MakeDay_carry. unfold MakeDay. cbv zeta.
  assert (-101 <= mon / 12 <= 100) by (Z.div_mod_to_equations; lia).
  rewrite Z.mod_mod by lia.
  rewrite (Z.div_small (mon mod 12)) by (apply Z.mod_pos_bound; lia).
  rewrite Z.add_0_r.
  pose proof (DaysBeforeMonth_bound (InLeapYear (year + mon / 12)) (mon mod 12)).
  assert (100050000 <= DayFromYear (year + mon / 12)) as HD.
  { unfold DayFromYear. Z.div_mod_to_equations. lia. }
  unfold UTC, MakeDate, maxTime, msPerDay, msPerMinute. lia.
Qed.

(** [add (n, 'month')]: the month [n] months on, years carried; the same
    date, or the last of the month if the month is shorter; the same time
    of day. *)
Lemma add_month_fields h (t n : Z) :
  let y' := year h t + (month h t + n) / 12 in
  let m' := (month h t + n) mod 12 in
  exists t', add_month h (DateAt t) n = DateAt t'
    /\ year h t' = y' /\ month h t' = m'
    /\ date h t' = Z.min (date h t) (DaysInMonth (MakeFullYear y') m')
    /\ hour h t' = hour h t /\ minute h t' = minute h t.
Proof.
  intros y' m'. unfold add_month, set_month.
  pose proof (DaysInMonth_bound (year h t) (month h t)) as Hb.
  destruct (set_date_fields h t 1) as (t1 & -> & Hy1 & Hm1 & Hd1 & Hh1 & Hmi1);
    [lia|].
  cbv zeta.
  fold (year h t1) (date h t1). rewrite Hy1, Hd1.
  destruct (fields_MakeDate_carry (year h t) (month h t + n)
              (TimeWithinDay (LocalTime h t1)))
    as (Hy2 & Hm2 & Hd2 & Htw2); [apply TimeWithinDay_bound|].
  set (t2 := UTC h (MakeDate (MakeDay (year h t) (month h t + n) 1)
                      (TimeWithinDay (LocalTime h t1)))) in *.
  assert (year h t2 = y' /\ month h t2 = m' /\ date h t2 = 1
          /\ hour h t2 = hour h t /\ minute h t2 = minute h t)
    as (Hy & Hm & Hd & Hh & Hmi).
  { unfold year, month, date, hour, minute, t2. rewrite !LocalTime_UTC.
    rewrite Hy2, Hm2, Hd2.
    rewrite (HourFromTime_within (MakeDate _ _)), (MinFromTime_within (MakeDate _ _)).
    rewrite Htw2, <- HourFromTime_within, <- MinFromTime_within.
    repeat split; done. }
  rewrite daysInMonth_valid, Hy, Hm.
  pose proof (DaysInMonth_bound (MakeFullYear y') m') as Hb'.
  pose proof (DaysInMonth_MakeFullYear y' m') as Hle.
  pose proof (date_field_bound h t) as Hdt.
  destruct (set_date_fields h t2
              (Z.min (date h t) (DaysInMonth (MakeFullYear y') m')))
    as (t3 & -> & Hy3 & Hm3 & Hd3 & Hh3 & Hmi3); [rewrite Hy, Hm; lia|].
  exists t3. split; [done|]. rewrite Hy3, Hm3, Hd3, Hh3, Hmi3.
  repeat split; done.
Qed.

End MonthFacts.

(** ** The pages *)

Module PageFacts.
Import Calendar CalendarFacts Dayjs DayjsFacts MonthFacts ListPage
  CurrentStatePage.

Lemma hour_minute_midnight h (t : Z) :
  TimeWithinDay (LocalTime h t) = 0 -> hour h t = 0 /\ minute h t = 0.
Proof.
  intros H. unfold hour, minute.
  rewrite HourFromTime_within, MinFromTime_within, H. done.
Qed.

(** The local day of [set ('date', n)]: the day [n] of the month, also
    counted beyond the month. *)
Lemma Day_set_date h (t n : Z) :
  exists t', set_date h (DateAt t) n = DateAt t'
    /\ Day (LocalTime h t')
       = MakeDay (year h t) (month h t) 1 + n - 1
    /\ TimeWithinDay (LocalTime h t') = TimeWithinDay (LocalTime h t).
Proof.
  eexists. split; [reflexivity|]. rewrite LocalTime_UTC.
  rewrite Day_MakeDate, TimeWithinDay_MakeDate by apply TimeWithinDay_bound.
  split; [|done]. unfold year, month, MakeDay. lia.
Qed.

Lemma next_month m :
  0 <= m <= 11 ->
  (m + 1) / 12 = (if decide (m = 11) then 1 else 0)
  /\ (m + 1) mod 12 = (if decide (m = 11) then 0 else m + 1).
Proof. intros. case_decide; Z.div_mod_to_equations; lia. Qed.

Lemma prev_month m :
  0 <= m <= 11 ->
  (m + -1) / 12 = (if decide (m = 0) then -1 else 0)
  /\ (m + -1) mod 12 = (if decide (m = 0) then 11 else m - 1).
Proof. intros. case_decide; Z.div_mod_to_equations; lia. Qed.

Lemma path_eq (y m y' m' : Z) :
  y = y' -> m = m' ->
  "/" +:+ pretty y +:+ "/" +:+ pretty m = "/" +:+ pretty y' +:+ "/" +:+ pretty m'.
Proof. by intros -> ->. Qed.

(** The links, by the year and the month of the target. *)
Lemma MonthHeading_next_fields h (t : Z) :
  MonthHeading_next h (DateAt t)
  = "/" +:+ pretty (if decide (month h t = 11) then year h t + 1 else year h t)
    +:+ "/" +:+ pretty (if decide (month h t = 11) then 1 else month h t + 2).
Proof.
  unfold MonthHeading_next.
  destruct (add_month_fields h t 1) as (t' & -> & Hy & Hm & _).
  unfold format_path_YYYY_M. rewrite Hy, Hm.
  destruct (next_month (month h t) (month_bound h t)) as [-> ->].
  case_decide; [done|].
  by rewrite Z.add_0_r, <- Z.add_assoc.
Qed.

Lemma MonthHeading_prev_fields h (t : Z) :
  MonthHeading_prev h (DateAt t)
  = "/" +:+ pretty (if decide (month h t = 0) then year h t - 1 else year h t)
    +:+ "/" +:+ pretty (if decide (month h t = 0) then 12 else month h t).
Proof.
  unfold MonthHeading_prev.
  destruct (add_month_fields h t (-1)) as (t' & -> & Hy & Hm & _).
  unfold format_path_YYYY_M. rewrite Hy, Hm.
  destruct (prev_month (month h t) (month_bound h t)) as [-> ->].
  case_decide; [done|].
  by rewrite Z.add_0_r, Z.sub_add.
Qed.

(** The first day of the page of a month from 1 to 12 of a year of more
    than two digits. *)
Lemma firstDayOfMonth_fields h (y m : Z) :
  -1440 <= utcOffset h <= 1440 -> 100 <= y <= 200000 -> 1 <= m <= 12 ->
  exists t, firstDayOfMonth h (Some y) (Some m) = DateAt t
    /\ year h t = y /\ month h t = m - 1 /\ date h t = 1
    /\ TimeWithinDay (LocalTime h t) = 0.
Proof.
  intros Hoff Hy Hm. unfold firstDayOfMonth.
  destruct (new_Date_first h y (m - 1)) as (t & -> & Hyt & Hmt & Hdt & Htw);
    [done|lia|lia|].
  exists t. split; [done|].
  rewrite decide_False in Hyt by lia.
  rewrite Z.div_small in Hyt by lia. rewrite Z.mod_small in Hmt by lia.
  repeat split; try done. lia.
Qed.

(** The day of the week moves on by one from a day to the next. *)
Lemma WeekDay_next (D : Z) : (D + 1 + 4) mod 7 = ((D + 4) mod 7 + 1) mod 7.
Proof. Z.div_mod_to_equations. lia. Qed.

(** Minutes to the next local midnight. *)
Lemma tomorrow_diff h (t : Z) :
  diff_minutes (add_day h (startOf_date h (DateAt t)) 1) (DateAt t)
  = Some ((msPerDay - TimeWithinDay (LocalTime h t)) / msPerMinute).
Proof.
  unfold startOf_date, add_day. cbn [set_date]. cbv zeta.
  unfold date. rewrite !LocalTime_UTC. change (MakeTime 0 0 0 0) with 0.
  set (l := LocalTime h t).
  assert (0 <= 0 < msPerDay) as H0 by (unfold msPerDay; lia).
  rewrite (TimeWithinDay_MakeDate (Day l) 0 H0).
  rewrite MakeDay_date, MakeDay_of_time, (Day_MakeDate (Day l) 0 H0).
  unfold diff_minutes. f_equal.
  pose proof (TimeWithinDay_bound l) as Hb.
  replace (UTC h (MakeDate (Day l + 1) 0) - t)
    with (msPerDay - TimeWithinDay l).
  - apply Z.quot_div_nonneg; unfold msPerMinute; lia.
  - unfold UTC, MakeDate. subst l.
    pose proof (MakeDate_of_time (LocalTime h t)) as Hl.
    unfold MakeDate in Hl. unfold LocalTime in *. lia.
Qed.

End PageFacts.

(** ** Record keys and the days of a month *)

Module KeyFacts.
Import Text TextFacts Calendar CalendarFacts Dayjs DayjsFacts MonthFacts
  Exporters ExportFacts.

(** Texts that end in parts of one length are equal part by part. *)
Lemma app_inj_tail (s1 s2 u1 u2 : string) :
  String.length u1 = String.length u2 ->
  s1 +:+ u1 = s2 +:+ u2 -> s1 = s2 /\ u1 = u2.
Proof.
  intros Hlen. revert s2. induction s1 as [|c s1 IH]; intros [|c' s2] H.
  - done.
  - exfalso. rewrite app_nil_l in H. apply (f_equal String.length) in H.
    rewrite length_app in H. cbn [String.length] in H. lia.
  - exfalso. rewrite app_nil_l in H. apply (f_equal String.length) in H.
    rewrite length_app in H. cbn [String.length] in H. lia.
  - rewrite !app_cons in H. injection H as -> H.
    destruct (IH s2 H) as [-> ->]. done.
Qed.

Lemma pad_inj (w : nat) (a b : Z) :
  0 <= a < 10 ^ Z.of_nat w -> 0 <= b < 10 ^ Z.of_nat w ->
  pad w a = pad w b -> a = b.
Proof.
  intros Ha Hb H.
  pose proof (read_digits_pad_small w a "" Ha) as Ra.
  pose proof (read_digits_pad_small w b "" Hb) as Rb.
  rewrite H, Rb in Ra. congruence.
Qed.

(** The key of a valid date spells its local year, month and date. *)
Lemma makeRecordKey_fields h (t1 t2 : Z) :
  makeRecordKey h (DateAt t1) = makeRecordKey h (DateAt t2) ->
  year h t1 = year h t2 /\ month h t1 = month h t2 /\ date h t1 = date h t2.
Proof.
  unfold makeRecordKey, format_YYYYMMDD. intros H.
  pose proof (month_bound h t1). pose proof (month_bound h t2).
  pose proof (date_field_bound h t1) as Hd1.
  pose proof (date_field_bound h t2) as Hd2.
  pose proof (DaysInMonth_bound (year h t1) (month h t1)).
  pose proof (DaysInMonth_bound (year h t2) (month h t2)).
  apply app_inj_tail in H as [Hy H]; [|by rewrite !length_app, !length_pad].
  apply app_inj_tail in H as [Hm Hd]; [|by rewrite !length_pad].
  apply (inj pretty) in Hy.
  apply pad_inj in Hm; [|change (10 ^ Z.of_nat 2) with 100; lia..].
  apply pad_inj in Hd; [|change (10 ^ Z.of_nat 2) with 100; lia..].
  repeat split; [done|lia|done].
Qed.

Lemma makeRecordKey_same_day h (t1 t2 : Z) :
  makeRecordKey h (DateAt t1) = makeRecordKey h (DateAt t2)
  <-> Day (LocalTime h t1) = Day (LocalTime h t2).
Proof.
  split.
  - intros (Hy & Hm & Hd)%makeRecordKey_fields. by apply Day_of_fields.
  - intros H. destruct (fields_of_Day _ _ H) as (Hy & Hm & Hd).
    unfold makeRecordKey, format_YYYYMMDD, year, month, date.
    by rewrite Hy, Hm, Hd.
Qed.

Lemma makeRecordKey_valid h (t : Z) :
  makeRecordKey h (DateAt t) <> makeRecordKey h InvalidDate.
Proof.
  unfold makeRecordKey, format_YYYYMMDD, INVALID_DATE_STRING.
  destruct (Numeral.pretty_Z_head (year h t)) as [Hd|[r Hr]].
  - destruct (pretty (year h t)) as [|c s]; [done|]. rewrite app_cons.
    intros [= -> _]. by destruct Hd.
  - rewrite Hr, app_cons. discriminate.
Qed.

(** The days of a month and of another instant of the same month show the
    same texts. *)
Lemma day_texts_same_month h (t t' : Z) (i : nat) :
  year h t = year h t' -> month h t = month h t' ->
  (i < Z.to_nat (month_length h t))%nat ->
  format_YYYY_MM_DD h (set_date h (DateAt t) (Z.of_nat i + 1))
  = format_YYYY_MM_DD h (set_date h (DateAt t') (Z.of_nat i + 1))
  /\ makeRecordKey h (set_date h (DateAt t) (Z.of_nat i + 1))
     = makeRecordKey h (set_date h (DateAt t') (Z.of_nat i + 1)).
Proof.
  intros Hy Hm Hi.
  destruct (day_texts h t i Hi) as [-> ->].
  unfold month_length in Hi. rewrite Hy, Hm in Hi.
  destruct (day_texts h t' i Hi) as [-> ->].
  by rewrite Hy, Hm.
Qed.

Lemma days_of_same_month {A : Type} (f : Date -> A) h (t t' : Z) :
  year h t = year h t' -> month h t = month h t' ->
  (forall i : nat, (i < Z.to_nat (month_length h t))%nat ->
     f (set_date h (DateAt t) (Z.of_nat i + 1))
     = f (set_date h (DateAt t') (Z.of_nat i + 1))) ->
  map f (days_of h t) = map f (days_of h t').
Proof.
  intros Hy Hm Hf. unfold days_of, month_length in *.
  rewrite !map_map, <- Hy, <- Hm.
  apply map_ext_in. intros i Hi%in_seq. apply Hf. lia.
Qed.

(** Setting the date to the date it has changes nothing. *)
Lemma set_date_same h (t : Z) : set_date h (DateAt t) (date h t) = DateAt t.
Proof.
  unfold set_date, date. cbv zeta.
  rewrite MakeDay_of_time, MakeDate_of_time. f_equal.
  unfold UTC, LocalTime. lia.
Qed.

(** The instant of [set ('date', n)]. *)
Lemma set_date_instant h (t n : Z) :
  set_date h (DateAt t) n
  = DateAt (t + (n - date h t) * msPerDay).
Proof.
  rewrite <- (set_date_same h t) at 1. unfold set_date, date. cbv zeta.
  rewrite LocalTime_UTC, MakeDay_of_time, MakeDate_of_time.
  f_equal.
  replace n with (DateFromTime (LocalTime h t) + (n - DateFromTime (LocalTime h t)))
    at 1 by lia.
  rewrite MakeDay_date, MakeDay_of_time.
  pose proof (MakeDate_of_time (LocalTime h t)) as Hl.
  unfold UTC, MakeDate in *. unfold LocalTime in *. lia.
Qed.

End KeyFacts.

(** ** The paths of the days *)

Module DayPathFacts.
Import Text TextFacts Calendar CalendarFacts Dayjs DayjsFacts MonthFacts
  Exporters ExportFacts.

Lemma app_inv_head (s a b : string) : s +:+ a = s +:+ b -> a = b.
Proof.
  induction s as [|c s IH]; [done|]. rewrite !app_cons. intros [= H]. auto.
Qed.

Lemma format_path_day h (first : Z) (i : nat) :
  (i < Z.to_nat (month_length h first))%nat ->
  Dayjs.format_path_YYYY_M_D h (set_date h (DateAt first) (Z.of_nat i + 1))
  = "/" +:+ pretty (year h first) +:+ "/" +:+ pretty (month h first + 1)
    +:+ "/" +:+ pretty (Z.of_nat i + 1).
Proof.
  intros Hi. pose proof (month_length_le h first) as Hle.
  destruct (set_date_fields h first (Z.of_nat i + 1))
    as (t' & -> & Hy & Hm & Hd & _); [lia|].
  unfold Dayjs.format_path_YYYY_M_D. by rewrite Hy, Hm, Hd.
Qed.

End DayPathFacts.

(** * The claims *)

(** C1. Storing then loading a [Records] object, alone or in the slice of
    the store that holds it, gives a value identical to it: every date of
    every [starts] and [stops] is the same date again (the invalid date
    included), every memo the same string. *)
Theorem C1_persistence_round_trip h (sh : shape) (R : Records) :
  Records_wf R ->
  Store.deserialize h (Store.serialize h (shaped sh (Records_value R)))
  = Ok (shaped sh (Records_value R)).
Proof.
  intros Hwf. apply PersistenceFacts.round_trip_list.
  - apply NoDup_fst_map_to_list.
  - apply map_Forall_to_list in Hwf.
    eapply Forall_impl; [exact Hwf|]. by intros [k r].
Qed.

Lemma C1_persistence_round_trip_witness :
  let R : Records :=
    {[ "20240202" := {| starts := [DateAt 1706832000000; DateAt (-1)];
                        stops := [InvalidDate];
                        memos := [Example.dq "said 'stop', twice"] |} ]} in
  Records_wf R
  /\ Store.deserialize Example.host
       (Store.serialize Example.host (shaped Slice (Records_value R)))
     = Ok (shaped Slice (Records_value R)).
Proof.
  assert (Records_wf
            {[ "20240202" := {| starts := [DateAt 1706832000000; DateAt (-1)];
                                stops := [InvalidDate];
                                memos := [Example.dq "said 'stop', twice"] |} ]})
    as Hwf.
  { apply map_Forall_singleton. split; [by split|].
    split; repeat constructor; cbn; unfold Calendar.maxTime; lia. }
  split; [exact Hwf|]. exact (C1_persistence_round_trip _ _ _ Hwf).
Defined.

(** C2. Loading a text that holds days in their stored form turns every
    string of every [starts] and [stops] into the date dayjs makes of it,
    and nothing else: every memo is the string it was, a memo that reads
    as a date included. *)
Theorem C2_rehydrates_starts_and_stops_only h (sh : shape) (text : string)
    (es : list (string * StoredDailyRecord)) :
  JSON.parse_text text = Some (shaped sh (Stored_value es)) ->
  Forall (fun e => not_date_field (fst e)) es ->
  Store.deserialize h (VStr text)
  = Ok (shaped sh
          (VObj (map (fun e =>
             (fst e,
              VObj [("starts",
                     VArr (map (fun x => VDate (dayjs_toDate h (VStr x)))
                             (stored_starts (snd e))));
                    ("stops",
                     VArr (map (fun x => VDate (dayjs_toDate h (VStr x)))
                             (stored_stops (snd e))));
                    ("memos", VArr (map VStr (stored_memos (snd e))))])) es))).
Proof.
  intros Htext Hes.
  rewrite (PersistenceFacts.deserialize_stored h sh text es Htext Hes).
  do 2 f_equal. unfold Loaded_value. f_equal. apply map_ext. intros [k s].
  unfold DailyRecord_value, rehydrate. cbn [fst snd starts stops memos].
  by rewrite !map_map.
Qed.

Lemma C2_rehydrates_starts_and_stops_only_witness :
  Store.deserialize Example.host
    (VStr (Example.dq
       "{'records': {'20240201': {'starts': ['2024-02-01T00:00:00.000Z'],
          'stops': [], 'memos': ['2024-02-01T00:00:00.000Z', 'plain']}}}"))
  = Ok (VObj [("records",
          VObj [("20240201",
            VObj [("starts", VArr [VDate (DateAt 1706745600000)]);
                  ("stops", VArr []);
                  ("memos", VArr [VStr "2024-02-01T00:00:00.000Z";
                                  VStr "plain"])])])]).
Proof.
  apply (C2_rehydrates_starts_and_stops_only Example.host Slice _
           [("20240201",
             {| stored_starts := ["2024-02-01T00:00:00.000Z"];
                stored_stops := [];
                stored_memos := ["2024-02-01T00:00:00.000Z"; "plain"] |})]).
  - vm_compute. reflexivity.
  - repeat constructor; discriminate.
Defined.

(** C3, as the spec states it, fails: a text with a date string that no
    reader takes for a date loads without any error, and the loaded state
    holds the invalid date. *)
Lemma C3_counterexample :
  dayjs_toDate Example.host (VStr "not a date") = InvalidDate
  /\ Store.deserialize Example.host
       (VStr (Example.dq
          "{'records':{'20240201':{'starts':['not a date'],'stops':[],'memos':[]}}}"))
     = Ok (VObj [("records",
             VObj [("20240201",
               VObj [("starts", VArr [VDate InvalidDate]);
                     ("stops", VArr []);
                     ("memos", VArr [])])])]).
Proof. split; vm_compute; reflexivity. Qed.

(** C3, amended. Loading a text that holds days in their stored form
    succeeds whatever the date strings are: a string of [starts] or [stops]
    that dayjs cannot read is loaded as the invalid date, at its place.
    There is no error of its own for a corrupt blob. Loading fails in two
    ways only: with a [SyntaxError], for a text that is not JSON, and with
    a [TypeError], which takes a [starts] or a [stops], at some depth, that
    is not an array of strings, numbers, booleans and [null]s (it has no
    [map], or dayjs is handed an array or an object). *)
Theorem C3_unparsable_date_loads_as_invalid h (sh : shape) (text : string)
    (es : list (string * StoredDailyRecord)) (k : string)
    (s : StoredDailyRecord) (i : nat) (x : string) :
  JSON.parse_text text = Some (shaped sh (Stored_value es)) ->
  Forall (fun e => not_date_field (fst e)) es ->
  (k, s) ∈ es ->
  stored_starts s !! i = Some x \/ stored_stops s !! i = Some x ->
  dayjs_toDate h (VStr x) = InvalidDate ->
  Store.deserialize h (VStr text) = Ok (shaped sh (Loaded_value h es))
  /\ (starts (rehydrate h s) !! i = Some InvalidDate
      \/ stops (rehydrate h s) !! i = Some InvalidDate)
  /\ (forall text' e,
        Store.deserialize h (VStr text') = Throw e ->
        (e = SyntaxError
         /\ forall (f : nat) (v : value) (rest : string),
              JSON.parse_value f text' = Some (v, rest) ->
              JSON.skip_ws rest <> "")
        \/ (e = TypeError
            /\ exists v, JSON.parse_text text' = Some v
                          /\ date_fields_primitive v = false)).
Proof.
  intros Htext Hes Hin Hx Hinv. split; [|split].
  - by apply PersistenceFacts.deserialize_stored.
  - unfold rehydrate. cbn [starts stops].
    rewrite !ExportFacts.map_fmap, !list_lookup_fmap.
    destruct Hx as [-> | ->]; cbn [fmap option_fmap option_map];
      rewrite Hinv; auto.
  - apply RevivalFacts.deserialize_throws_cause.
Qed.

Lemma C3_unparsable_date_loads_as_invalid_witness :
  Store.deserialize Example.host
    (VStr (Example.dq
       "{'20240201':{'starts':['2024-02-01T00:00:00.000Z'],'stops':['18:00?'],'memos':[]}}"))
  = Ok (Loaded_value Example.host
          [("20240201",
            {| stored_starts := ["2024-02-01T00:00:00.000Z"];
               stored_stops := ["18:00?"];
               stored_memos := [] |})])
  /\ stops (rehydrate Example.host
              {| stored_starts := ["2024-02-01T00:00:00.000Z"];
                 stored_stops := ["18:00?"];
                 stored_memos := [] |}) !! 0%nat = Some InvalidDate.
Proof.
  destruct (C3_unparsable_date_loads_as_invalid Example.host Bare
              (Example.dq
                 "{'20240201':{'starts':['2024-02-01T00:00:00.000Z'],'stops':['18:00?'],'memos':[]}}")
              [("20240201",
                {| stored_starts := ["2024-02-01T00:00:00.000Z"];
                   stored_stops := ["18:00?"];
                   stored_memos := [] |})]
              "20240201"
              {| stored_starts := ["2024-02-01T00:00:00.000Z"];
                 stored_stops := ["18:00?"];
                 stored_memos := [] |}
              0%nat "18:00?") as (Hload & Hat & _).
  - vm_compute. reflexivity.
  - repeat constructor; discriminate.
  - apply list_elem_of_here.
  - right. reflexivity.
  - vm_compute. reflexivity.
  - split; [exact Hload|]. reflexivity.
Defined.

(** C4, as the claim states it, fails on the derivation of section 4.1:
    with no start and one stop there are at least as many stops as starts,
    yet the stop derived is none, not the last stop. *)
Lemma C4_counterexample :
  (length (starts {| starts := []; stops := [DateAt 0]; memos := [] |})
   <= length (stops {| starts := []; stops := [DateAt 0]; memos := [] |}))%nat
  /\ stop (getLatestOf (Some {| starts := []; stops := [DateAt 0]; memos := [] |})
             None)
     <> last (stops {| starts := []; stops := [DateAt 0]; memos := [] |}).
Proof. split; [cbn; lia|discriminate]. Qed.

(** C4, amended. The stop of the latest session is the last element of
    [stops] when [starts] is not empty and there are at least as many stops
    as starts, and none otherwise; so a stop is derived only when there are
    at least as many stops as starts (and a start). *)
Theorem C4_stop_only_when_closed (r : DailyRecord) (b : option Z) :
  stop (getLatestOf (Some r) b)
  = (if decide (starts r <> [] /\ (length (starts r) <= length (stops r))%nat)
     then last (stops r) else None)
  /\ (stop (getLatestOf (Some r) b) <> None ->
      (length (starts r) <= length (stops r))%nat /\ starts r <> []).
Proof.
  cbn [getLatestOf stop].
  destruct (starts r) as [|s l] eqn:Hs.
  - rewrite decide_False by tauto. split; [done|]. intros H. by destruct H.
  - destruct (Nat.leb_spec (length (s :: l)) (length (stops r))) as [Hle|Hgt].
    + rewrite decide_True by (split; [done|lia]). split; [done|]. by intros _.
    + rewrite decide_False by lia. split; [done|]. intros H. by destruct H.
Qed.

Lemma C4_stop_only_when_closed_witness :
  stop (getLatestOf
          (Some {| starts := [DateAt 0; DateAt 7200000];
                   stops := [DateAt 3600000; DateAt 9000000];
                   memos := ["a"] |}) None) = Some (DateAt 9000000)
  /\ (length [DateAt 0; DateAt 7200000]
      <= length [DateAt 3600000; DateAt 9000000])%nat.
Proof.
  destruct (C4_stop_only_when_closed
              {| starts := [DateAt 0; DateAt 7200000];
                 stops := [DateAt 3600000; DateAt 9000000];
                 memos := ["a"] |} None) as [Heq Himp].
  split; [exact Heq|]. apply Himp. rewrite Heq. discriminate.
Defined.

(** C5, as the spec states it, fails. A record whose latest start and
    stop are invalid dates gets a row whose start and stop fields are the
    words [Invalid Date], neither [HH:mm] nor empty; so does the break
    length field, for a break so long that it carries the clock out of the
    range of dates. And February of the year 0, a leap year, gets 28 rows:
    dayjs counts the days of a month of a year from 0 to 99 in the year of
    the 1900s that the [Date] constructor takes it for. *)
Lemma C5_counterexample :
  (fun rows => rows !! 1%nat)
    <$> Exporters.formatSpecifiedMonthRecordsAsCsvForMail Example.host
          Example.feb2024
          {[ "20240202" := {| starts := [InvalidDate]; stops := [InvalidDate];
                              memos := [] |} ]} (Some 90)
  = Ok (Some (Example.dq "'2024-02-02','Invalid Date','Invalid Date','','01:30'"))
  /\ ~ HHmm_or_empty "Invalid Date"
  /\ (fun rows => rows !! 1%nat)
       <$> Exporters.formatSpecifiedMonthRecordsAsCsvForMail Example.host
             Example.feb2024 (Example.one_day "x") (Some (10 ^ 16))
     = Ok (Some (Example.dq "'2024-02-02','09:00','18:00','x','Invalid Date'"))
  /\ Dayjs.year Example.host (-62164573200000) = 0
  /\ Dayjs.month Example.host (-62164573200000) = 1
  /\ Calendar.DaysInMonth 0 1 = 29
  /\ length <$> Exporters.formatSpecifiedMonthRecordsAsCsvForMail Example.host
                  (DateAt (-62164573200000)) ∅ None
     = Ok 28%nat.
Proof.
  split; [vm_compute; reflexivity|].
  split; [apply ExportFacts.Invalid_Date_no_time|].
  repeat split; vm_compute; reflexivity.
Qed.

(** C5, amended. For a first day of a month, in any year of the range of
    dates but the year 0, the CSV exporter returns one row per day of that
    month, 28 to 31 of them (29 for February 2024, 28 for February 2023),
    the [i]-th row being that of the date of day [i + 1] of that month and
    year: the date as [YYYY-MM-DD], the start and the stop of the latest
    session of that date's record (looked up by its key in the mapping,
    whatever the order of the keys), the memo and the break length, each in
    double quotes, joined by commas. A start or a stop is written [HH:mm]
    when it is a valid date, is empty when there is none, and is the words
    [Invalid Date] when it is the invalid date; the break length is [HH:mm]
    or empty, unless it carries the clock out of the range of dates. In a
    year of four digits the date column is the year, the month and the day
    as digits, and the key of the record the same digits with no dash. *)
Theorem C5_one_row_per_day h (t : Z) (R : Records) (b : option Z) :
  let y := Dayjs.year h t in
  let m := Dayjs.month h t in
  let n := Calendar.DaysInMonth y m in
  -271820 <= y <= 275759 -> y <> 0 ->
  exists rows,
    Exporters.formatSpecifiedMonthRecordsAsCsvForMail h (DateAt t) R b = Ok rows
    /\ length rows = Z.to_nat n
    /\ 28 <= n <= 31
    /\ (y = 2024 -> m = 1 -> length rows = 29%nat)
    /\ (y = 2023 -> m = 1 -> length rows = 28%nat)
    /\ forall i : nat, (i < Z.to_nat n)%nat ->
         exists t' : Z,
           let day := Z.of_nat i + 1 in
           let latest := getLatestOf (R !! makeRecordKey h (DateAt t')) b in
           let break := Exporters.breakTimeLength_column h latest in
           Dayjs.year h t' = y /\ Dayjs.month h t' = m /\ Dayjs.date h t' = day
           /\ rows !! i
              = Some (in_quotes (Dayjs.format_YYYY_MM_DD h (DateAt t'))
                      +:+ "," +:+ in_quotes (Exporters.time_column h (start latest))
                      +:+ "," +:+ in_quotes (Exporters.time_column h (stop latest))
                      +:+ "," +:+ in_quotes (memo latest)
                      +:+ "," +:+ in_quotes break)
           /\ time_text h (start latest) (Exporters.time_column h (start latest))
           /\ time_text h (stop latest) (Exporters.time_column h (stop latest))
           /\ (HHmm_or_empty break \/ break = "Invalid Date")
           /\ (forall x, breakTimeLengthMin latest = Some x -> clock_room h x ->
               HHmm_or_empty break)
           /\ (1000 <= y <= 9999 ->
               Dayjs.format_YYYY_MM_DD h (DateAt t')
               = pretty y +:+ "-" +:+ Text.pad 2 (m + 1) +:+ "-" +:+ Text.pad 2 day
               /\ makeRecordKey h (DateAt t')
                  = pretty y +:+ Text.pad 2 (m + 1) +:+ Text.pad 2 day).
Proof.
  intros y m n _ Hy0. eexists. split; [apply ExportFacts.csv_rows_valid|].
  pose proof (ExportFacts.month_length_year h t Hy0) as Hn. fold y m n in Hn.
  assert (length (map (fun d => Exporters.row (Exporters.csv_columns h R b d))
                    (days_of h t)) = Z.to_nat n) as Hlen.
  { by rewrite length_map, ExportFacts.length_days_of, Hn. }
  split; [exact Hlen|].
  split; [apply DayjsFacts.DaysInMonth_bound|].
  split; [|split].
  - intros Hy Hm. rewrite Hlen. subst n. by rewrite Hy, Hm.
  - intros Hy Hm. rewrite Hlen. subst n. by rewrite Hy, Hm.
  - intros i Hi.
    destruct (DayjsFacts.set_date_fields h t (Z.of_nat i + 1))
      as (t' & Ht' & Hy & Hm & Hd & _); [subst n y m; lia|].
    exists t'. cbv zeta.
    split; [exact Hy|]. split; [exact Hm|]. split; [exact Hd|].
    split.
    { rewrite ExportFacts.map_fmap, list_lookup_fmap,
        ExportFacts.lookup_days_of by (rewrite Hn; done).
      cbn [fmap option_fmap option_map]. rewrite Ht'. f_equal. }
    split; [apply ExportFacts.time_column_text|].
    split; [apply ExportFacts.time_column_text|].
    split; [apply ExportFacts.breakTimeLength_column_cases|].
    split.
    { intros x Hx Hroom. unfold Exporters.breakTimeLength_column. rewrite Hx.
      repeat case_match; try (by left). right.
      rewrite ExportFacts.breakTimeLength_text_clock by done.
      eexists _, _. split; [apply Z.mod_pos_bound; lia|].
      split; [apply Z.mod_pos_bound; lia|done]. }
    intros _. rewrite <- Ht'. apply ExportFacts.day_texts. by rewrite Hn.
Qed.

Lemma C5_one_row_per_day_witness :
  exists rows,
    Exporters.formatSpecifiedMonthRecordsAsCsvForMail Example.host
      Example.feb2024 (Example.one_day "lunch, then on") (Some 90) = Ok rows
    /\ length rows = 29%nat
    /\ rows !! 1%nat
       = Some (Example.dq "'2024-02-02','09:00','18:00','lunch, then on','01:30'")
    /\ rows !! 28%nat = Some (Example.dq "'2024-02-29','','','',''").
Proof.
  destruct (C5_one_row_per_day Example.host 1706713200000
              (Example.one_day "lunch, then on") (Some 90))
    as (rows & Hrows & _ & _ & H29 & _ & Hrow);
    [vm_compute; split; discriminate|vm_compute; discriminate|].
  exists rows. split; [exact Hrows|].
  split; [apply H29; vm_compute; reflexivity|].
  assert (1000 <= Dayjs.year Example.host 1706713200000 <= 9999) as Hy
    by (vm_compute; split; discriminate).
  split.
  - destruct (Hrow 1%nat) as (t' & H); [vm_compute; lia|]. cbv zeta in H.
    destruct H as (_ & _ & _ & -> & _ & _ & _ & _ & Htext).
    destruct (Htext Hy) as [-> ->]. vm_compute. reflexivity.
  - destruct (Hrow 28%nat) as (t' & H); [vm_compute; lia|]. cbv zeta in H.
    destruct H as (_ & _ & _ & -> & _ & _ & _ & _ & Htext).
    destruct (Htext Hy) as [-> ->]. vm_compute. reflexivity.
Defined.

(** C6. Both exporters run over the same days and derive the latest
    session of each day from the same record: they return as many rows,
    and the mail row of a day is made of the first four columns (date,
    start, stop, memo) of the CSV row of that day, which is the mail row,
    a comma and the break length in its quotes. Both fail together, on an
    invalid month. *)
Theorem C6_mail_row_is_csv_row_less_break h (first : Date) (R : Records)
    (b : option Z) :
  match Exporters.bodyLines h first R,
        Exporters.formatSpecifiedMonthRecordsAsCsvForMail h first R b with
  | Ok mail, Ok csv =>
      length mail = length csv
      /\ forall (i : nat) (c : string), csv !! i = Some c ->
           exists date,
             let latest := getLatestOf (Exporters.record_of h R date) b in
             let latest' := getLatestOf (Exporters.record_of h R date) None in
             c = Exporters.row (Exporters.csv_columns h R b date)
             /\ mail !! i
                = Some (Exporters.row (take 4 (Exporters.csv_columns h R b date)))
             /\ take 4 (Exporters.csv_columns h R b date)
                = Exporters.mail_columns h R date
             /\ start latest' = start latest /\ stop latest' = stop latest
             /\ memo latest' = memo latest
             /\ c = Exporters.row (Exporters.mail_columns h R date) +:+ ","
                    +:+ Exporters.wrap (Exporters.breakTimeLength_column h latest)
  | Throw e, Throw e' => e = e'
  | _, _ => False
  end.
Proof.
  destruct first as [t|]; [|done].
  rewrite ExportFacts.bodyLines_valid, ExportFacts.csv_rows_valid.
  split; [by rewrite !length_map|].
  intros i c Hc. apply ExportFacts.lookup_map_days in Hc as (d & Hd & ->).
  exists d. cbv zeta. split; [done|].
  rewrite <- ExportFacts.mail_columns_csv.
  split; [by rewrite ExportFacts.map_fmap, list_lookup_fmap, Hd|].
  split; [done|].
  destruct (ExportFacts.getLatestOf_default (Exporters.record_of h R d) None b)
    as (Hs & He & Hm).
  repeat (split; [done|]).
  unfold Exporters.csv_columns, Exporters.mail_columns.
  rewrite ExportFacts.row_five. by rewrite Hs, He, Hm.
Qed.

Lemma C6_mail_row_is_csv_row_less_break_witness :
  match Exporters.bodyLines Example.host Example.feb2024 (Example.one_day "x"),
        Exporters.formatSpecifiedMonthRecordsAsCsvForMail Example.host
          Example.feb2024 (Example.one_day "x") (Some 90) with
  | Ok mail, Ok csv =>
      exists m brk,
        mail !! 1%nat = Some m
        /\ csv !! 1%nat = Some (m +:+ "," +:+ Exporters.wrap brk)
        /\ csv !! 1%nat
           = Some (Example.dq "'2024-02-02','09:00','18:00','x','01:30'")
  | _, _ => False
  end.
Proof.
  pose proof (C6_mail_row_is_csv_row_less_break Example.host Example.feb2024
                (Example.one_day "x") (Some 90)) as H.
  unfold Example.feb2024 in *.
  rewrite ExportFacts.bodyLines_valid, ExportFacts.csv_rows_valid in *.
  cbv beta iota in *. destruct H as [_ H].
  assert (map (fun d => Exporters.row
                          (Exporters.csv_columns Example.host
                             (Example.one_day "x") (Some 90) d))
            (days_of Example.host 1706713200000) !! 1%nat
          = Some (Example.dq "'2024-02-02','09:00','18:00','x','01:30'")) as Hc
    by (vm_compute; reflexivity).
  destruct (H 1%nat _ Hc) as (date & _ & Hm & Hcols & _ & _ & _ & Hrow).
  eexists _, _. split; [rewrite Hm, Hcols; reflexivity|].
  split; [|exact Hc]. rewrite Hc. f_equal. exact Hrow.
Defined.

(** C7, as the spec states it, fails in the years 0 to 99: the subject
    of the month of March of the year 50 runs from the first of March of
    the year 50 to the last of March 1950, which is no day of that month.
    dayjs builds the end of a month with the [Date] constructor, which
    takes such a year for one of the 1900s. *)
Lemma C7_counterexample :
  Dayjs.year Example.host (-60584230800000) = 50
  /\ Dayjs.month Example.host (-60584230800000) = 2
  /\ Dayjs.date Example.host (-60584230800000) = 1
  /\ Exporters.subject Example.host (DateAt (-60584230800000))
     = "Mar 1, 50 - Mar 31, 1950"
  /\ ll Example.host 50 2 1 +:+ " - "
     +:+ ll Example.host 50 2 (Calendar.DaysInMonth 50 2)
     = "Mar 1, 50 - Mar 31, 50"
  /\ String.prefix "mailto:a%40b.c?subject=Mar%201%2C%2050%20-%20Mar%2031%2C%201950&body="
     <$> Exporters.createMailToUri Example.host (DateAt (-60584230800000)) ∅
           "a@b.c"
     = Ok true.
Proof. repeat split; vm_compute; reflexivity. Qed.

(** C7, amended. For a first day of a month, in any year of the range of
    dates but the years 0 to 99, the mail export is the URI
    [mailto:ADDRESS?subject=SUBJECT&body=BODY]: the subject is the first
    day and the last day of the month in the locale's short date form,
    joined by [" - "]; the body is the rows of the days of the month, four
    columns each in its double quotes with commas between, joined by a
    carriage return and a line feed; the address, the subject and the body
    are percent-encoded: a letter, a digit or one of [- _ . ! ~ * ' ( )]
    stands as it is, any other byte is [%] and its two hexadecimal digits.
    Each decodes to what it was. *)
Theorem C7_mailto_uri h (t : Z) (R : Records) (mailAddress : string) :
  let y := Dayjs.year h t in
  let m := Dayjs.month h t in
  let last := Calendar.DaysInMonth y m in
  -271820 <= y <= 275759 -> ~ 0 <= y <= 99 ->
  exists lines,
    Exporters.bodyLines h (DateAt t) R = Ok lines
    /\ length lines = Z.to_nat last
    /\ (forall (i : nat) (line : string), lines !! i = Some line ->
          exists days date a b c d,
            Exporters.getDaysInMonth h (DateAt t) = Ok days
            /\ days !! i = Some date
            /\ Exporters.mail_columns h R date = [a; b; c; d]
            /\ line = in_quotes a +:+ "," +:+ in_quotes b +:+ ","
                      +:+ in_quotes c +:+ "," +:+ in_quotes d)
    /\ Exporters.createMailToUri h (DateAt t) R mailAddress
       = Ok ("mailto:" +:+ percent_encoded mailAddress
             +:+ "?subject="
             +:+ percent_encoded
                   (ll h y m (Dayjs.date h t) +:+ " - " +:+ ll h y m last)
             +:+ "&body="
             +:+ percent_encoded
                   (Text.join (String "013"%char (String "010"%char "")) lines))
    /\ (forall x : string,
          all_chars Readers.uri_safe (percent_encoded x) = true
          /\ Readers.decodeURIComponent (percent_encoded x) = Some x).
Proof.
  intros y m last _ Hy. eexists. split; [apply ExportFacts.bodyLines_valid|].
  pose proof (ExportFacts.month_length_plain h t Hy) as Hn. fold y m last in Hn.
  split; [by rewrite length_map, ExportFacts.length_days_of, Hn|].
  split; [|split].
  - intros i line Hline.
    apply ExportFacts.lookup_map_days in Hline as (d & Hd & ->).
    exists (days_of h t), d. eexists _, _, _, _.
    split; [apply ExportFacts.getDaysInMonth_valid|]. split; [exact Hd|].
    split; reflexivity.
  - unfold Exporters.createMailToUri.
    rewrite ExportFacts.bodyLines_valid. cbn [mbind result_bind].
    cbn [map fst snd Text.join].
    rewrite !ReaderFacts.encode_percent.
    assert (Exporters.subject h (DateAt t)
            = ll h y m (Dayjs.date h t) +:+ " - " +:+ ll h y m last) as ->.
    { unfold Exporters.subject.
      destruct (DayjsFacts.endOf_month_fields h t) as (t' & -> & Hy' & Hm' & Hd').
      unfold Dayjs.format_ll. rewrite Hy', Hm', Hd'.
      by rewrite DayjsFacts.MakeFullYear_plain. }
    change Exporters.CRLF with (String "013"%char (String "010"%char "")).
    by norm_app.
  - intros x. rewrite <- ReaderFacts.encode_percent.
    split; [apply ReaderFacts.encode_safe|apply ReaderFacts.decode_encode].
Qed.

Lemma C7_mailto_uri_witness :
  exists lines,
    String.prefix
      ("mailto:me%2Bwork%40example.com"
       +:+ "?subject=Feb%201%2C%202024%20-%20Feb%2029%2C%202024"
       +:+ "&body=%222024-02-01%22%2C%22%22%2C%22%22%2C%22%22%0D%0A"
       +:+ "%222024-02-02%22%2C%2209%3A00%22%2C%2218%3A00%22%2C%22x%22%0D%0A")
    <$> Exporters.createMailToUri Example.host Example.feb2024
          (Example.one_day "x") "me+work@example.com"
    = Ok true
    /\ Exporters.bodyLines Example.host Example.feb2024 (Example.one_day "x")
       = Ok lines
    /\ length lines = 29%nat
    /\ lines !! 1%nat = Some (Example.dq "'2024-02-02','09:00','18:00','x'").
Proof.
  destruct (C7_mailto_uri Example.host 1706713200000 (Example.one_day "x")
              "me+work@example.com")
    as (lines & Hlines & Hlen & _ & Huri & _);
    [vm_compute; split; discriminate|vm_compute; intros [_ H]; by apply H|].
  exists lines. unfold Example.feb2024.
  rewrite ExportFacts.bodyLines_valid in Hlines. apply Ok_inj in Hlines.
  split; [|split; [|split]].
  - rewrite Huri, <- Hlines. vm_compute. reflexivity.
  - by rewrite ExportFacts.bodyLines_valid, Hlines.
  - rewrite Hlen. vm_compute. reflexivity.
  - rewrite <- Hlines. vm_compute. reflexivity.
Defined.

(** C9, as it is stated, fails for a break of a day or more: the text is
    that of a clock, whose hours start again at 24. A break of 1500
    minutes, 25 hours, is written [01:00]. *)
Lemma C9_counterexample :
  (fun rows => rows !! 1%nat)
    <$> Exporters.formatSpecifiedMonthRecordsAsCsvForMail Example.host
          Example.feb2024 (Example.one_day "x") (Some 1500)
  = Ok (Some (Example.dq "'2024-02-02','09:00','18:00','x','01:00'"))
  /\ Text.pad 2 (1500 / 60) +:+ ":" +:+ Text.pad 2 (1500 mod 60) = "25:00".
Proof. repeat split; vm_compute; reflexivity. Qed.

(** C9, amended. In a row of the CSV exporter the break length column is
    empty unless the latest session of the day has a start, a stop and a
    break length; with all three it is the text [HH:mm] of the clock of the
    moment after its hour is set to [floor (b / 60)] and its minute to
    [b % 60]. For a break of less than a day that is the two digits of
    [b / 60], a colon and the two digits of [b mod 60]; for a longer one the
    hours are taken modulo 24. (The clock is some days inside the range of
    dates, as any clock is.) So a configured break length is exported as
    empty on a day with no stop. *)
Theorem C9_break_length_column h (first : Date) (R : Records) (b : option Z)
    (rows : list string) (i : nat) (r : string) :
  Exporters.formatSpecifiedMonthRecordsAsCsvForMail h first R b = Ok rows ->
  rows !! i = Some r ->
  exists days date,
    Exporters.getDaysInMonth h first = Ok days /\ days !! i = Some date
    /\ let latest := getLatestOf (Exporters.record_of h R date) b in
       let column := Exporters.breakTimeLength_column h latest in
       r = Exporters.row
             [Dayjs.format_YYYY_MM_DD h date;
              Exporters.time_column h (start latest);
              Exporters.time_column h (stop latest);
              memo latest;
              column]
       /\ (start latest = None \/ stop latest = None
           \/ breakTimeLengthMin latest = None -> column = "")
       /\ (forall s e x,
             start latest = Some s -> stop latest = Some e ->
             breakTimeLengthMin latest = Some x ->
             column
             = Dayjs.format_HHmm h
                 (Dayjs.set_minute h
                    (Dayjs.set_hour h (DateAt (now h)) (x / 60)) (Z.rem x 60))
             /\ (clock_room h x -> 0 <= x ->
                 column
                 = Text.pad 2 ((x / 60) mod 24) +:+ ":" +:+ Text.pad 2 (x mod 60)
                 /\ is_HHmm column)
             /\ (clock_room h x -> 0 <= x < 1440 ->
                 column = Text.pad 2 (x / 60) +:+ ":" +:+ Text.pad 2 (x mod 60)))
       /\ (stop latest = None -> column = "").
Proof.
  intros Hrows Hr.
  apply ExportFacts.csv_rows_inv in Hrows as (t & -> & ->).
  apply ExportFacts.lookup_map_days in Hr as (d & Hd & ->).
  exists (days_of h t), d.
  split; [apply ExportFacts.getDaysInMonth_valid|]. split; [exact Hd|].
  cbv zeta. split; [reflexivity|].
  unfold Exporters.breakTimeLength_column.
  split; [|split].
  - intros [-> | [-> | ->]]; repeat case_match; done.
  - intros s e x -> -> ->. split; [reflexivity|]. split.
    + intros Hroom Hx. rewrite ExportFacts.breakTimeLength_text_wrap by done.
      split; [done|]. eexists _, _.
      split; [apply Z.mod_pos_bound; lia|].
      split; [apply Z.mod_pos_bound; lia|done].
    + intros Hroom Hx. by apply ExportFacts.breakTimeLength_text_day.
  - intros ->. repeat case_match; done.
Qed.

Lemma C9_break_length_column_witness :
  exists rows,
    Exporters.formatSpecifiedMonthRecordsAsCsvForMail Example.host
      Example.feb2024 (Example.one_day "x") (Some 90) = Ok rows
    /\ rows !! 0%nat = Some (Example.dq "'2024-02-01','','','',''")
    /\ rows !! 1%nat = Some (Example.dq "'2024-02-02','09:00','18:00','x','01:30'")
    /\ exists date,
         Exporters.breakTimeLength_column Example.host
           (getLatestOf (Exporters.record_of Example.host (Example.one_day "x") date)
              (Some 90))
         = Text.pad 2 (90 / 60) +:+ ":" +:+ Text.pad 2 (90 mod 60).
Proof.
  assert (map (fun d => Exporters.row
                          (Exporters.csv_columns Example.host
                             (Example.one_day "x") (Some 90) d))
            (days_of Example.host 1706713200000) !! 1%nat
          = Some (Example.dq "'2024-02-02','09:00','18:00','x','01:30'")) as Hr
    by (vm_compute; reflexivity).
  destruct (C9_break_length_column Example.host Example.feb2024 _ (Some 90) _ _ _
              (ExportFacts.csv_rows_valid _ _ _ _) Hr)
    as (days & date & Hdays & Hdate & _ & _ & Hclosed & _).
  eexists.
  split; [apply ExportFacts.csv_rows_valid|].
  split; [vm_compute; reflexivity|]. split; [exact Hr|].
  exists date.
  unfold Example.feb2024 in Hdays.
  rewrite ExportFacts.getDaysInMonth_valid in Hdays. apply Ok_inj in Hdays.
  rewrite <- Hdays in Hdate.
  apply ExportFacts.lookup_days_of_inv in Hdate as [_ ->].
  destruct (Hclosed (DateAt 1706832000000) (DateAt 1706864400000) 90)
    as (_ & _ & Hday); [vm_compute; reflexivity..|].
  apply Hday; [|lia].
  unfold clock_room. vm_compute. split; discriminate.
Defined.

(** C10, as stated, fails: a memo with a comma, and a memo with a line
    break, are written inside their quotes, and each row is a well-formed
    record of quoted fields that reads back as the five columns. *)
Lemma C10_counterexample :
  (fun rows => rows !! 1%nat)
    <$> Exporters.formatSpecifiedMonthRecordsAsCsvForMail Example.host
          Example.feb2024 (Example.one_day "lunch, then on") (Some 90)
  = Ok (Some (Example.dq "'2024-02-02','09:00','18:00','lunch, then on','01:30'"))
  /\ Readers.read_record
       (Example.dq "'2024-02-02','09:00','18:00','lunch, then on','01:30'")
     = Some ["2024-02-02"; "09:00"; "18:00"; "lunch, then on"; "01:30"]
  /\ (fun rows => rows !! 1%nat ≫= Readers.read_record)
       <$> Exporters.formatSpecifiedMonthRecordsAsCsvForMail Example.host
             Example.feb2024
             (Example.one_day ("lunch" +:+ Exporters.CRLF +:+ "then on"))
             (Some 90)
     = Ok (Some ["2024-02-02"; "09:00"; "18:00";
                 "lunch" +:+ Exporters.CRLF +:+ "then on"; "01:30"]).
Proof. repeat split; vm_compute; reflexivity. Qed.

(** C10, amended. Both exporters put each raw column between two double
    quotes and escape nothing, so the memo stands in the row as it is. A
    row reads back as its columns, by the rules of quoted CSV fields,
    exactly when its memo holds no double quote: a comma or a line break in
    the memo does no harm, a double quote makes the reader reject the row
    or return other fields. *)
Theorem C10_quotes_without_escaping h (first : Date) (R : Records)
    (b : option Z) :
  (forall rows (i : nat) (r : string),
     Exporters.formatSpecifiedMonthRecordsAsCsvForMail h first R b = Ok rows ->
     rows !! i = Some r ->
     exists days date,
       Exporters.getDaysInMonth h first = Ok days /\ days !! i = Some date
       /\ let latest := getLatestOf (Exporters.record_of h R date) b in
          let cols := Exporters.csv_columns h R b date in
          r = Exporters.wrap (Dayjs.format_YYYY_MM_DD h date)
              +:+ "," +:+ Exporters.wrap (Exporters.time_column h (start latest))
              +:+ "," +:+ Exporters.wrap (Exporters.time_column h (stop latest))
              +:+ "," +:+ String JSON.dquote (memo latest +:+ String JSON.dquote "")
              +:+ "," +:+ Exporters.wrap (Exporters.breakTimeLength_column h latest)
          /\ (Readers.dquotes (memo latest) = O ->
              Readers.read_record r = Some cols)
          /\ (Readers.has_dquote (memo latest) ->
              Readers.read_record r <> Some cols))
  /\ (forall lines (i : nat) (r : string),
        Exporters.bodyLines h first R = Ok lines ->
        lines !! i = Some r ->
        exists days date,
          Exporters.getDaysInMonth h first = Ok days /\ days !! i = Some date
          /\ let latest := getLatestOf (Exporters.record_of h R date) None in
             let cols := Exporters.mail_columns h R date in
             r = Exporters.wrap (Dayjs.format_YYYY_MM_DD h date)
                 +:+ "," +:+ Exporters.wrap (Exporters.time_column h (start latest))
                 +:+ "," +:+ Exporters.wrap (Exporters.time_column h (stop latest))
                 +:+ "," +:+ String JSON.dquote (memo latest +:+ String JSON.dquote "")
             /\ (Readers.dquotes (memo latest) = O ->
                 Readers.read_record r = Some cols)
             /\ (Readers.has_dquote (memo latest) ->
                 Readers.read_record r <> Some cols)).
Proof.
  split.
  - intros rows i r Hrows Hr.
    apply ExportFacts.csv_rows_inv in Hrows as (t & -> & ->).
    apply ExportFacts.lookup_map_days in Hr as (d & Hd & ->).
    exists (days_of h t), d.
    split; [apply ExportFacts.getDaysInMonth_valid|]. split; [exact Hd|].
    cbv zeta. split; [reflexivity|]. apply ReaderFacts.csv_row_reads_back.
  - intros lines i r Hlines Hr.
    apply ExportFacts.bodyLines_inv in Hlines as (t & -> & ->).
    apply ExportFacts.lookup_map_days in Hr as (d & Hd & ->).
    exists (days_of h t), d.
    split; [apply ExportFacts.getDaysInMonth_valid|]. split; [exact Hd|].
    cbv zeta. split; [reflexivity|]. apply ReaderFacts.mail_row_reads_back.
Qed.

(** * Further properties of the code *)

(** X1. Loading a JSON text fails with a [TypeError] when some property
    named [starts] or [stops], at any depth of the value read, holds a value
    that is no array (a string, [null], a number, an object: the reviver's
    [value.map] is missing), or an array with an element that has no
    primitive value (an object with an own property [toString], or an array
    holding one), on which dayjs throws. It succeeds when every such
    property holds an array of strings, numbers, booleans and [null]s. *)
Theorem X1_loading_fails_on_bad_date_fields h (text : string) (v : value) :
  JSON.parse_text text = Some v ->
  (date_fields_primitive v = true ->
   exists v', Store.deserialize h (VStr text) = Ok v')
  /\ (date_fields_are_arrays v = false ->
      Store.deserialize h (VStr text) = Throw TypeError)
  /\ (date_fields_convert v = false ->
      Store.deserialize h (VStr text) = Throw TypeError).
Proof.
  intros Ht. split; [|split]; intros Hv.
  - eapply RevivalFacts.deserialize_ok; [exact Ht|].
    by apply RevivalFacts.date_fields_primitive_convert.
  - eapply RevivalFacts.deserialize_fails; [exact Ht|].
    destruct (date_fields_convert v) eqn:Hc; [|done].
    apply RevivalFacts.date_fields_convert_arrays in Hc. congruence.
  - by eapply RevivalFacts.deserialize_fails.
Qed.

Lemma X1_loading_fails_on_bad_date_fields_witness :
  Store.deserialize Example.host
    (VStr (Example.dq
       "{'records':{'20240201':{'starts':'09:00','stops':[],'memos':[]}}}"))
  = Throw TypeError
  /\ Store.deserialize Example.host
       (VStr (Example.dq
          "{'records':{'20240201':{'starts':[{'toString':1}],'stops':[],'memos':[]}}}"))
     = Throw TypeError.
Proof.
  split.
  - destruct (X1_loading_fails_on_bad_date_fields Example.host
                (Example.dq
                   "{'records':{'20240201':{'starts':'09:00','stops':[],'memos':[]}}}")
                (VObj [("records",
                   VObj [("20240201",
                     VObj [("starts", VStr "09:00"); ("stops", VArr []);
                           ("memos", VArr [])])])]))
      as (_ & Hfail & _); [vm_compute; reflexivity|].
    apply Hfail. reflexivity.
  - destruct (X1_loading_fails_on_bad_date_fields Example.host
                (Example.dq
                   "{'records':{'20240201':{'starts':[{'toString':1}],'stops':[],'memos':[]}}}")
                (VObj [("records",
                   VObj [("20240201",
                     VObj [("starts", VArr [VObj [("toString", VNum "1")]]);
                           ("stops", VArr []); ("memos", VArr [])])])]))
      as (_ & _ & Hfail); [vm_compute; reflexivity|].
    apply Hfail. reflexivity.
Defined.

(** X2. Loading leaves a value in which no property is named [starts] or
    [stops] exactly as [JSON.parse] reads it, whatever the host: the empty
    records, for one. *)
Theorem X2_loading_keeps_values_without_date_fields h (text : string)
    (v : value) :
  JSON.parse_text text = Some v ->
  no_date_key v = true ->
  Store.deserialize h (VStr text) = Ok v.
Proof.
  intros Ht Hv. rewrite StoreFacts.deserialize_text. unfold JSON.parse. rewrite Ht.
  by apply RevivalFacts.internalize_no_date_key.
Qed.

Lemma X2_loading_keeps_values_without_date_fields_witness :
  Store.deserialize Example.host (VStr (Example.dq "{'records': {}}"))
  = Ok (VObj [("records", VObj [])]).
Proof.
  apply X2_loading_keeps_values_without_date_fields; vm_compute; reflexivity.
Defined.

(** X3. Two valid dates have the same record key exactly when they fall
    on the same local calendar day, and no valid date has the key of the
    invalid date. *)
Theorem X3_record_key_names_the_local_day h (t1 t2 : Z) :
  (makeRecordKey h (DateAt t1) = makeRecordKey h (DateAt t2)
   <-> Calendar.Day (Dayjs.LocalTime h t1) = Calendar.Day (Dayjs.LocalTime h t2))
  /\ makeRecordKey h (DateAt t1) <> makeRecordKey h InvalidDate.
Proof.
  split; [apply KeyFacts.makeRecordKey_same_day|apply KeyFacts.makeRecordKey_valid].
Qed.

(** X4. Both exporters read the records of the days of the month and no
    other: two mappings that hold the same record, or none, under the key
    of each day of the month give the same CSV rows and the same mailto
    URI. A record of another month changes nothing. *)
Theorem X4_exporters_read_the_days_of_the_month_only h (first : Date)
    (R R' : Records) (b : option Z) (mailAddress : string) :
  (forall days date,
     Exporters.getDaysInMonth h first = Ok days -> date ∈ days ->
     R !! makeRecordKey h date = R' !! makeRecordKey h date) ->
  Exporters.formatSpecifiedMonthRecordsAsCsvForMail h first R b
  = Exporters.formatSpecifiedMonthRecordsAsCsvForMail h first R' b
  /\ Exporters.createMailToUri h first R mailAddress
     = Exporters.createMailToUri h first R' mailAddress.
Proof.
  intros Hsame. destruct first as [t|]; [|done].
  assert (forall d, In d (days_of h t) ->
            Exporters.record_of h R d = Exporters.record_of h R' d) as Hrec.
  { intros d Hd.
    apply (Hsame (days_of h t));
      [apply ExportFacts.getDaysInMonth_valid|by apply list_elem_of_In]. }
  split.
  - rewrite !ExportFacts.csv_rows_valid. f_equal. apply map_ext_in.
    intros d Hd. unfold Exporters.csv_columns. by rewrite (Hrec d Hd).
  - assert (map (fun d => Exporters.row (Exporters.mail_columns h R d))
              (days_of h t)
            = map (fun d => Exporters.row (Exporters.mail_columns h R' d))
                (days_of h t)) as Hlines.
    { apply map_ext_in. intros d Hd. unfold Exporters.mail_columns.
      by rewrite (Hrec d Hd). }
    unfold Exporters.createMailToUri. rewrite !ExportFacts.bodyLines_valid.
    by rewrite Hlines.
Qed.

Lemma X4_exporters_read_the_days_of_the_month_only_witness :
  let R := Example.one_day "x" in
  let R' : Records :=
    <[ "20240301" := {| starts := [DateAt 1709251200000]; stops := [];
                        memos := ["march"] |} ]> R in
  Exporters.formatSpecifiedMonthRecordsAsCsvForMail Example.host Example.feb2024
    R (Some 90)
  = Exporters.formatSpecifiedMonthRecordsAsCsvForMail Example.host Example.feb2024
      R' (Some 90)
  /\ Exporters.createMailToUri Example.host Example.feb2024 R "a@b.c"
     = Exporters.createMailToUri Example.host Example.feb2024 R' "a@b.c".
Proof.
  apply X4_exporters_read_the_days_of_the_month_only.
  intros days date Hdays Hdate.
  rewrite lookup_insert_ne; [done|].
  unfold Example.feb2024 in Hdays. rewrite ExportFacts.getDaysInMonth_valid in Hdays.
  apply Ok_inj in Hdays. subst days.
  apply list_elem_of_lookup in Hdate as [i Hi].
  apply ExportFacts.lookup_days_of_inv in Hi as [Hi ->].
  destruct (ExportFacts.day_texts Example.host 1706713200000 i Hi) as [_ ->].
  replace (pretty (Dayjs.year Example.host 1706713200000))
    with "2024" by (vm_compute; reflexivity).
  replace (Text.pad 2 (Dayjs.month Example.host 1706713200000 + 1))
    with "02" by (vm_compute; reflexivity).
  rewrite !TextFacts.pad_S. discriminate.
Defined.





(** X8. The 'List' page of the route numbers [year] and [month] shows the
    month that starts at local midnight of the first day of month
    [month] of [year]: a month number beyond 1..12 is carried into the
    years (13 is January of the next year, 0 December of the year before),
    and a year from 0 to 99 stands for 1900 and that many. When the year
    reached has four digits, the days of the month are listed and the mail
    link is built, with one body line per day of that month. *)
Theorem X8_list_page_first_day h (year month : Z) (R : Records)
    (mailAddress : string) :
  -1440 <= utcOffset h <= 1440 ->
  -200000 <= year <= 200000 -> -1199 <= month <= 1201 ->
  let yr := if decide (0 <= year <= 99) then 1900 + year else year in
  let y' := yr + (month - 1) / 12 in
  let m' := (month - 1) mod 12 in
  exists t,
    ListPage.firstDayOfMonth h (Some year) (Some month) = DateAt t
    /\ Dayjs.year h t = y' /\ Dayjs.month h t = m' /\ Dayjs.date h t = 1
    /\ Dayjs.hour h t = 0 /\ Dayjs.minute h t = 0
    /\ (1 <= month <= 12 -> y' = yr /\ m' = month - 1)
    /\ (1000 <= y' <= 9999 ->
        exists lines uri,
          Exporters.bodyLines h (DateAt t) R = Ok lines
          /\ length lines = Z.to_nat (Calendar.DaysInMonth y' m')
          /\ Exporters.createMailToUri h (DateAt t) R mailAddress = Ok uri).
Proof.
  intros Hoff Hy Hm yr y' m'. unfold ListPage.firstDayOfMonth.
  destruct (MonthFacts.new_Date_first h year (month - 1) Hoff Hy)
    as (t & -> & Hyt & Hmt & Hdt & Htw); [lia|].
  destruct (PageFacts.hour_minute_midnight h t Htw) as [Hh Hmi].
  exists t.
  split; [reflexivity|]. split; [exact Hyt|]. split; [exact Hmt|].
  split; [exact Hdt|]. split; [exact Hh|]. split; [exact Hmi|].
  split.
  { intros Hm'. subst y' m'.
    rewrite Z.div_small, Z.mod_small by lia. lia. }
  intros Hy'. eexists. eexists.
  split; [apply ExportFacts.bodyLines_valid|].
  split.
  - rewrite length_map, ExportFacts.length_days_of.
    rewrite ExportFacts.month_length_plain by (rewrite Hyt; lia).
    by rewrite Hyt, Hmt.
  - unfold Exporters.createMailToUri. rewrite ExportFacts.bodyLines_valid.
    reflexivity.
Qed.

Lemma X8_list_page_first_day_witness :
  exists t lines,
    ListPage.firstDayOfMonth Example.host (Some 2024) (Some 14) = DateAt t
    /\ Dayjs.year Example.host t = 2025 /\ Dayjs.month Example.host t = 1
    /\ Exporters.bodyLines Example.host (DateAt t) (Example.one_day "x") = Ok lines
    /\ length lines = 28%nat.
Proof.
  destruct (X8_list_page_first_day Example.host 2024 14 (Example.one_day "x") "a@b.c")
    as (t & Ht & Hy & Hm & _ & _ & _ & _ & Hlines);
    [vm_compute; split; discriminate|lia|lia|].
  destruct Hlines as (lines & uri & Hl & Hn & _);
    [vm_compute; split; discriminate|].
  exists t, lines. split; [exact Ht|]. split; [exact Hy|]. split; [exact Hm|].
  split; [exact Hl|]. rewrite Hn. reflexivity.
Defined.

(** X9. When the year or the month of the route is not a number, or the
    year lies beyond the range of time values, the first day of the 'List'
    page is the invalid date: listing the days of the month and building
    the mail link both throw a [RangeError]. *)
Theorem X9_list_page_fails_on_a_bad_route h (year month : option Z)
    (R : Records) (mailAddress : string) :
  -1440 <= utcOffset h <= 1440 ->
  year = None \/ month = None
  \/ (exists y m, year = Some y /\ month = Some m
                  /\ 276000 <= y /\ -1199 <= m <= 1201) ->
  ListPage.firstDayOfMonth h year month = InvalidDate
  /\ Exporters.getDaysInMonth h (ListPage.firstDayOfMonth h year month)
     = Throw RangeError
  /\ Exporters.createMailToUri h (ListPage.firstDayOfMonth h year month) R
       mailAddress
     = Throw RangeError.
Proof.
  intros Hoff Hbad.
  assert (ListPage.firstDayOfMonth h year month = InvalidDate) as ->.
  { destruct Hbad as [->|[->|(y & m & -> & -> & Hy & Hm)]].
    - reflexivity.
    - by destruct year.
    - apply MonthFacts.new_Date_out_of_range; [done|done|lia]. }
  repeat split.
Qed.

Lemma X9_list_page_fails_on_a_bad_route_witness :
  Exporters.createMailToUri Example.host
    (ListPage.firstDayOfMonth Example.host None (Some 2)) (Example.one_day "x")
    "a@b.c"
  = Throw RangeError.
Proof.
  destruct (X9_list_page_fails_on_a_bad_route Example.host None (Some 2)
              (Example.one_day "x") "a@b.c") as (_ & _ & H);
    [vm_compute; split; discriminate|by left|exact H].
Defined.

(** X10. The links of the month heading name the month before and the
    month after the target's: from January the link back is to month 12
    of the year before, from December the link on is to month 1 of the
    year after, and otherwise the year stays and the month number moves by
    one. (For a year of four digits.) *)
Theorem X10_month_links h (t : Z) :
  1000 < Dayjs.year h t < 9999 ->
  let y := Dayjs.year h t in
  let m := Dayjs.month h t in
  ListPage.MonthHeading_prev h (DateAt t)
  = "/" +:+ pretty (if decide (m = 0) then y - 1 else y)
    +:+ "/" +:+ pretty (if decide (m = 0) then 12 else m)
  /\ ListPage.MonthHeading_next h (DateAt t)
     = "/" +:+ pretty (if decide (m = 11) then y + 1 else y)
       +:+ "/" +:+ pretty (if decide (m = 11) then 1 else m + 2).
Proof.
  intros _ y m. split.
  - apply PageFacts.MonthHeading_prev_fields.
  - apply PageFacts.MonthHeading_next_fields.
Qed.

Lemma X10_month_links_witness :
  ListPage.MonthHeading_prev Example.host (DateAt 1704034800000) = "/2023/12"
  /\ ListPage.MonthHeading_next Example.host (DateAt 1704034800000) = "/2024/2".
Proof.
  destruct (X10_month_links Example.host 1704034800000) as [Hp Hn];
    [vm_compute; split; reflexivity|].
  rewrite Hp, Hn. split; vm_compute; reflexivity.
Defined.

(** X11. Following the links of the month heading and coming back: on the
    'List' page of month [month] of [year], the link on names the next
    month, and the page of that month links back to [/year/month]; the
    same with the link back and the month before. *)
Theorem X11_month_links_lead_back h (year month : Z) :
  -1440 <= utcOffset h <= 1440 -> 1000 < year < 9999 -> 1 <= month <= 12 ->
  let next_year := if decide (month = 12) then year + 1 else year in
  let next_month := if decide (month = 12) then 1 else month + 1 in
  let prev_year := if decide (month = 1) then year - 1 else year in
  let prev_month := if decide (month = 1) then 12 else month - 1 in
  let here := "/" +:+ pretty year +:+ "/" +:+ pretty month in
  ListPage.MonthHeading_next h
    (ListPage.firstDayOfMonth h (Some year) (Some month))
  = "/" +:+ pretty next_year +:+ "/" +:+ pretty next_month
  /\ ListPage.MonthHeading_prev h
       (ListPage.firstDayOfMonth h (Some next_year) (Some next_month)) = here
  /\ ListPage.MonthHeading_prev h
       (ListPage.firstDayOfMonth h (Some year) (Some month))
     = "/" +:+ pretty prev_year +:+ "/" +:+ pretty prev_month
  /\ ListPage.MonthHeading_next h
       (ListPage.firstDayOfMonth h (Some prev_year) (Some prev_month)) = here.
Proof.
  intros Hoff Hy Hm next_year next_month prev_year prev_month here.
  destruct (PageFacts.firstDayOfMonth_fields h year month)
    as (t & -> & Hyt & Hmt & _); [done|lia|done|].
  destruct (PageFacts.firstDayOfMonth_fields h next_year next_month)
    as (tn & -> & Hyn & Hmn & _);
    [done|subst next_year; case_decide; lia|subst next_month; case_decide; lia|].
  destruct (PageFacts.firstDayOfMonth_fields h prev_year prev_month)
    as (tp & -> & Hyp & Hmp & _);
    [done|subst prev_year; case_decide; lia|subst prev_month; case_decide; lia|].
  rewrite (PageFacts.MonthHeading_next_fields h t),
    (PageFacts.MonthHeading_next_fields h tp),
    (PageFacts.MonthHeading_prev_fields h t),
    (PageFacts.MonthHeading_prev_fields h tn).
  rewrite Hyt, Hmt, Hyn, Hmn, Hyp, Hmp.
  subst next_year next_month prev_year prev_month here.
  repeat split; repeat case_decide; try lia; apply PageFacts.path_eq; lia.
Qed.

Lemma X11_month_links_lead_back_witness :
  ListPage.MonthHeading_next Example.host
    (ListPage.firstDayOfMonth Example.host (Some 2023) (Some 12)) = "/2024/1"
  /\ ListPage.MonthHeading_prev Example.host
       (ListPage.firstDayOfMonth Example.host (Some 2024) (Some 1)) = "/2023/12".
Proof.
  destruct (X11_month_links_lead_back Example.host 2023 12) as (Hn & Hp & _);
    [vm_compute; split; discriminate|lia|lia|].
  split; [exact Hn|exact Hp].
Defined.



(** X14. Stored days whose [starts] and [stops] hold texts in the form
    [toISOString] writes are loaded alike on every host, whatever its time
    zone and locale, and every date loaded is valid. *)
Theorem X14_loading_does_not_depend_on_the_host h h' (sh : shape)
    (text : string) (es : list (string * StoredDailyRecord)) :
  JSON.parse_text text = Some (shaped sh (Stored_value es)) ->
  Forall (fun e => not_date_field (fst e)) es ->
  Forall (fun e => Forall is_ISO (stored_starts (snd e))
                   /\ Forall is_ISO (stored_stops (snd e))) es ->
  Store.deserialize h (VStr text) = Store.deserialize h' (VStr text)
  /\ Store.deserialize h (VStr text) = Ok (shaped sh (Loaded_value h es))
  /\ Forall (fun e =>
       Forall (fun d => d <> InvalidDate) (starts (rehydrate h (snd e)))
       /\ Forall (fun d => d <> InvalidDate) (stops (rehydrate h (snd e)))) es.
Proof.
  intros Ht Hk Hiso.
  rewrite (PersistenceFacts.deserialize_stored h sh text es Ht Hk),
    (PersistenceFacts.deserialize_stored h' sh text es Ht Hk).
  split; [|split; [done|]].
  - do 2 f_equal. unfold Loaded_value. f_equal. apply map_ext_in.
    intros e He. rewrite Forall_forall in Hiso.
    destruct (Hiso e (proj2 (list_elem_of_In _ _) He)) as [Hs Hp].
    by rewrite (RevivalFacts.rehydrate_ISO h h' (snd e) Hs Hp).
  - eapply Forall_impl; [exact Hiso|]. intros e [Hs Hp].
    unfold rehydrate. cbn [starts stops].
    split; apply Forall_forall; intros d Hd;
      apply list_elem_of_In, in_map_iff in Hd as (x & <- & Hx).
    + rewrite Forall_forall in Hs.
      apply (RevivalFacts.dayjs_toDate_ISO h h x), Hs. by apply list_elem_of_In.
    + rewrite Forall_forall in Hp.
      apply (RevivalFacts.dayjs_toDate_ISO h h x), Hp. by apply list_elem_of_In.
Qed.

Lemma X14_loading_does_not_depend_on_the_host_witness :
  Store.deserialize Example.host
    (VStr (Example.dq
       "{'20240201':{'starts':['2024-02-01T00:00:00.000Z'],'stops':[],'memos':['x']}}"))
  = Store.deserialize host_west
      (VStr (Example.dq
         "{'20240201':{'starts':['2024-02-01T00:00:00.000Z'],'stops':[],'memos':['x']}}")).
Proof.
  apply (X14_loading_does_not_depend_on_the_host Example.host host_west Bare _
           [("20240201",
             {| stored_starts := ["2024-02-01T00:00:00.000Z"];
                stored_stops := [];
                stored_memos := ["x"] |})]).
  - vm_compute. reflexivity.
  - repeat constructor; discriminate.
  - repeat constructor. cbn [stored_starts snd].
    repeat constructor. vm_compute. eauto.
Defined.

(** X15. Both pages lead to a day by the same path: the path of the
    'CurrentState' page for a time is the path of the row of that date in
    the 'List' page of its month, [/year/month/date] as numbers, and the
    rows of a month have pairwise distinct paths. (For a year of four
    digits.) *)
Theorem X15_both_pages_name_a_day_alike h (first t : Z) :
  1000 <= Dayjs.year h t <= 9999 ->
  Dayjs.year h first = Dayjs.year h t -> Dayjs.month h first = Dayjs.month h t ->
  exists days d,
    Exporters.getDaysInMonth h (DateAt first) = Ok days
    /\ days !! Z.to_nat (Dayjs.date h t - 1) = Some d
    /\ ListPage.DateList_path h d = CurrentStatePage.handleClick_path h (DateAt t)
    /\ (forall (i j : nat) di dj, i <> j ->
          days !! i = Some di -> days !! j = Some dj ->
          ListPage.DateList_path h di <> ListPage.DateList_path h dj).
Proof.
  intros Hyr Hy Hm. exists (days_of h first).
  pose proof (MonthFacts.date_field_bound h t) as Hd. rewrite <- Hy, <- Hm in Hd.
  rewrite <- ExportFacts.month_length_plain in Hd by lia.
  exists (Dayjs.set_date h (DateAt first) (Dayjs.date h t)).
  split; [apply ExportFacts.getDaysInMonth_valid|].
  split; [|split].
  - rewrite ExportFacts.lookup_days_of by lia.
    by replace (Z.of_nat (Z.to_nat (Dayjs.date h t - 1)) + 1)
      with (Dayjs.date h t) by lia.
  - unfold ListPage.DateList_path, CurrentStatePage.handleClick_path.
    replace (Dayjs.date h t) with (Z.of_nat (Z.to_nat (Dayjs.date h t - 1)) + 1)
      at 1 by lia.
    rewrite DayPathFacts.format_path_day by lia.
    unfold Dayjs.format_path_YYYY_M_D. rewrite Hy, Hm.
    by replace (Z.of_nat (Z.to_nat (Dayjs.date h t - 1)) + 1)
      with (Dayjs.date h t) by lia.
  - intros i j di dj Hij [Hi ->]%ExportFacts.lookup_days_of_inv
      [Hj ->]%ExportFacts.lookup_days_of_inv.
    unfold ListPage.DateList_path.
    rewrite !DayPathFacts.format_path_day by done.
    intros Heq. do 5 apply DayPathFacts.app_inv_head in Heq.
    apply (inj pretty) in Heq. lia.
Qed.

Lemma X15_both_pages_name_a_day_alike_witness :
  exists days d,
    Exporters.getDaysInMonth Example.host Example.feb2024 = Ok days
    /\ days !! 1%nat = Some d
    /\ ListPage.DateList_path Example.host d = "/2024/2/2"
    /\ CurrentStatePage.handleClick_path Example.host (DateAt 1706832000000) = "/2024/2/2".
Proof.
  destruct (X15_both_pages_name_a_day_alike Example.host 1706713200000
              1706832000000) as (days & d & Hdays & Hd & Heq & _);
    [vm_compute; split; discriminate|vm_compute; reflexivity
    |vm_compute; reflexivity|].
  exists days, d. split; [exact Hdays|]. split; [exact Hd|].
  rewrite Heq. split; vm_compute; reflexivity.
Defined.
